(** * OTP forwarding bot (bot.js): session lifecycle, polling, dedup ledger

    A shallow embedding of [src/bot.js] (the Puppeteer/Telegram OTP bot) and
    [src/config.js].  Module-level globals become the fields of [State];
    every call that leaves the process (browser automation, Telegram, the
    file system, the clock) is answered by an oracle of [Env] that sees the
    whole history of earlier calls, and is recorded in [trace].  JavaScript
    exceptions are modelled by [Throw]: state changes made before a throw
    persist, exactly as in JavaScript. *)

From Stdlib Require Import List String Ascii NArith Arith Bool Lia DecimalString.
From Stdlib Require Import ZArith Sorted DecimalN.
Import ListNotations.
Local Open Scope string_scope.
Local Open Scope list_scope.

(* ================================================================== *)
(** ** JavaScript values used by the program *)
(* ================================================================== *)

(** A JavaScript [Set] of strings iterates in insertion order and holds no
    element twice: it is the list of its elements in insertion order. *)
Definition JSSet := list string.

Definition set_has (s : JSSet) (x : string) : bool :=
  existsb (String.eqb x) s.

(** [s.add(x)] *)
Definition set_add (s : JSSet) (x : string) : JSSet :=
  if set_has s x then s else s ++ [x].

(** [new Set(array)]: the elements are added one by one. *)
Definition new_Set (a : list string) : JSSet := fold_left set_add a [].

(** [Array.from(set)] *)
Definition Array_from (s : JSSet) : list string := s.

(** [array.slice(-n)]: the last [n] elements (all of them when the array is
    shorter). *)
Definition slice_last {A : Type} (n : nat) (a : list A) : list A :=
  skipn (List.length a - n) a.

(** [s.includes(sub)] *)
Fixpoint includes (sub s : string) : bool :=
  String.prefix sub s ||
  match s with
  | EmptyString => false
  | String _ s' => includes sub s'
  end.

(** [s.replace(/\u0000/g, '')] *)
Fixpoint remove_nul (s : string) : string :=
  match s with
  | EmptyString => EmptyString
  | String c s' =>
      if Ascii.eqb c "000"%char then remove_nul s' else String c (remove_nul s')
  end.

(** Page text is a sequence of UTF-16 code units. *)
Definition jschar := N.
Definition jsstring := list jschar.

(** [\d] *)
Definition is_digit (c : jschar) : bool := ((48 <=? c) && (c <=? 57))%N.

(** [\s], which is also the set of characters [trim] strips: WhiteSpace and
    LineTerminator of ECMAScript. *)
Definition is_space (c : jschar) : bool :=
  (((9 <=? c) && (c <=? 13)) || (c =? 32) || (c =? 160) || (c =? 5760)
   || ((8192 <=? c) && (c <=? 8202)) || (c =? 8232) || (c =? 8233)
   || (c =? 8239) || (c =? 8287) || (c =? 12288) || (c =? 65279))%N.

(** The code unit of [+]. *)
Definition plus_sign : jschar := 43%N.

Fixpoint drop_while (p : jschar -> bool) (s : jsstring) : jsstring :=
  match s with
  | [] => []
  | c :: s' => if p c then drop_while p s' else s
  end.

Fixpoint take_while (p : jschar -> bool) (s : jsstring) : jsstring :=
  match s with
  | [] => []
  | c :: s' => if p c then c :: take_while p s' else []
  end.

(** [s.trim()] *)
Definition trim (s : jsstring) : jsstring :=
  rev (drop_while is_space (rev (drop_while is_space s))).

(** *** Numbers *)

(** A number as this program meets them: an integer that a double holds, an
    infinity, or [NaN].  Minus zero is not told from zero: the program only
    tests a number for truth and prints it. *)
Inductive Number :=
| Finite (z : Z)
| Infinite (negative : bool)
| NaN.

Definition MAX_SAFE_INTEGER : N := (2 ^ 53 - 1)%N.

(** The double nearest to the integer [n]: [n] itself up to [2^53]; above,
    the leading 53 bits of [n], rounded to nearest with ties to the even
    one; [None] when that is beyond the largest double and the number is an
    infinity. *)
Definition nearest_double (n : N) : option N :=
  if (n <=? 2 ^ 53)%N then Some n
  else
    let e := (N.log2 n - 52)%N in
    let q := N.shiftr n e in
    let r := (n - N.shiftl q e)%N in
    let half := N.shiftl 1 (e - 1) in
    let q' := if ((half <? r) || ((r =? half) && N.odd q))%N
              then (q + 1)%N else q in
    let m := N.shiftl q' e in
    if (m <? 2 ^ 1024)%N then Some m else None.

(** The number for the integer [z]. *)
Definition Number_of_Z (z : Z) : Number :=
  match nearest_double (Z.abs_N z) with
  | Some m => Finite (if (z <? 0)%Z then (- Z.of_N m)%Z else Z.of_N m)
  | None => Infinite (z <? 0)%Z
  end.

(** [a + b] *)
Definition Number_add (a b : Number) : Number :=
  match a, b with
  | NaN, _ | _, NaN => NaN
  | Finite x, Finite y => Number_of_Z (x + y)
  | Infinite s, Finite _ | Finite _, Infinite s => Infinite s
  | Infinite s, Infinite t => if Bool.eqb s t then Infinite s else NaN
  end.

(** Whether a number is truthy: zero and [NaN] are not. *)
Definition Number_truthy (x : Number) : bool :=
  match x with
  | Finite 0%Z | NaN => false
  | _ => true
  end.

(** The decimal numeral of [n]. *)
Definition decimal (n : N) : string :=
  NilZero.string_of_uint (N.to_uint n).

(** The decimal digits [s] and the power of ten [p] that
    [Number.prototype.toString] prints for a double [x] above [2^53]: the
    fewest digits such that [s * 10^p] is nearer to [x] than to any other
    double, and among those the nearest to [x], the even one on a tie. *)
Definition digits_candidates (x : N) (k : N) : list (N * N) :=
  let D := N.of_nat (String.length (decimal x)) in
  let p := (D - k)%N in
  let lo := (x / 10 ^ p)%N in
  filter (fun c : N * N =>
            let (s, p) := c in
            ((10 ^ (k - 1) <=? s) && (s <? 10 ^ k))%N
            && match nearest_double (s * 10 ^ p) with
               | Some y => (y =? x)%N
               | None => false
               end)
         [(lo, p); ((lo + 1)%N, p); ((10 ^ (k - 1))%N, (p + 1)%N)].

Definition distance (a b : N) : N := if (a <=? b)%N then (b - a)%N else (a - b)%N.

Definition nearer (x : N) (c d : N * N) : N * N :=
  let dc := distance (fst c * 10 ^ snd c) x in
  let dd := distance (fst d * 10 ^ snd d) x in
  if (dc <? dd)%N then c
  else if (dd <? dc)%N then d
  else if N.even (fst c) then c else d.

Fixpoint shortest_from (x : N) (k : N) (fuel : nat) : N * N :=
  match fuel with
  | 0 => (x, 0%N)
  | S fuel' =>
      match digits_candidates x k with
      | c :: cs => fold_left (nearer x) cs c
      | [] => shortest_from x (k + 1)%N fuel'
      end
  end.

Definition shortest_digits (x : N) : N * N := shortest_from x 1 17.

(** [x.toString()] for a non-negative integer double [x]: the digits
    followed by zeros below [10^21], the exponent form from there on. *)
Definition magnitude_toString (x : N) : string :=
  if (x <=? 2 ^ 53)%N then decimal x
  else
    let (s, p) := shortest_digits x in
    let ds := decimal s in
    let n := (N.of_nat (String.length ds) + p)%N in
    if (n <=? 21)%N then
      String.append ds (String.concat "" (repeat "0" (N.to_nat p)))
    else
      let e := String.append "e+" (decimal (n - 1)) in
      match ds with
      | String d EmptyString => String.append (String d EmptyString) e
      | String d rest =>
          String.append (String d (String.append "." rest)) e
      | EmptyString => e
      end.

(** [x.toString()] *)
Definition Number_toString (x : Number) : string :=
  match x with
  | NaN => "NaN"
  | Infinite false => "Infinity"
  | Infinite true => "-Infinity"
  | Finite z =>
      if (z <? 0)%Z
      then String.append "-" (magnitude_toString (Z.abs_N z))
      else magnitude_toString (Z.abs_N z)
  end.

(** *** [parseInt] *)

(** The code units of [-], [0], [x] and [X]. *)
Definition minus_sign : jschar := 45%N.
Definition zero_digit : jschar := 48%N.
Definition small_x : jschar := 120%N.
Definition capital_x : jschar := 88%N.

(** The value of a decimal digit, and of a run of them. *)
Definition digit_value (c : jschar) : N := (c - 48)%N.

Definition decimal_value (ds : jsstring) : N :=
  fold_left (fun acc c => (10 * acc + digit_value c)%N) ds 0%N.

(** A digit of radix 16, and its value. *)
Definition is_hex_digit (c : jschar) : bool :=
  (is_digit c || ((97 <=? c) && (c <=? 102)) || ((65 <=? c) && (c <=? 70)))%N.

Definition hex_value (c : jschar) : N :=
  if is_digit c then (c - 48)%N
  else if (97 <=? c)%N then (c - 87)%N
  else (c - 55)%N.

(** [parseInt(s)] with no radix: white space in front is skipped, a sign is
    read, [0x] or [0X] selects radix 16, and the digits that follow are read
    as far as they go; with no digit the result is [NaN], otherwise the
    number for the integer read. *)
Definition parseInt (s : jsstring) : Number :=
  let S := drop_while is_space s in
  let negative :=
    match S with
    | c :: _ => (c =? minus_sign)%N
    | [] => false
    end in
  let S1 :=
    match S with
    | c :: r => if ((c =? plus_sign) || (c =? minus_sign))%N then r else S
    | [] => S
    end in
  let hex :=
    match S1 with
    | c0 :: c1 :: _ =>
        ((c0 =? zero_digit) && ((c1 =? small_x) || (c1 =? capital_x)))%N
    | _ => false
    end in
  let S2 := if hex then skipn 2 S1 else S1 in
  let digits := take_while (if hex then is_hex_digit else is_digit) S2 in
  match digits with
  | [] => NaN
  | _ :: _ =>
      let mathInt :=
        if hex
        then fold_left (fun acc c => (16 * acc + hex_value c)%N) digits 0%N
        else decimal_value digits in
      Number_of_Z (if negative then (- Z.of_N mathInt)%Z else Z.of_N mathInt)
  end.

(** [/(\d+)\s*\+\s*(\d+)/] tried at the start of [s].  Each quantifier is
    greedy and the character classes that follow one another are disjoint,
    so backtracking never finds a match that the longest runs miss. *)
Definition match_here (s : jsstring) : option (jsstring * jsstring) :=
  let d1 := take_while is_digit s in
  match d1 with
  | [] => None
  | _ :: _ =>
      match drop_while is_space (drop_while is_digit s) with
      | c :: r =>
          if (c =? plus_sign)%N then
            let d2 := take_while is_digit (drop_while is_space r) in
            match d2 with
            | [] => None
            | _ :: _ => Some (d1, d2)
            end
          else None
      | [] => None
      end
  end.

(** [text.match(/(\d+)\s*\+\s*(\d+)/)]: the leftmost match, as the two
    captured groups. *)
Fixpoint regex_match (s : jsstring) : option (jsstring * jsstring) :=
  match match_here s with
  | Some m => Some m
  | None =>
      match s with
      | [] => None
      | _ :: s' => regex_match s'
      end
  end.

(** The body of the function [solveMathCaptcha] evaluates in the page, over
    the [textContent] of the [label], [span] and [div] elements in document
    order. *)
Fixpoint captcha_scan (labels : list jsstring) : option Number :=
  match labels with
  | [] => None
  | el :: rest =>
      let text := trim el in
      match regex_match text with
      | Some (m1, m2) => Some (Number_add (parseInt m1) (parseInt m2))
      | None => captcha_scan rest
      end
  end.

(* ================================================================== *)
(** ** Constants of bot.js *)
(* ================================================================== *)

Definition MAX_RECONNECT_ATTEMPTS : nat := 5.
Definition RECONNECT_DELAY : nat := 5000.
Definition MAX_STORED_HASHES : nat := 1000.

(** The literal of [hashArray.slice(-500)] in [pollSMSAPI]. *)
Definition TRIMMED_HASHES : nat := 500.

(* ================================================================== *)
(** ** The world outside the process *)
(* ================================================================== *)

(** The file [./sent-messages.json], as [loadSentMessages] sees it: missing,
    present but reading or parsing it throws, or holding the JSON array of
    strings that [JSON.parse] returns.  [JSON.stringify] followed by
    [JSON.parse] returns an array of strings as it was, so the text itself is
    not modelled. *)
Inductive FileContent :=
| FileAbsent
| FileCorrupt
| FileJson (hashes : list string).

(** A browser or page object. *)
Definition Handle := nat.

(** What [row[k]] gives: any JSON value, or [undefined] where the row has
    nothing at [k].  The program does three things with such a value: it
    tests it for truth, it puts it into a template literal, and it calls
    [replace] on it, which only a string has.  A value that is neither a
    string nor [null] nor [undefined] (a number, a boolean, an array, an
    object) is given by whether it is truthy and by the text a template
    literal makes of it; [None] for a value whose conversion to a string
    throws, such as an object with an own [toString] that is no function. *)
Inductive Cell :=
| CellUndefined
| CellNull
| CellString (s : string)
| CellOther (truthy : bool) (text : option string).

Coercion CellString : string >-> Cell.

(** Whether a value is truthy. *)
Definition cell_truthy (c : Cell) : bool :=
  match c with
  | CellUndefined | CellNull => false
  | CellString EmptyString => false
  | CellString _ => true
  | CellOther truthy _ => truthy
  end.

(** [`${c}`] *)
Definition cell_text (c : Cell) : option string :=
  match c with
  | CellUndefined => Some "undefined"
  | CellNull => Some "null"
  | CellString s => Some s
  | CellOther _ text => text
  end.

(** [c || d] for a string [d] *)
Definition or_default (c : Cell) (d : string) : Cell :=
  if cell_truthy c then c else CellString d.

(** One element of [aaData] that can be indexed: columns 0, 2, 3, 4 and 5
    are all the program reads.  An element that is [null] cannot be indexed
    and is [None] in [aaData]. *)
Record Row := mkRow {
  col0 : Cell;
  col2 : Cell;
  col3 : Cell;
  col4 : Cell;
  col5 : Cell
}.

(** What [responseData && responseData.aaData] finds in the body of a
    [data_smscdr.php] response: nothing truthy, an array, or a truthy value
    that is no array and so has no [map]. *)
Inductive ResponseData :=
| NoTable
| Table (aaData : list (option Row))
| NotAnArray.

(** Scripts handed to [page.evaluate]. *)
Inductive Script :=
| ScriptProbe            (* () => true *)
| ScriptCaptcha          (* the scan of solveMathCaptcha *)
| ScriptReload.          (* table.ajax.reload() *)

(** The inputs of the login form: [input[name=username]],
    [input[name=password]] and [input[name=capt]]. *)
Inductive Field := FieldUsername | FieldPassword | FieldCapt.

(** Calls that leave the process, in the order they happen. *)
Inductive Event :=
| EvWhichChromium
| EvExecutablePath
| EvLaunch (chromePath : option string)
| EvNewPage
| EvGoto (url : string)
| EvEvaluate (script : Script)
| EvType (field : Field) (text : string)
| EvWaitForNavigation
| EvPressEnter
| EvReadUrl
| EvOnResponse
| EvAwaitResponse
| EvClose
| EvSleep (ms : nat)
| EvSendMessage (chatId text : string)
| EvWriteFile (hashes : list string)
| EvReadFile.

Definition Trace := list Event.

(** The result of a call: a value, or a thrown [Error] with its message. *)
Inductive Res (A : Type) :=
| Ok (a : A)
| Throw (message : string).
Arguments Ok {A} a.
Arguments Throw {A} message.

(** What the outside answers.  Each oracle is given the trace of all calls
    up to and including the one it answers, so an answer may depend on the
    arguments of the call and on anything that happened before. *)
Record Env := mkEnv {
  execSync_which_chromium : Trace -> Res string;
  puppeteer_executablePath : Trace -> Res string;
  puppeteer_launch : Trace -> Res Handle;
  browser_newPage : Trace -> Res Handle;
  browser_close : Trace -> Res unit;
  page_goto : Trace -> Res unit;
  page_evaluate_probe : Trace -> Res unit;
  page_evaluate_captcha : Trace -> Res (list jsstring);
  page_evaluate_reload : Trace -> Res unit;
  page_type : Trace -> Res unit;
  keyboard_press : Trace -> Res unit;
  page_url : Trace -> string;
  page_response : Trace -> option ResponseData;
  bot_sendMessage : Trace -> Res unit;
  fs_writeFileSync : Trace -> Res unit;
  Date_now : Trace -> N;
  Date_toLocaleString : Trace -> string
}.

(** The fields of [config] the program reads.  [LOGIN_URL],
    [SMS_REPORTS_URL] and the credentials are not fixed by config.js. *)
Record Config := mkConfig {
  LOGIN_URL : string;
  SMS_REPORTS_URL : string;
  API_USERNAME : string;
  API_PASSWORD : string;
  TELEGRAM_CHAT_IDS : list string
}.

(** [TELEGRAM_CHAT_IDS] of config.js. *)
Definition config_js_chat_ids : list string :=
  ["-1003420206708"; "-1003151782333"; "-1002085925533"].

(* ================================================================== *)
(** ** Program state *)
(* ================================================================== *)

(** The module-level variables of bot.js, the snapshot file and the trace. *)
Record State := mkState {
  sentMessageHashes : JSSet;
  isPolling : bool;
  browser : option Handle;
  page : option Handle;
  reconnectAttempts : nat;
  lastSuccessfulPoll : N;
  pollCount : nat;
  disk : FileContent;
  trace : Trace
}.

Definition set_sentMessageHashes (v : JSSet) (s : State) : State :=
  mkState v (isPolling s) (browser s) (page s) (reconnectAttempts s)
          (lastSuccessfulPoll s) (pollCount s) (disk s) (trace s).
Definition set_isPolling (v : bool) (s : State) : State :=
  mkState (sentMessageHashes s) v (browser s) (page s) (reconnectAttempts s)
          (lastSuccessfulPoll s) (pollCount s) (disk s) (trace s).
Definition set_browser (v : option Handle) (s : State) : State :=
  mkState (sentMessageHashes s) (isPolling s) v (page s) (reconnectAttempts s)
          (lastSuccessfulPoll s) (pollCount s) (disk s) (trace s).
Definition set_page (v : option Handle) (s : State) : State :=
  mkState (sentMessageHashes s) (isPolling s) (browser s) v (reconnectAttempts s)
          (lastSuccessfulPoll s) (pollCount s) (disk s) (trace s).
Definition set_reconnectAttempts (v : nat) (s : State) : State :=
  mkState (sentMessageHashes s) (isPolling s) (browser s) (page s) v
          (lastSuccessfulPoll s) (pollCount s) (disk s) (trace s).
Definition set_lastSuccessfulPoll (v : N) (s : State) : State :=
  mkState (sentMessageHashes s) (isPolling s) (browser s) (page s)
          (reconnectAttempts s) v (pollCount s) (disk s) (trace s).
Definition set_pollCount (v : nat) (s : State) : State :=
  mkState (sentMessageHashes s) (isPolling s) (browser s) (page s)
          (reconnectAttempts s) (lastSuccessfulPoll s) v (disk s) (trace s).
Definition set_disk (v : FileContent) (s : State) : State :=
  mkState (sentMessageHashes s) (isPolling s) (browser s) (page s)
          (reconnectAttempts s) (lastSuccessfulPoll s) (pollCount s) v (trace s).
Definition set_trace (v : Trace) (s : State) : State :=
  mkState (sentMessageHashes s) (isPolling s) (browser s) (page s)
          (reconnectAttempts s) (lastSuccessfulPoll s) (pollCount s) (disk s) v.

(** The values the [let] declarations at the top of bot.js give, with the
    snapshot file found on disk and the clock reading at start. *)
Definition initial_state (file : FileContent) (now : N) : State :=
  mkState [] false None None 0 now 0 file [].

(* ================================================================== *)
(** ** Computations: state and exceptions *)
(* ================================================================== *)

Definition M (A : Type) : Type := State -> Res A * State.

Definition ret {A} (a : A) : M A := fun s => (Ok a, s).

Definition bind {A B} (m : M A) (k : A -> M B) : M B :=
  fun s =>
    match m s with
    | (Ok a, s') => k a s'
    | (Throw e, s') => (Throw e, s')
    end.

Definition throw {A} (message : string) : M A := fun s => (Throw message, s).

(** [try { m } catch (err) { h err.message }] *)
Definition try_catch {A} (m : M A) (h : string -> M A) : M A :=
  fun s =>
    match m s with
    | (Ok a, s') => (Ok a, s')
    | (Throw e, s') => h e s'
    end.

(** [try { m } finally { f }]; [f] does not throw in this program. *)
Definition try_finally {A} (m : M A) (f : State -> State) : M A :=
  fun s => let (r, s') := m s in (r, f s').

Definition get : M State := fun s => (Ok s, s).

Definition modify (f : State -> State) : M unit := fun s => (Ok tt, f s).

Declare Scope js_scope.
Delimit Scope js_scope with js.
Notation "x <- m ;; k" := (bind m (fun x => k))
  (at level 61, m at next level, right associativity) : js_scope.
Notation "m ;; k" := (bind m (fun _ => k))
  (at level 61, right associativity) : js_scope.
Local Open Scope js_scope.

(** A call that leaves the process: the call is recorded and the oracle
    answers from the trace up to and including it. *)
Definition extern {A} (ev : Event) (oracle : Trace -> Res A) : M A :=
  fun s => let tr := trace s ++ [ev] in (oracle tr, set_trace tr s).

(** A call that cannot fail. *)
Definition extern_val {A} (ev : Event) (oracle : Trace -> A) : M A :=
  extern ev (fun tr => Ok (oracle tr)).

(** [await new Promise(r => setTimeout(r, ms))] *)
Definition sleep (ms : nat) : M unit := extern_val (EvSleep ms) (fun _ => tt).

(** A method call on the global [page]: a [TypeError] when it is [null]. *)
Definition on_page {A} (call : M A) : M A :=
  s <- get ;;
  match page s with
  | None => throw "Cannot read properties of null"
  | Some _ => call
  end.

(** [for (const x of xs) { body x }] *)
Fixpoint for_of {A} (xs : list A) (body : A -> M unit) : M unit :=
  match xs with
  | [] => ret tt
  | x :: rest => body x ;; for_of rest body
  end.

(* ================================================================== *)
(** ** The program *)
(* ================================================================== *)

(** One element of the array [fetchLatestSMS] returns. *)
Record Sms := mkSms {
  hash : string;
  date : Cell;
  destination_addr : Cell;
  source_addr : Cell;
  client : Cell;
  short_message : Cell
}.

Definition nl : string := String "010"%char EmptyString.

(** The template literal of [sendOTPToTelegram]. *)
Definition format_otp (source destination message stamp : string) : string :=
  String.concat ""
    [ nl; "🔔 *NEW OTP RECEIVED*"; nl;
      "━━━━━━━━━━━━━━━━━━━━"; nl;
      "📤 *Source:* `"; source; "`"; nl;
      "📱 *Destination:* `"; destination; "`"; nl;
      nl;
      "💬 *Message:*"; nl;
      "```"; nl;
      message; nl;
      "```"; nl;
      "━━━━━━━━━━━━━━━━━━━━"; nl;
      "⏰ _"; stamp; "_"; nl ].

Section Program.

Variable config : Config.
Variable env : Env.

(** [crypto.createHash('md5').update(data).digest('hex')] *)
Variable md5_hex : string -> string.

(** [fs.readFileSync] and [JSON.parse], once [fs.existsSync] said yes. *)
Definition read_snapshot : M (list string) :=
  fun s =>
    let s' := set_trace (trace s ++ [EvReadFile]) s in
    match disk s with
    | FileJson hashes => (Ok hashes, s')
    | _ => (Throw "Unexpected token in JSON", s')
    end.

Definition loadSentMessages : M unit :=
  try_catch
    (s <- get ;;
     match disk s with
     | FileAbsent => ret tt
     | _ =>
         hashes <- read_snapshot ;;
         modify (set_sentMessageHashes (new_Set hashes))
     end)
    (fun _ => modify (set_sentMessageHashes [])).

(** [fs.writeFileSync(MESSAGES_FILE, JSON.stringify(hashArray, null, 2))] *)
Definition write_snapshot (hashArray : list string) : M unit :=
  fun s =>
    let tr := trace s ++ [EvWriteFile hashArray] in
    match fs_writeFileSync env tr with
    | Ok _ => (Ok tt, set_disk (FileJson hashArray) (set_trace tr s))
    | Throw e => (Throw e, set_trace tr s)
    end.

Definition saveSentMessages : M unit :=
  try_catch
    (s <- get ;;
     let hashArray :=
       slice_last MAX_STORED_HASHES (Array_from (sentMessageHashes s)) in
     write_snapshot hashArray)
    (fun _ => ret tt).

Definition solveMathCaptcha : M (option Number) :=
  on_page
    (labels <- extern (EvEvaluate ScriptCaptcha) (page_evaluate_captcha env) ;;
     ret (captcha_scan labels)).

(** The inner [try]/[catch] of [initializeBrowser].  [result] is what
    [which chromium] printed, after [trim]; [chromePath] stays [undefined]
    when that is empty. *)
Definition find_chromePath : M (option string) :=
  try_catch
    (result <- extern EvWhichChromium (execSync_which_chromium env) ;;
     ret (match result with EmptyString => None | _ => Some result end))
    (fun _ =>
       p <- extern EvExecutablePath (puppeteer_executablePath env) ;;
       ret (Some p)).

Definition initializeBrowser : M bool :=
  try_catch
    (chromePath <- find_chromePath ;;
     b <- extern (EvLaunch chromePath) (puppeteer_launch env) ;;
     modify (set_browser (Some b)) ;;
     p <- extern EvNewPage (browser_newPage env) ;;
     modify (set_page (Some p)) ;;
     on_page (extern (EvGoto (LOGIN_URL config)) (page_goto env)) ;;
     sleep 1000 ;;
     captchaAnswer <- solveMathCaptcha ;;
     match captchaAnswer with
     | None => throw "Could not solve math captcha"
     | Some answer =>
         if negb (Number_truthy answer) then
           throw "Could not solve math captcha"
         else
         on_page (extern (EvType FieldUsername (API_USERNAME config))
                         (page_type env)) ;;
         on_page (extern (EvType FieldPassword (API_PASSWORD config))
                         (page_type env)) ;;
         on_page (extern (EvType FieldCapt (Number_toString answer))
                         (page_type env)) ;;
         on_page (extern_val EvWaitForNavigation (fun _ => tt)) ;;
         on_page (extern EvPressEnter (keyboard_press env)) ;;
         currentUrl <- on_page (extern_val EvReadUrl (page_url env)) ;;
         if includes "login" currentUrl then
           throw "Login failed - still on login page"
         else
           on_page (extern (EvGoto (SMS_REPORTS_URL config)) (page_goto env)) ;;
           sleep 2000 ;;
           modify (set_reconnectAttempts 0) ;;
           ret true
     end)
    (fun _ => ret false).

(** [if (browser) await browser.close().catch(() => {})] *)
Definition close_browser : M unit :=
  s <- get ;;
  match browser s with
  | Some _ => try_catch (extern EvClose (browser_close env)) (fun _ => ret tt)
  | None => ret tt
  end.

Definition ensureBrowserActive : M bool :=
  try_catch
    (s <- get ;;
     match browser s, page s with
     | Some _, Some _ =>
         extern (EvEvaluate ScriptProbe) (page_evaluate_probe env) ;;
         ret true
     | _, _ => initializeBrowser
     end)
    (fun _ =>
       close_browser ;;
       modify (set_browser None) ;;
       modify (set_page None) ;;
       s <- get ;;
       if (reconnectAttempts s <? MAX_RECONNECT_ATTEMPTS)%nat then
         modify (set_reconnectAttempts (S (reconnectAttempts s))) ;;
         sleep RECONNECT_DELAY ;;
         initializeBrowser
       else
         ret false).

(** The template literal hashed by [fetchLatestSMS]; [None] when the
    conversion of a cell to a string throws. *)
Definition msgData (row : Row) : option string :=
  match cell_text (col0 row), cell_text (col2 row),
        cell_text (col3 row), cell_text (col5 row) with
  | Some t0, Some t2, Some t3, Some t5 =>
      Some (String.concat "_" [t0; t2; t3; t5])
  | _, _, _, _ => None
  end.

(** The callback of [aaData.map]. *)
Definition message_of_row (row : option Row) : Res Sms :=
  match row with
  | None => Throw "Cannot read properties of null (reading '0')"
  | Some row =>
      match msgData row with
      | None => Throw "Cannot convert object to primitive value"
      | Some data =>
          Ok {| hash := md5_hex data;
                date := or_default (col0 row) "";
                destination_addr := or_default (col2 row) "";
                source_addr := or_default (col3 row) "";
                client := or_default (col4 row) "";
                short_message := or_default (col5 row) "" |}
      end
  end.

(** [aaData.map(...)]: the first row whose callback throws ends it. *)
Fixpoint map_rows (aaData : list (option Row)) : Res (list Sms) :=
  match aaData with
  | [] => Ok []
  | row :: rest =>
      match message_of_row row with
      | Throw e => Throw e
      | Ok sms =>
          match map_rows rest with
          | Throw e => Throw e
          | Ok messages => Ok (sms :: messages)
          end
      end
  end.

(** The date window computed at the top of the [try] is passed to the page
    function, which does not use it; it is left out. *)
Definition fetchLatestSMS : M (list Sms) :=
  try_catch
    (browserActive <- ensureBrowserActive ;;
     if negb browserActive then ret []
     else
       on_page (extern_val EvOnResponse (fun _ => tt)) ;;
       on_page (extern (EvGoto (SMS_REPORTS_URL config)) (page_goto env)) ;;
       on_page (extern (EvEvaluate ScriptReload) (page_evaluate_reload env)) ;;
       responseData <- extern_val EvAwaitResponse (page_response env) ;;
       match responseData with
       | Some (Table aaData) =>
           s <- get ;;
           modify (set_lastSuccessfulPoll (Date_now env (trace s))) ;;
           match map_rows aaData with
           | Ok messages => ret messages
           | Throw e => throw e
           end
       | Some NotAnArray =>
           s <- get ;;
           modify (set_lastSuccessfulPoll (Date_now env (trace s))) ;;
           throw "responseData.aaData.map is not a function"
       | _ => ret []
       end)
    (fun _ => ret []).

(** [value.replace(/\u0000/g, '')]: only a string has [replace]. *)
Definition replace_nul (value : Cell) : Res string :=
  match value with
  | CellString s => Ok (remove_nul s)
  | CellUndefined | CellNull =>
      Throw "Cannot read properties of undefined (reading 'replace')"
  | CellOther _ _ => Throw "(intermediate value).replace is not a function"
  end.

(** The text [sendOTPToTelegram] builds for [sms] when the clock reads
    [stamp]; a throw when [replace] or the template literal throws. *)
Definition formatted_text (sms : Sms) (stamp : string) : Res string :=
  let source := or_default (source_addr sms) "Unknown" in
  let destination := or_default (destination_addr sms) "Unknown" in
  match replace_nul (or_default (short_message sms) "No content") with
  | Throw e => Throw e
  | Ok message =>
      match cell_text source, cell_text destination with
      | Some source_text, Some destination_text =>
          Ok (format_otp source_text destination_text message stamp)
      | _, _ => Throw "Cannot convert object to primitive value"
      end
  end.

Definition sendOTPToTelegram (sms : Sms) : M unit :=
  try_catch
    (s <- get ;;
     match formatted_text sms (Date_toLocaleString env (trace s)) with
     | Throw e => throw e
     | Ok formatted =>
         for_of (TELEGRAM_CHAT_IDS config)
           (fun chatId =>
              try_catch
                (extern (EvSendMessage chatId formatted) (bot_sendMessage env))
                (fun _ => ret tt))
     end)
    (fun _ => ret tt).

(** The body of the [for] loop of [pollSMSAPI]; the result is [newCount]. *)
Definition poll_message (sms : Sms) (newCount : nat) : M nat :=
  s <- get ;;
  if negb (set_has (sentMessageHashes s) (hash sms)) then
    sendOTPToTelegram sms ;;
    modify (fun s =>
              set_sentMessageHashes (set_add (sentMessageHashes s) (hash sms)) s) ;;
    s <- get ;;
    (if (MAX_STORED_HASHES <? List.length (sentMessageHashes s))%nat then
       let hashArray := Array_from (sentMessageHashes s) in
       modify (set_sentMessageHashes (new_Set (slice_last TRIMMED_HASHES hashArray)))
     else ret tt) ;;
    ret (S newCount)
  else
    ret newCount.

Fixpoint poll_messages (messages : list Sms) (newCount : nat) : M nat :=
  match messages with
  | [] => ret newCount
  | sms :: rest =>
      n <- poll_message sms newCount ;;
      poll_messages rest n
  end.

(** The [try] block of [pollSMSAPI]. *)
Definition poll_body : M unit :=
  messages <- fetchLatestSMS ;;
  match messages with
  | [] => ret tt
  | _ :: _ =>
      newCount <- poll_messages messages 0 ;;
      if (0 <? newCount)%nat then saveSentMessages else ret tt
  end.

(** The statements of [pollSMSAPI] before its [try]: the result tells
    whether the call goes on into the [try] block. *)
Definition poll_enter : M bool :=
  s <- get ;;
  if isPolling s then ret false
  else
    modify (set_isPolling true) ;;
    modify (fun s => set_pollCount (S (pollCount s)) s) ;;
    ret true.

(** [try { body } catch (err) { } finally { isPolling = false }] *)
Definition poll_protected (body : M unit) : M unit :=
  try_finally (try_catch body (fun _ => ret tt)) (set_isPolling false).

(** [pollSMSAPI] around any [try] block. *)
Definition poll_guard (body : M unit) : M unit :=
  entered <- poll_enter ;;
  if entered then poll_protected body else ret tt.

Definition pollSMSAPI : M unit := poll_guard poll_body.

(** [if (timeSinceLastPoll > 300000 && browser) { ... }] of
    [performHealthCheck]; the rest of the function only logs. *)
Definition performHealthCheck : M unit :=
  s <- get ;;
  let timeSinceLastPoll := (Date_now env (trace s) - lastSuccessfulPoll s)%N in
  match browser s with
  | Some _ =>
      if (300000 <? timeSinceLastPoll)%N then
        close_browser ;;
        modify (set_browser None) ;;
        modify (set_page None) ;;
        ensureBrowserActive ;;
        ret tt
      else ret tt
  | None => ret tt
  end.

(** What [startBot], the two interval timers and [shutdown] call:
    [loadSentMessages] and [initializeBrowser] at start, [pollSMSAPI] and
    [performHealthCheck] from the timers, [saveSentMessages] at shutdown. *)
Inductive Op := OpLoad | OpInit | OpPoll | OpHealthCheck | OpSave.

Definition run_op (o : Op) : M unit :=
  match o with
  | OpLoad => loadSentMessages
  | OpInit => initializeBrowser ;; ret tt
  | OpPoll => pollSMSAPI
  | OpHealthCheck => performHealthCheck
  | OpSave => saveSentMessages
  end.

Definition run_ops (ops : list Op) (s : State) : State :=
  fold_left (fun s o => snd (run_op o s)) ops s.

End Program.

(* ================================================================== *)
(** ** Overlapping calls of an async function *)
(* ================================================================== *)

(** [pollSMSAPI] is async: a call runs up to its first [await] and the rest
    of its [try] block runs later, piece by piece, while the interval timer
    may call [pollSMSAPI] again.  A call in flight is the list of the pieces
    of its [try] block that are still to run. *)
Record Sched := mkSched {
  st : State;
  inflight : list (list (M unit))
}.

Inductive SchedEvent :=
| TimerFires             (* setInterval calls pollSMSAPI *)
| Resume (i : nat).      (* the i-th call in flight runs its next piece *)

Fixpoint remove_nth {A} (i : nat) (l : list A) : list A :=
  match l, i with
  | [], _ => []
  | _ :: l', 0 => l'
  | x :: l', S i' => x :: remove_nth i' l'
  end.

Fixpoint replace_nth {A} (i : nat) (y : A) (l : list A) : list A :=
  match l, i with
  | [], _ => []
  | _ :: l', 0 => y :: l'
  | x :: l', S i' => x :: replace_nth i' y l'
  end.

(** One turn of the event loop; [pieces] is the [try] block of a call. *)
Definition sched_step (pieces : list (M unit)) (ev : SchedEvent) (c : Sched)
  : Sched :=
  match ev with
  | TimerFires =>
      match poll_enter (st c) with
      | (Ok true, s') => mkSched s' (inflight c ++ [pieces])
      | (_, s') => mkSched s' (inflight c)
      end
  | Resume i =>
      match nth_error (inflight c) i with
      | None => c
      | Some [] =>
          (* the try block is over: finally *)
          mkSched (set_isPolling false (st c)) (remove_nth i (inflight c))
      | Some (piece :: rest) =>
          match piece (st c) with
          | (Ok _, s') => mkSched s' (replace_nth i rest (inflight c))
          | (Throw _, s') =>
              (* catch, then finally *)
              mkSched (set_isPolling false s') (remove_nth i (inflight c))
          end
      end
  end.

Definition sched_run (pieces : list (M unit)) (evs : list SchedEvent)
  (c : Sched) : Sched :=
  fold_left (fun c ev => sched_step pieces ev c) evs c.

(** A piece of the [try] block does not assign [isPolling]. *)
Definition keeps_flag (piece : M unit) : Prop :=
  forall s, isPolling (snd (piece s)) = isPolling s.

(** Either no call is in flight and the flag is down, or exactly one is and
    the flag is up. *)
Definition sched_inv (c : Sched) : Prop :=
  (isPolling (st c) = false /\ inflight c = [])
  \/ (isPolling (st c) = true
      /\ exists rest, inflight c = [rest] /\ Forall keeps_flag rest).

(* ================================================================== *)
(** ** Predicates used in the statements *)
(* ================================================================== *)

(** The ledger as a well-formed [Set] within the cap. *)
Definition ledger_ok (l : JSSet) : Prop :=
  NoDup l /\ List.length l <= MAX_STORED_HASHES.

(** A snapshot file as [saveSentMessages] writes it: at most
    [MAX_STORED_HASHES] entries. *)
Definition file_within_cap (f : FileContent) : Prop :=
  match f with
  | FileJson hashes => List.length hashes <= MAX_STORED_HASHES
  | _ => True
  end.

(** [rest] begins with [<int> + <int>]: the digits [d1], optional white
    space, a plus sign, optional white space, the digits [d2]; [post] is
    what follows. *)
Definition pattern_at (rest d1 d2 post : jsstring) : Prop :=
  exists w1 w2,
    rest = d1 ++ w1 ++ [plus_sign] ++ w2 ++ d2 ++ post
    /\ d1 <> [] /\ d2 <> []
    /\ forallb is_digit d1 = true /\ forallb is_digit d2 = true
    /\ forallb is_space w1 = true /\ forallb is_space w2 = true.

(** [rest] is empty or begins with a character outside [p]. *)
Definition stops (p : jschar -> bool) (rest : jsstring) : Prop :=
  match rest with
  | [] => True
  | c :: _ => p c = false
  end.

(** The text contains [<int> + <int>] somewhere. *)
Definition matches_pattern (text : jsstring) : Prop :=
  exists pre rest d1 d2 post,
    text = pre ++ rest /\ pattern_at rest d1 d2 post.

(** [d1] and [d2] are the operands of the leftmost occurrence of the pattern
    in [text], the second operand running as far as the digits go. *)
Definition leftmost_operands (text d1 d2 : jsstring) : Prop :=
  exists pre rest post,
    text = pre ++ rest
    /\ pattern_at rest d1 d2 post
    /\ stops is_digit post
    /\ (forall pre' rest' e1 e2 post',
          text = pre' ++ rest' -> List.length pre' < List.length pre ->
          ~ pattern_at rest' e1 e2 post').

(** The [EvSendMessage] calls of a trace, in order. *)
Definition sends_of (tr : Trace) : list (string * string) :=
  flat_map (fun ev => match ev with
                      | EvSendMessage chatId text => [(chatId, text)]
                      | _ => []
                      end) tr.

(** The [EvWriteFile] calls of a trace, in order. *)
Definition writes_of (tr : Trace) : list (list string) :=
  flat_map (fun ev => match ev with
                      | EvWriteFile hashes => [hashes]
                      | _ => []
                      end) tr.

(** Calls to the browser or to the operating system on its behalf. *)
Definition is_browser_event (ev : Event) : bool :=
  match ev with
  | EvWhichChromium | EvExecutablePath | EvLaunch _ | EvNewPage | EvGoto _
  | EvEvaluate _ | EvType _ _ | EvWaitForNavigation | EvPressEnter
  | EvReadUrl | EvOnResponse | EvAwaitResponse | EvClose => true
  | _ => false
  end.

(** Browser calls and the pauses between them: what the session functions
    do outside the process. *)
Definition is_session_event (ev : Event) : bool :=
  is_browser_event ev || match ev with EvSleep _ => true | _ => false end.

Definition is_send_event (ev : Event) : bool :=
  match ev with EvSendMessage _ _ => true | _ => false end.

(** [m] never throws. *)
Definition nothrow {A} (m : M A) : Prop :=
  forall s, exists a, fst (m s) = Ok a.

(** Every run of [m] takes a state to one related to it by [R]. *)
Definition stable {A} (R : State -> State -> Prop) (m : M A) : Prop :=
  forall s, R s (snd (m s)).

(** The trace grows, by calls of the kind [P]. *)
Definition trace_grows (P : Event -> bool) (s s' : State) : Prop :=
  exists new, trace s' = trace s ++ new /\ forallb P new = true.

(** Nothing but the trace changes. *)
Definition only_trace (P : Event -> bool) (s s' : State) : Prop :=
  s' = set_trace (trace s') s /\ trace_grows P s s'.

(** The ledger, the flag, the poll counter and the snapshot file stay. *)
Definition keeps_ledger (P : Event -> bool) (s s' : State) : Prop :=
  sentMessageHashes s' = sentMessageHashes s
  /\ isPolling s' = isPolling s
  /\ pollCount s' = pollCount s
  /\ disk s' = disk s
  /\ trace_grows P s s'.


(** What [initializeBrowser] does outside the process: browser calls and
    pauses, and never a [close]. *)
Definition is_init_event (ev : Event) : bool :=
  is_session_event ev && match ev with EvClose => false | _ => true end.

(** [Q] holds of the result and the final state of [m] run from [s]. *)
Definition wp {A} (m : M A) (Q : Res A -> State -> Prop) (s : State) : Prop :=
  Q (fst (m s)) (snd (m s)).

(** The two assignments to [sentMessageHashes] in the loop of [pollSMSAPI],
    taken together: [add], then the cut when the size exceeds the cap. *)
Definition ledger_insert (l : JSSet) (h : string) : JSSet :=
  let l1 := set_add l h in
  if (MAX_STORED_HASHES <? List.length l1)%nat
  then new_Set (slice_last TRIMMED_HASHES (Array_from l1))
  else l1.

(** A decidable test for [NoDup] on strings. *)
Fixpoint nodupb (l : list string) : bool :=
  match l with
  | [] => true
  | x :: l' => negb (existsb (String.eqb x) l') && nodupb l'
  end.

(** The text [sendOTPToTelegram] builds for [sms] when the trace is [tr];
    [None] when building it throws. *)
Definition otp_text (env : Env) (sms : Sms) (tr : Trace) : option string :=
  match formatted_text sms (Date_toLocaleString env tr) with
  | Ok text => Some text
  | Throw _ => None
  end.

(** Whether [sendOTPToTelegram] gets as far as its loop over the channels:
    the message body is a string or falsy, and source and destination can
    be put into the template literal. *)
Definition sendable (sms : Sms) : bool :=
  match or_default (short_message sms) "No content" with
  | CellString _ => true
  | _ => false
  end
  && match cell_text (or_default (source_addr sms) "Unknown"),
           cell_text (or_default (destination_addr sms) "Unknown") with
     | Some _, Some _ => true
     | _, _ => false
     end.

(** One [sendMessage] call per configured channel, in the order of the
    configuration, all with the same text; none when there is no text. *)
Definition dispatch_events (config : Config) (env : Env) (sms : Sms)
  (tr : Trace) : Trace :=
  match otp_text env sms tr with
  | Some text =>
      map (fun chatId => EvSendMessage chatId text) (TELEGRAM_CHAT_IDS config)
  | None => []
  end.

(** The records of a batch whose fingerprint is neither in [ledger] nor on
    an earlier record of the batch, in the order of the batch. *)
Fixpoint first_appearances (messages : list Sms) (ledger : JSSet) : list Sms :=
  match messages with
  | [] => []
  | sms :: rest =>
      if set_has ledger (hash sms) then first_appearances rest ledger
      else sms :: first_appearances rest (set_add ledger (hash sms))
  end.

(** [h] is among the last [k] entries of the ledger. *)
Definition recent (k : nat) (h : string) (l : JSSet) : Prop :=
  In h (slice_last k l).

(** Neither a Telegram call nor a write of the snapshot. *)
Definition is_quiet_event (ev : Event) : bool :=
  match ev with
  | EvSendMessage _ _ | EvWriteFile _ => false
  | _ => true
  end.

(* ================================================================== *)
(** ** Concrete surroundings for the examples *)
(* ================================================================== *)

Definition code_units (s : string) : jsstring :=
  map N_of_ascii (list_ascii_of_string s).

Definition example_config : Config :=
  {| LOGIN_URL := "https://panel.example/login";
     SMS_REPORTS_URL := "https://panel.example/agent/SMSCDRReports";
     API_USERNAME := "agent";
     API_PASSWORD := "secret";
     TELEGRAM_CHAT_IDS := config_js_chat_ids |}.

(** A panel whose login page shows no challenge, behind a browser that
    starts but does not answer the probe; nothing else fails. *)
Definition env_down : Env :=
  {| execSync_which_chromium := fun _ => Ok "/usr/bin/chromium";
     puppeteer_executablePath := fun _ => Ok "/cache/chrome";
     puppeteer_launch := fun tr => Ok (List.length tr);
     browser_newPage := fun tr => Ok (List.length tr);
     browser_close := fun _ => Ok tt;
     page_goto := fun _ => Ok tt;
     page_evaluate_probe := fun _ => Throw "Target closed";
     page_evaluate_captcha := fun _ => Ok [];
     page_evaluate_reload := fun _ => Ok tt;
     page_type := fun _ => Ok tt;
     keyboard_press := fun _ => Ok tt;
     page_url := fun _ => "https://panel.example/login";
     page_response := fun _ => None;
     bot_sendMessage := fun _ => Ok tt;
     fs_writeFileSync := fun _ => Ok tt;
     Date_now := fun tr => N.of_nat (List.length tr);
     Date_toLocaleString := fun _ => "1/1/2025, 12:00:00 AM" |}.

Definition example_rows : list Row :=
  [ mkRow "2025-01-01 10:00:00" "15550001" "Bank" "c1" "Your code is 1111";
    mkRow "2025-01-01 10:00:05" "15550002" "Shop" "c1" "Your code is 2222";
    mkRow "2025-01-01 10:00:00" "15550001" "Bank" "c2" "Your code is 1111" ].

(** A panel that asks [7 + 5], lets the agent in and answers every refresh
    with [example_rows]; Telegram refuses the second channel of config.js. *)
Definition env_up : Env :=
  {| execSync_which_chromium := fun _ => Ok "/usr/bin/chromium";
     puppeteer_executablePath := fun _ => Ok "/cache/chrome";
     puppeteer_launch := fun tr => Ok (List.length tr);
     browser_newPage := fun tr => Ok (List.length tr);
     browser_close := fun _ => Ok tt;
     page_goto := fun _ => Ok tt;
     page_evaluate_probe := fun _ => Ok tt;
     page_evaluate_captcha :=
       fun _ => Ok [code_units "Login"; code_units "  What is 7 + 5 ? "];
     page_evaluate_reload := fun _ => Ok tt;
     page_type := fun _ => Ok tt;
     keyboard_press := fun _ => Ok tt;
     page_url := fun _ => "https://panel.example/agent/dashboard";
     page_response := fun _ => Some (Table (map Some example_rows));
     bot_sendMessage :=
       fun tr =>
         match last tr EvClose with
         | EvSendMessage "-1003151782333" _ => Throw "ETELEGRAM: 403 Forbidden"
         | _ => Ok tt
         end;
     fs_writeFileSync := fun _ => Ok tt;
     Date_now := fun tr => N.of_nat (List.length tr);
     Date_toLocaleString := fun _ => "1/1/2025, 12:00:00 AM" |}.

(** A stand-in for MD5 in the examples: the text itself. *)
Definition example_digest (data : string) : string := data.

(** A ledger filled to the cap: the decimal numerals of 0 .. 999. *)
Definition full_ledger : JSSet :=
  map (fun n => decimal (N.of_nat n)) (seq 0 MAX_STORED_HASHES).

Definition sms_with_hash (h : string) : Sms :=
  mkSms h "2025-01-01 10:00:00" "15550001" "Bank" "c1" "Your code is 1111".

(** A ledger at half the cap: the decimal numerals of 1000 .. 1499. *)
Definition half_ledger : JSSet :=
  map (fun n => decimal (N.of_nat n)) (seq 1000 TRIMMED_HASHES).

Definition half_state : State :=
  set_sentMessageHashes half_ledger (initial_state FileAbsent 0).

(** [TRIMMED_HASHES] records with the fingerprints 0 .. 499. *)
Definition fresh_records : list Sms :=
  map (fun n => sms_with_hash (decimal (N.of_nat n))) (seq 0 TRIMMED_HASHES).

(** A record of its own, to stand at both ends of a batch. *)
Definition repeated_record : Sms :=
  mkSms "d41d8cd9" "2025-01-01 10:00:05" "15550002" "Shop" "c2"
        "Your code is 2222".

(** Two rows that differ in column 5 only: [null] in one, the empty string
    in the other. *)
Definition row_with_null : Row :=
  mkRow "2025-01-01 10:00:00" "15550001" "Bank" "c1" CellNull.

Definition row_with_empty : Row :=
  mkRow "2025-01-01 10:00:00" "15550001" "Bank" "c1" "".

(** A state whose ledger is filled to the cap. *)
Definition full_state : State :=
  set_sentMessageHashes full_ledger (initial_state FileAbsent 0).

(** The session is up: a browser and a page, no failed attempt counted. *)
Definition active_state : State :=
  set_page (Some 2) (set_browser (Some 1) (initial_state FileAbsent 0)).

(** [n] calls of [ensureBrowserActive] in a row; the results, oldest first,
    and the state after the last. *)
Fixpoint ensure_times (config : Config) (env : Env) (n : nat) (s : State)
  : list (Res bool) * State :=
  match n with
  | 0 => ([], s)
  | S n' =>
      let (r, s1) := ensureBrowserActive config env s in
      let (rs, s2) := ensure_times config env n' s1 in
      (r :: rs, s2)
  end.

(** The state after five reconnection attempts that failed and a sixth call
    that stopped at the guard. *)
Definition degraded_state : State :=
  snd (ensureBrowserActive example_config env_down
         (snd (ensure_times example_config env_down 5 active_state))).

(** The calls recorded after the first [k]. *)
Definition events_after (k : nat) (s : State) : Trace := skipn k (trace s).


(* ================================================================== *)
(** ** More of bot.js *)
(* ================================================================== *)

(** One element of the array [sendToAllChannels] returns. *)
Record SendResult := mkSendResult {
  result_chatId : string;
  result_success : bool;
  result_error : option string
}.

Section Notifications.

Variable config : Config.
Variable env : Env.

(** The loop of [sendToAllChannels]; [results] is the array so far.  The
    options argument is [{ parse_mode: 'Markdown' }] at every call site and
    is not recorded. *)
Fixpoint sendToAllChannels_from (chats : list string) (message : string)
  (results : list SendResult) : M (list SendResult) :=
  match chats with
  | [] => ret results
  | chatId :: rest =>
      results' <-
        try_catch
          (extern (EvSendMessage chatId message) (bot_sendMessage env) ;;
           ret (results ++ [mkSendResult chatId true None]))
          (fun err => ret (results ++ [mkSendResult chatId false (Some err)])) ;;
      sendToAllChannels_from rest message results'
  end.

Definition sendToAllChannels (message : string) : M (list SendResult) :=
  sendToAllChannels_from (TELEGRAM_CHAT_IDS config) message [].

End Notifications.

(** The [sendMessage] calls of one [sendToAllChannels] to [chats]. *)
Definition channel_calls (message : string) (chats : list string) : Trace :=
  map (fun chatId => EvSendMessage chatId message) chats.

Section Startup.

Variable config : Config.
Variable env : Env.
Variable md5_hex : string -> string.

(** [server.listen(PORT, '0.0.0.0', ...)] and
    [new TelegramBot(token, { polling: true })]: neither is part of [Env].
    [listen] throws at once for a port out of range; what goes wrong later
    comes as an event. *)
Variable server_listen : Trace -> Res unit.
Variable new_TelegramBot : Trace -> Res unit.

(** [startBot], up to the two [setInterval] at its end.  Registering the
    command and error listeners ([bot.onText], [bot.on]) calls nothing
    outside and cannot throw; [server.listen] and [new TelegramBot] leave no
    call in the trace.  [connectionMessage] is the text built from the
    template literal. *)
Definition startBot (connectionMessage : string) : M unit :=
  loadSentMessages ;;
  (fun s => (server_listen (trace s), s)) ;;
  (fun s => (new_TelegramBot (trace s), s)) ;;
  browserInitialized <- initializeBrowser config env ;;
  (if browserInitialized
   then sendToAllChannels config env connectionMessage ;; ret tt
   else ret tt) ;;
  pollSMSAPI config env md5_hex.

End Startup.

Section Shutdown.

Variable config : Config.
Variable env : Env.

(** [bot.stopPolling], and whether [startBot] has set [bot]: neither is part
    of [Env] or [State]. *)
Variable bot_stopPolling : Trace -> Res unit.
Variable bot_set : bool.

(** [shutdown].  The result is the argument of [process.exit]; a throw is
    the rejection of the promise [shutdown] returns, with [process.exit] not
    called.  [bot.stopPolling] and [server.close] leave no call in the
    trace. *)
Definition shutdown (shutdownMessage : string) : M nat :=
  saveSentMessages env ;;
  (if bot_set then
     try_catch (sendToAllChannels config env shutdownMessage ;; ret tt)
               (fun _ => ret tt) ;;
     (fun s => (bot_stopPolling (trace s), s))
   else ret tt) ;;
  s <- get ;;
  match browser s with
  | Some _ => extern EvClose (browser_close env)
  | None => ret tt
  end ;;
  ret 0.

End Shutdown.

(** The JSON object the status endpoint serialises.  [uptime] is the float
    [process.uptime()] returns and is carried as it comes. *)
Record HealthReport := mkHealthReport {
  report_status : string;
  report_uptime : string;
  report_messagesTracked : nat;
  report_browserActive : bool;
  report_activeChannels : nat;
  report_pollCount : nat;
  report_lastSuccessfulPoll : string;
  report_timeSinceLastPoll : string;
  report_timestamp : string
}.

Inductive HttpBody :=
| JsonBody (report : HealthReport)
| TextBody (text : string).

Record HttpResponse := mkHttpResponse {
  statusCode : nat;
  contentType : option string;
  body : HttpBody
}.

(** The staleness threshold written as [300000] in the request handler and
    in [performHealthCheck]. *)
Definition STALE_AFTER : Z := 300000%Z.

(** [`${Math.floor(ms / 1000)}s`] *)
Definition seconds_text (ms : Z) : string :=
  String.append (NilZero.string_of_int (Z.to_int (ms / 1000)%Z)) "s".

(** The callback of [http.createServer].  [now] and [now'] are the two
    readings of the clock, [uptime] is [process.uptime()] and [toISOString]
    is [Date.prototype.toISOString]. *)
Definition server_request (config : Config) (toISOString : N -> string)
  (url : string) (now now' : N) (uptime : string) (s : State) : HttpResponse :=
  if String.eqb url "/health" || String.eqb url "/" then
    let timeSinceLastPoll := (Z.of_N now - Z.of_N (lastSuccessfulPoll s))%Z in
    let isHealthy := (timeSinceLastPoll <? STALE_AFTER)%Z in
    mkHttpResponse
      (if isHealthy then 200 else 503)
      (Some "application/json")
      (JsonBody
         {| report_status := if isHealthy then "ok" else "degraded";
            report_uptime := uptime;
            report_messagesTracked := List.length (sentMessageHashes s);
            report_browserActive :=
              match browser s with Some _ => true | None => false end;
            report_activeChannels := List.length (TELEGRAM_CHAT_IDS config);
            report_pollCount := pollCount s;
            report_lastSuccessfulPoll := toISOString (lastSuccessfulPoll s);
            report_timeSinceLastPoll := seconds_text timeSinceLastPoll;
            report_timestamp := toISOString now' |})
  else
    mkHttpResponse 404 None (TextBody "Not Found").

(** [TELEGRAM_MAX_RETRY_ATTEMPTS] and [TELEGRAM_RETRY_DELAY] of bot.js. *)
Definition TELEGRAM_MAX_RETRY_ATTEMPTS : nat := 3.
Definition TELEGRAM_RETRY_DELAY : N := 30000%N.

(** The error object handed to the [polling_error] listener. *)
Record PollingError := mkPollingError {
  error_code : string;
  error_message : string
}.

(** What a call of the listener does next: end the process, wait, or
    return. *)
Inductive ListenerStep :=
| ProcessExit (code : nat)
| Waits (ms : N)
| Returns.

(** [error.code === 'ETELEGRAM' && error.message.includes('409')] *)
Definition is_conflict (error : PollingError) : bool :=
  String.eqb (error_code error) "ETELEGRAM" && includes "409" (error_message error).

(** The [polling_error] listener up to its [await]: the new value of
    [telegramRetryAttempts] and what happens next. *)
Definition polling_error_enter (error : PollingError)
  (telegramRetryAttempts : nat) : nat * ListenerStep :=
  if is_conflict error then
    let attempts := S telegramRetryAttempts in
    if (TELEGRAM_MAX_RETRY_ATTEMPTS <=? attempts)%nat
    then (attempts, ProcessExit 1)
    else (attempts, Waits TELEGRAM_RETRY_DELAY)
  else (telegramRetryAttempts, Returns).

(** The listener after its [await]: [telegramRetryAttempts = 0]. *)
Definition polling_error_wake (telegramRetryAttempts : nat) : nat := 0.

(** The process as the listener sees it: the counter, the calls of the
    listener that are waiting, and the exit code once [process.exit] ran. *)
Record Listener := mkListener {
  telegramRetryAttempts : nat;
  waiting : nat;
  exited : option nat
}.

Inductive ListenerEvent :=
| ErrorArrives (error : PollingError)   (* the bot emits polling_error *)
| WaitEnds.                             (* a waiting call resumes *)

Definition listener_step (ev : ListenerEvent) (l : Listener) : Listener :=
  match exited l with
  | Some _ => l
  | None =>
      match ev with
      | ErrorArrives error =>
          match polling_error_enter error (telegramRetryAttempts l) with
          | (n, ProcessExit code) => mkListener n (waiting l) (Some code)
          | (n, Waits _) => mkListener n (S (waiting l)) None
          | (n, Returns) => mkListener n (waiting l) None
          end
      | WaitEnds =>
          match waiting l with
          | 0 => l
          | S w => mkListener (polling_error_wake (telegramRetryAttempts l)) w None
          end
      end
  end.

Definition listener_run (evs : list ListenerEvent) (l : Listener) : Listener :=
  fold_left (fun l ev => listener_step ev l) evs l.

(** The listener at start: [let telegramRetryAttempts = 0]. *)
Definition listener_start : Listener := mkListener 0 0 None.

(** While the process runs, the counter is below the maximum and counts no
    more than the calls that are waiting. *)
Definition listener_inv (l : Listener) : Prop :=
  exited l = None ->
  telegramRetryAttempts l <= waiting l
  /\ telegramRetryAttempts l < TELEGRAM_MAX_RETRY_ATTEMPTS.

(** Every error is followed by the end of its wait before the next one
    arrives. *)
Definition one_at_a_time (errors : list PollingError) : list ListenerEvent :=
  flat_map (fun error => [ErrorArrives error; WaitEnds]) errors.

(* ================================================================== *)
(** ** config.js *)
(* ================================================================== *)

(** A variable of [process.env]: a string of code units, or [undefined]. *)
Definition EnvVar := option jsstring.

(** [String(v)] *)
Definition ToString (v : EnvVar) : jsstring :=
  match v with
  | Some s => s
  | None => map N_of_ascii (list_ascii_of_string "undefined")
  end.

(** [n || d] on numbers: [NaN] and zero are falsy. *)
Definition number_or (n d : Number) : Number :=
  if Number_truthy n then n else d.

(** [POLL_INTERVAL] and [MAX_PER_PAGE] of config.js, from the variables of
    the same names. *)
Definition POLL_INTERVAL (v : EnvVar) : Number :=
  number_or (parseInt (ToString v)) (Finite 10000).

Definition MAX_PER_PAGE (v : EnvVar) : Number :=
  number_or (parseInt (ToString v)) (Finite 100).

(** What ends a run [ds] of decimal digits that [parseInt] reads in radix
    10: no digit follows, and the run is not the [0] of the prefix [0x]. *)
Definition ends_number (ds rest : jsstring) : Prop :=
  match rest with
  | [] => True
  | c :: _ =>
      is_digit c = false
      /\ (ds = [zero_digit] -> c <> small_x /\ c <> capital_x)
  end.

(** What has no number in front: neither a digit nor a sign. *)
Definition starts_no_number (rest : jsstring) : Prop :=
  match rest with
  | [] => True
  | c :: _ =>
      is_space c = false /\ is_digit c = false
      /\ c <> plus_sign /\ c <> minus_sign
  end.

(** The code units of the decimal numeral of [n]. *)
Definition numeral (n : N) : jsstring :=
  map N_of_ascii (list_ascii_of_string (decimal n)).

(** The code units of the digits of [d], none for [Nil]. *)
Definition uint_units (d : Decimal.uint) : jsstring :=
  map N_of_ascii (list_ascii_of_string (NilEmpty.string_of_uint d)).

(* ================================================================== *)
(** ** The earlier bot.js: polling by last seen id *)
(* ================================================================== *)

(** The second program in bot.js asks the REST endpoint for the rows after
    [lastSmsId] and forwards them to one chat.  Its [pollSMSAPI] is modelled
    with the array [fetchLatestSMS] returned as an argument; [sent] lists the
    calls of [sendOTPToTelegram], which catches whatever goes wrong inside
    it. *)
Module Legacy.

(** One object of the array the endpoint returns; [id] is absent in a row
    that has none. *)
Record Sms := mkSms {
  id : option N;
  source_addr : string;
  destination_addr : string;
  short_message : string
}.

Record State := mkState {
  lastSmsId : N;
  isPolling : bool;
  sent : list Sms
}.

(** [let lastSmsId = 0; let isPolling = false] *)
Definition initial_state : State := mkState 0 false [].

(** [x || d] on an optional number: [undefined] and [0] are falsy. *)
Definition or_number (x : option N) (d : N) : N :=
  match x with
  | None | Some 0%N => d
  | Some n => n
  end.

(** The body of the [for] loop of [pollSMSAPI]. *)
Definition poll_message (s : State) (sms : Sms) : State :=
  if (lastSmsId s <? or_number (id sms) 0)%N then
    mkState (or_number (id sms) (lastSmsId s)) (isPolling s) (sent s ++ [sms])
  else s.

Definition poll_messages (messages : list Sms) (s : State) : State :=
  fold_left poll_message messages s.

Definition pollSMSAPI (fetched : list Sms) (s : State) : State :=
  if isPolling s then s
  else
    let s1 := mkState (lastSmsId s) true (sent s) in
    let s2 := poll_messages fetched s1 in
    mkState (lastSmsId s2) false (sent s2).

(** Ticks in a row, each with what its fetch returned. *)
Definition run (batches : list (list Sms)) (s : State) : State :=
  fold_left (fun s fetched => pollSMSAPI fetched s) batches s.

(** The ids of a list of rows, [0] standing for a missing one. *)
Definition ids (messages : list Sms) : list N :=
  map (fun sms => or_number (id sms) 0) messages.

(** [s] with another value of the flag. *)
Definition with_flag (b : bool) (s : State) : State :=
  mkState (lastSmsId s) b (sent s).

(** What [pollSMSAPI] keeps true of the rows it forwarded: their ids rise
    strictly and none is above the cursor. *)
Definition cursor_inv (s : State) : Prop :=
  StronglySorted N.lt (ids (sent s))
  /\ Forall (fun i => (i <= lastSmsId s)%N) (ids (sent s)).

End Legacy.

(* ================================================================== *)
(** ** More predicates and examples *)
(* ================================================================== *)

Definition is_launch_event (ev : Event) : bool :=
  match ev with EvLaunch _ => true | _ => false end.

Definition is_close_event (ev : Event) : bool :=
  match ev with EvClose => true | _ => false end.

Definition is_type_event (ev : Event) : bool :=
  match ev with EvType _ _ => true | _ => false end.

(** How many calls of a kind a trace holds. *)
Definition count_events (p : Event -> bool) (tr : Trace) : nat :=
  List.length (filter p tr).

(** The calls made between [s] and [s'] hold at most [k] launches and at
    most [c] closes. *)
Definition within (k c : nat) (s s' : State) : Prop :=
  exists new,
    trace s' = trace s ++ new
    /\ count_events is_launch_event new <= k
    /\ count_events is_close_event new <= c.

(** The flag and the poll counter stay, and a reconnect counter within its
    bound stays within it. *)
Definition keeps_counters (s s' : State) : Prop :=
  isPolling s' = isPolling s
  /\ pollCount s' = pollCount s
  /\ (reconnectAttempts s <= MAX_RECONNECT_ATTEMPTS ->
      reconnectAttempts s' <= MAX_RECONNECT_ATTEMPTS).

Definition is_poll_op (o : Op) : bool :=
  match o with OpPoll => true | _ => false end.




(** [env] with another login page. *)
Definition with_captcha (labels : list jsstring) (env : Env) : Env :=
  mkEnv (execSync_which_chromium env) (puppeteer_executablePath env)
        (puppeteer_launch env) (browser_newPage env) (browser_close env)
        (page_goto env) (page_evaluate_probe env) (fun _ => Ok labels)
        (page_evaluate_reload env) (page_type env) (keyboard_press env)
        (page_url env) (page_response env) (bot_sendMessage env)
        (fs_writeFileSync env) (Date_now env) (Date_toLocaleString env).

(** [env] with a browser that starts and then refuses to open a page. *)
Definition with_failing_newPage (env : Env) : Env :=
  mkEnv (execSync_which_chromium env) (puppeteer_executablePath env)
        (puppeteer_launch env) (fun _ => Throw "Target closed")
        (browser_close env)
        (page_goto env) (page_evaluate_probe env) (page_evaluate_captcha env)
        (page_evaluate_reload env) (page_type env) (keyboard_press env)
        (page_url env) (page_response env) (bot_sendMessage env)
        (fs_writeFileSync env) (Date_now env) (Date_toLocaleString env).

(** [env] with a browser that refuses to close. *)
Definition with_failing_close (env : Env) : Env :=
  mkEnv (execSync_which_chromium env) (puppeteer_executablePath env)
        (puppeteer_launch env) (browser_newPage env)
        (fun _ => Throw "Protocol error: Connection closed")
        (page_goto env) (page_evaluate_probe env) (page_evaluate_captcha env)
        (page_evaluate_reload env) (page_type env) (keyboard_press env)
        (page_url env) (page_response env) (bot_sendMessage env)
        (fs_writeFileSync env) (Date_now env) (Date_toLocaleString env).

(** [env] with a panel that answers every refresh with [rows]. *)
Definition with_rows (rows : list (option Row)) (env : Env) : Env :=
  mkEnv (execSync_which_chromium env) (puppeteer_executablePath env)
        (puppeteer_launch env) (browser_newPage env) (browser_close env)
        (page_goto env) (page_evaluate_probe env) (page_evaluate_captcha env)
        (page_evaluate_reload env) (page_type env) (keyboard_press env)
        (page_url env) (fun _ => Some (Table rows)) (bot_sendMessage env)
        (fs_writeFileSync env) (Date_now env) (Date_toLocaleString env).

(** [env] with a panel whose every refresh ends the wait with [response]. *)
Definition with_response (response : option ResponseData) (env : Env) : Env :=
  mkEnv (execSync_which_chromium env) (puppeteer_executablePath env)
        (puppeteer_launch env) (browser_newPage env) (browser_close env)
        (page_goto env) (page_evaluate_probe env) (page_evaluate_captcha env)
        (page_evaluate_reload env) (page_type env) (keyboard_press env)
        (page_url env) (fun _ => response) (bot_sendMessage env)
        (fs_writeFileSync env) (Date_now env) (Date_toLocaleString env).

(** A row whose message body is a JSON number. *)
Definition row_with_number : Row :=
  mkRow "2025-01-01 10:00:00" "15550001" "Bank" "c1"
        (CellOther true (Some "482913")).

(** [env] with another clock. *)
Definition with_clock (clock : Trace -> N) (env : Env) : Env :=
  mkEnv (execSync_which_chromium env) (puppeteer_executablePath env)
        (puppeteer_launch env) (browser_newPage env) (browser_close env)
        (page_goto env) (page_evaluate_probe env) (page_evaluate_captcha env)
        (page_evaluate_reload env) (page_type env) (keyboard_press env)
        (page_url env) (page_response env) (bot_sendMessage env)
        (fs_writeFileSync env) clock (Date_toLocaleString env).

(** [env] with a file system that refuses every write. *)
Definition with_failing_write (env : Env) : Env :=
  mkEnv (execSync_which_chromium env) (puppeteer_executablePath env)
        (puppeteer_launch env) (browser_newPage env) (browser_close env)
        (page_goto env) (page_evaluate_probe env) (page_evaluate_captcha env)
        (page_evaluate_reload env) (page_type env) (keyboard_press env)
        (page_url env) (page_response env) (bot_sendMessage env)
        (fun _ => Throw "ENOSPC: no space left on device")
        (Date_now env) (Date_toLocaleString env).

(** A ledger larger than the cap, as a hand-made snapshot file would give:
    the decimal numerals of 0 .. 1199. *)
Definition oversize_ledger : JSSet :=
  map (fun n => decimal (N.of_nat n)) (seq 0 1200).

(* ================================================================== *)
(** * Properties *)
(* ================================================================== *)

(** ** Sets and slices *)

Module SetFacts.

Lemma set_has_true (s : JSSet) (x : string) : set_has s x = true <-> In x s.
Proof.
  unfold set_has. rewrite existsb_exists. split.
  - intros [y [Hy He]]. apply String.eqb_eq in He. now subst.
  - intros H. exists x. split; [assumption | apply String.eqb_refl].
Qed.

Lemma set_has_false (s : JSSet) (x : string) : set_has s x = false <-> ~ In x s.
Proof.
  rewrite <- set_has_true. destruct (set_has s x); split; congruence.
Qed.

Lemma set_add_old (s : JSSet) (x : string) : In x s -> set_add s x = s.
Proof. intros H. unfold set_add. apply set_has_true in H. now rewrite H. Qed.

Lemma set_add_new (s : JSSet) (x : string) : ~ In x s -> set_add s x = s ++ [x].
Proof. intros H. unfold set_add. apply set_has_false in H. now rewrite H. Qed.

Lemma set_add_In (s : JSSet) (x : string) : In x (set_add s x).
Proof.
  unfold set_add. destruct (set_has s x) eqn:E.
  - now apply set_has_true.
  - apply in_or_app. right. now left.
Qed.

Lemma set_add_NoDup (s : JSSet) (x : string) : NoDup s -> NoDup (set_add s x).
Proof.
  intros H. unfold set_add. destruct (set_has s x) eqn:E; [assumption|].
  apply set_has_false in E.
  apply NoDup_app; [assumption | repeat constructor; auto | ].
  intros a Ha [Hx | []]. subst. contradiction.
Qed.

Lemma set_add_length (s : JSSet) (x : string) :
  List.length (set_add s x) <= S (List.length s).
Proof.
  unfold set_add. destruct (set_has s x); [lia|].
  rewrite length_app. simpl. lia.
Qed.

Lemma fold_set_add_NoDup (a : list string) :
  forall acc, NoDup acc -> NoDup (fold_left set_add a acc).
Proof.
  induction a as [|x a IH]; intros acc H; simpl; [assumption|].
  apply IH. now apply set_add_NoDup.
Qed.

Lemma fold_set_add_length (a : list string) :
  forall acc, List.length (fold_left set_add a acc) <= List.length acc + List.length a.
Proof.
  induction a as [|x a IH]; intros acc; simpl; [lia|].
  specialize (IH (set_add acc x)). pose proof (set_add_length acc x). lia.
Qed.

Lemma fold_set_add_fresh (a : list string) :
  forall acc, NoDup (acc ++ a) -> fold_left set_add a acc = acc ++ a.
Proof.
  induction a as [|x a IH]; intros acc H; simpl.
  - now rewrite app_nil_r.
  - assert (Hx : ~ In x acc).
    { apply NoDup_remove_2 in H. intros Hin. apply H. apply in_or_app. now left. }
    rewrite (set_add_new _ _ Hx).
    replace (acc ++ x :: a) with ((acc ++ [x]) ++ a) in *
      by (now rewrite <- app_assoc).
    now apply IH.
Qed.

(** [new Set] of any array is a well-formed set. *)
Lemma new_Set_NoDup (a : list string) : NoDup (new_Set a).
Proof. apply fold_set_add_NoDup. constructor. Qed.

Lemma new_Set_length (a : list string) : List.length (new_Set a) <= List.length a.
Proof. apply (fold_set_add_length a []). Qed.

(** [new Set] of an array without repeats holds the array, in order. *)
Lemma new_Set_fresh (a : list string) : NoDup a -> new_Set a = a.
Proof. intros H. apply (fold_set_add_fresh a []). exact H. Qed.

Lemma slice_last_split {A} (n : nat) (a : list A) :
  firstn (List.length a - n) a ++ slice_last n a = a.
Proof. apply firstn_skipn. Qed.

Lemma slice_last_length {A} (n : nat) (a : list A) :
  List.length (slice_last n a) = Nat.min n (List.length a).
Proof. unfold slice_last. rewrite length_skipn. lia. Qed.

Lemma slice_last_all {A} (n : nat) (a : list A) :
  List.length a <= n -> slice_last n a = a.
Proof.
  intros H. unfold slice_last.
  replace (List.length a - n) with 0 by lia. reflexivity.
Qed.

Lemma NoDup_skipn {A} (k : nat) (a : list A) : NoDup a -> NoDup (skipn k a).
Proof.
  intros H. rewrite <- (firstn_skipn k a) in H.
  now apply NoDup_app_remove_l in H.
Qed.

Lemma slice_last_NoDup {A} (n : nat) (a : list A) :
  NoDup a -> NoDup (slice_last n a).
Proof. apply NoDup_skipn. Qed.

End SetFacts.

(** ** Reasoning about computations *)

Module MonadFacts.

Section Stable.
Context (R : State -> State -> Prop).
Hypothesis R_refl : forall s, R s s.
Hypothesis R_trans : forall s1 s2 s3, R s1 s2 -> R s2 s3 -> R s1 s3.

Lemma stable_ret {A} (a : A) : stable R (ret a).
Proof. intros s. apply R_refl. Qed.

Lemma stable_get : stable R get.
Proof. intros s. apply R_refl. Qed.

Lemma stable_throw {A} (e : string) : stable R (@throw A e).
Proof. intros s. apply R_refl. Qed.

Lemma stable_bind {A B} (m : M A) (k : A -> M B) :
  stable R m -> (forall a, stable R (k a)) -> stable R (bind m k).
Proof.
  intros Hm Hk s. unfold bind. specialize (Hm s).
  destruct (m s) as [[a|e] s1]; simpl in *; [|assumption].
  eapply R_trans; [eassumption | apply Hk].
Qed.

Lemma stable_try_catch {A} (m : M A) (h : string -> M A) :
  stable R m -> (forall e, stable R (h e)) -> stable R (try_catch m h).
Proof.
  intros Hm Hh s. unfold try_catch. specialize (Hm s).
  destruct (m s) as [[a|e] s1]; simpl in *; [assumption|].
  eapply R_trans; [eassumption | apply Hh].
Qed.

Lemma stable_on_page {A} (m : M A) : stable R m -> stable R (on_page m).
Proof.
  intros Hm. unfold on_page. apply stable_bind; [apply stable_get|].
  intros s. destruct (page s); [assumption | apply stable_throw].
Qed.

Lemma stable_for_of {A} (xs : list A) (body : A -> M unit) :
  (forall x, stable R (body x)) -> stable R (for_of xs body).
Proof.
  intros Hb. induction xs as [|x xs IH]; simpl.
  - apply stable_ret.
  - apply stable_bind; [apply Hb | intros _; exact IH].
Qed.

End Stable.

Lemma nothrow_ret {A} (a : A) : nothrow (ret a).
Proof. intros s. now exists a. Qed.




Lemma nothrow_bind {A B} (m : M A) (k : A -> M B) :
  nothrow m -> (forall a, nothrow (k a)) -> nothrow (bind m k).
Proof.
  intros Hm Hk s. unfold bind. destruct (Hm s) as [a Ha].
  destruct (m s) as [[a'|e] s1]; simpl in Ha; [|discriminate].
  apply Hk.
Qed.

Lemma nothrow_try_catch {A} (m : M A) (h : string -> M A) :
  (forall e, nothrow (h e)) -> nothrow (try_catch m h).
Proof.
  intros Hh s. unfold try_catch.
  destruct (m s) as [[a|e] s1]; [now exists a | apply Hh].
Qed.

Lemma nothrow_for_of {A} (xs : list A) (body : A -> M unit) :
  (forall x, nothrow (body x)) -> nothrow (for_of xs body).
Proof.
  intros Hb. induction xs as [|x xs IH]; simpl.
  - apply nothrow_ret.
  - apply nothrow_bind; [apply Hb | intros _; exact IH].
Qed.

(** The relations of the frame statements are preorders. *)

Lemma trace_grows_refl P s : trace_grows P s s.
Proof. exists []. now rewrite app_nil_r. Qed.

Lemma trace_grows_trans P s1 s2 s3 :
  trace_grows P s1 s2 -> trace_grows P s2 s3 -> trace_grows P s1 s3.
Proof.
  intros [n1 [E1 F1]] [n2 [E2 F2]]. exists (n1 ++ n2). split.
  - now rewrite E2, E1, app_assoc.
  - now rewrite forallb_app, F1, F2.
Qed.

Lemma trace_grows_weaken (P Q : Event -> bool) s s' :
  (forall ev, P ev = true -> Q ev = true) ->
  trace_grows P s s' -> trace_grows Q s s'.
Proof.
  intros HPQ [new [E F]]. exists new. split; [assumption|].
  rewrite forallb_forall in *. auto.
Qed.

Lemma only_trace_refl P s : only_trace P s s.
Proof. split; [now destruct s | apply trace_grows_refl]. Qed.

Lemma only_trace_trans P s1 s2 s3 :
  only_trace P s1 s2 -> only_trace P s2 s3 -> only_trace P s1 s3.
Proof.
  intros [E1 G1] [E2 G2]. split.
  - rewrite E2, E1. reflexivity.
  - eapply trace_grows_trans; eassumption.
Qed.

Lemma keeps_ledger_refl P s : keeps_ledger P s s.
Proof. repeat split. apply trace_grows_refl. Qed.

Lemma keeps_ledger_trans P s1 s2 s3 :
  keeps_ledger P s1 s2 -> keeps_ledger P s2 s3 -> keeps_ledger P s1 s3.
Proof.
  intros (A1 & B1 & C1 & D1 & G1) (A2 & B2 & C2 & D2 & G2).
  repeat split; try congruence. eapply trace_grows_trans; eassumption.
Qed.

Lemma only_trace_keeps_ledger P s s' : only_trace P s s' -> keeps_ledger P s s'.
Proof. intros [E G]. rewrite E. repeat split. now rewrite <- E. Qed.

Lemma only_trace_extern {A} P (ev : Event) (o : Trace -> Res A) :
  P ev = true -> stable (only_trace P) (extern ev o).
Proof.
  intros HP s. split; [reflexivity|].
  exists [ev]. split; [reflexivity|]. simpl. now rewrite HP.
Qed.

Lemma keeps_ledger_extern {A} P (ev : Event) (o : Trace -> Res A) :
  P ev = true -> stable (keeps_ledger P) (extern ev o).
Proof. intros HP s. apply only_trace_keeps_ledger. now apply only_trace_extern. Qed.

End MonadFacts.

(** ** What the session functions leave alone *)

Module Frame.
Import MonadFacts.

Lemma keeps_ledger_modify P (f : State -> State) :
  (forall s, keeps_ledger P s (f s)) -> stable (keeps_ledger P) (modify f).
Proof. intros H s. apply H. Qed.

Ltac keeps_field :=
  intros ?; repeat split; apply trace_grows_refl.

Ltac ledger_frame :=
  repeat first
    [ apply (stable_bind _ (keeps_ledger_trans _)); [|intro]
    | apply (stable_try_catch _ (keeps_ledger_trans _)); [|intro]
    | apply (stable_ret _ (keeps_ledger_refl _))
    | apply (stable_get _ (keeps_ledger_refl _))
    | apply (stable_throw _ (keeps_ledger_refl _))
    | apply (stable_on_page _ (keeps_ledger_refl _) (keeps_ledger_trans _))
    | apply keeps_ledger_extern; reflexivity
    | apply keeps_ledger_modify; keeps_field
    | match goal with
      | |- stable _ (match ?x with _ => _ end) => destruct x
      end ].

Section Session.
Variable config : Config.
Variable env : Env.

Lemma initializeBrowser_nothrow : nothrow (initializeBrowser config env).
Proof. apply nothrow_try_catch. intros e. apply nothrow_ret. Qed.

Lemma initializeBrowser_frame :
  stable (keeps_ledger is_session_event) (initializeBrowser config env).
Proof.
  unfold initializeBrowser, find_chromePath, solveMathCaptcha, sleep, extern_val.
  ledger_frame.
Qed.

Lemma close_browser_frame :
  stable (keeps_ledger is_session_event) (close_browser env).
Proof. unfold close_browser. ledger_frame. Qed.



Lemma ensureBrowserActive_frame :
  stable (keeps_ledger is_session_event) (ensureBrowserActive config env).
Proof.
  unfold ensureBrowserActive, sleep, extern_val.
  ledger_frame;
    first [ apply initializeBrowser_frame | apply close_browser_frame ].
Qed.

Lemma performHealthCheck_frame :
  stable (keeps_ledger is_session_event) (performHealthCheck config env).
Proof.
  unfold performHealthCheck. cbv zeta.
  ledger_frame;
    first [ apply ensureBrowserActive_frame | apply close_browser_frame ].
Qed.

End Session.

End Frame.

(** ** Running a computation step by step *)

Module WP.

Lemma wp_ret {A} (a : A) Q s : Q (Ok a) s -> wp (ret a) Q s.
Proof. exact (fun H => H). Qed.

Lemma wp_throw {A} e (Q : Res A -> State -> Prop) s :
  Q (Throw e) s -> wp (throw e) Q s.
Proof. exact (fun H => H). Qed.

Lemma wp_get Q s : Q (Ok s) s -> wp get Q s.
Proof. exact (fun H => H). Qed.

Lemma wp_modify f Q s : Q (Ok tt) (f s) -> wp (modify f) Q s.
Proof. exact (fun H => H). Qed.

Lemma wp_bind {A B} (m : M A) (k : A -> M B) Q s :
  wp m (fun r s1 => match r with
                    | Ok a => wp (k a) Q s1
                    | Throw e => Q (Throw e) s1
                    end) s ->
  wp (bind m k) Q s.
Proof. unfold wp, bind. destruct (m s) as [[a|e] s1]; simpl; auto. Qed.

Lemma wp_try_catch {A} (m : M A) h Q s :
  wp m (fun r s1 => match r with
                    | Ok a => Q (Ok a) s1
                    | Throw e => wp (h e) Q s1
                    end) s ->
  wp (try_catch m h) Q s.
Proof. unfold wp, try_catch. destruct (m s) as [[a|e] s1]; simpl; auto. Qed.

Lemma wp_try_finally {A} (m : M A) f Q s :
  wp m (fun r s1 => Q r (f s1)) s -> wp (try_finally m f) Q s.
Proof. unfold wp, try_finally. destruct (m s) as [r s1]; simpl; auto. Qed.

Lemma wp_extern {A} ev (o : Trace -> Res A) Q s :
  (forall r, o (trace s ++ [ev]) = r -> Q r (set_trace (trace s ++ [ev]) s)) ->
  wp (extern ev o) Q s.
Proof. intros H. apply H. reflexivity. Qed.

Lemma wp_conseq {A} (m : M A) (Q Q' : Res A -> State -> Prop) s :
  wp m Q' s -> (forall r s', Q' r s' -> Q r s') -> wp m Q s.
Proof. unfold wp. auto. Qed.




Lemma wp_run {A} (m : M A) Q s r s' : wp m Q s -> m s = (r, s') -> Q r s'.
Proof. unfold wp. intros H E. now rewrite E in H. Qed.

Ltac norm_state :=
  cbn [sentMessageHashes isPolling browser page reconnectAttempts
       lastSuccessfulPoll pollCount disk trace
       set_sentMessageHashes set_isPolling set_browser set_page
       set_reconnectAttempts set_lastSuccessfulPoll set_pollCount set_disk
       set_trace].

Ltac norm_state_in H :=
  cbn [sentMessageHashes isPolling browser page reconnectAttempts
       lastSuccessfulPoll pollCount disk trace
       set_sentMessageHashes set_isPolling set_browser set_page
       set_reconnectAttempts set_lastSuccessfulPoll set_pollCount set_disk
       set_trace] in H.

Ltac wp_step :=
  lazymatch goal with
  | |- wp (bind _ _) _ _ => apply wp_bind
  | |- wp (try_catch _ _) _ _ => apply wp_try_catch
  | |- wp (try_finally _ _) _ _ => apply wp_try_finally
  | |- wp (ret _) _ _ => apply wp_ret
  | |- wp (throw _) _ _ => apply wp_throw
  | |- wp get _ _ => apply wp_get
  | |- wp (modify _) _ _ => apply wp_modify
  | |- wp (extern _ _) _ _ => apply wp_extern; intros [?|?] ?
  | |- wp (extern_val _ _) _ _ => unfold extern_val
  | |- wp (sleep _) _ _ => unfold sleep
  | |- wp (on_page _) _ _ => unfold on_page
  | |- wp (match ?x with _ => _ end) _ _ => destruct x eqn:?
  end; cbv beta iota; norm_state.

End WP.

(** ** The session: [initializeBrowser] and [ensureBrowserActive] *)

Module Session.
Import MonadFacts WP Frame.

Section WithEnv.
Variable config : Config.
Variable env : Env.

Lemma init_event_is_session ev : is_init_event ev = true -> is_session_event ev = true.
Proof. unfold is_init_event. now intros H%andb_prop. Qed.

Lemma initializeBrowser_no_close :
  stable (keeps_ledger is_init_event) (initializeBrowser config env).
Proof.
  unfold initializeBrowser, find_chromePath, solveMathCaptcha, sleep, extern_val.
  ledger_frame.
Qed.

Lemma init_events_no_close (new : Trace) :
  forallb is_init_event new = true -> ~ In EvClose new.
Proof.
  intros H Hin. rewrite forallb_forall in H. specialize (H _ Hin). discriminate.
Qed.




(** [initializeBrowser] returns [true] with the counter at zero and both
    handles set, or [false] with the counter as it was. *)
Lemma initializeBrowser_result s :
  wp (initializeBrowser config env)
     (fun r s' =>
        (r = Ok true /\ reconnectAttempts s' = 0
         /\ browser s' <> None /\ page s' <> None)
        \/ (r = Ok false /\ reconnectAttempts s' = reconnectAttempts s)) s.
Proof.
  unfold initializeBrowser, find_chromePath, solveMathCaptcha.
  repeat (wp_step; try (right; split; reflexivity)).
  all: left; repeat split; try reflexivity; discriminate.
Qed.

(** [initializeBrowser] begins by running [which chromium]. *)
Lemma initializeBrowser_first_event s :
  wp (initializeBrowser config env)
     (fun _ s' => exists new, trace s' = trace s ++ EvWhichChromium :: new) s.
Proof.
  unfold initializeBrowser, find_chromePath, solveMathCaptcha.
  repeat wp_step.
  all: rewrite <- ?app_assoc; simpl; eexists; reflexivity.
Qed.

(** With no browser or no page, [ensureBrowserActive] is
    [initializeBrowser]: the counter is not consulted. *)
Lemma ensureBrowserActive_without_handles s :
  browser s = None \/ page s = None ->
  ensureBrowserActive config env s = initializeBrowser config env s.
Proof.
  intros H. unfold ensureBrowserActive, try_catch at 1, bind at 1, get.
  assert (E : (match browser s with
               | Some _ =>
                   match page s with
                   | Some _ =>
                       extern (EvEvaluate ScriptProbe) (page_evaluate_probe env) ;;
                       ret true
                   | None => initializeBrowser config env
                   end
               | None => initializeBrowser config env
               end) = initializeBrowser config env).
  { destruct H as [H|H]; rewrite H; [reflexivity|]. now destruct (browser s). }
  rewrite E. destruct (initializeBrowser_nothrow config env s) as [b Hb].
  destruct (initializeBrowser config env s) as [[b'|e] s1]; [reflexivity|].
  discriminate.
Qed.

(** The guard: when the probe throws and the counter has reached the
    maximum, the browser is closed and the call returns [false] at once. *)
Lemma ensureBrowserActive_guard s b p e :
  browser s = Some b -> page s = Some p ->
  page_evaluate_probe env (trace s ++ [EvEvaluate ScriptProbe]) = Throw e ->
  MAX_RECONNECT_ATTEMPTS <= reconnectAttempts s ->
  ensureBrowserActive config env s =
    (Ok false,
     set_page None
       (set_browser None
          (set_trace (trace s ++ [EvEvaluate ScriptProbe; EvClose]) s))).
Proof.
  intros Hb Hp He Hmax.
  unfold ensureBrowserActive, try_catch at 1, bind at 1, get. rewrite Hb, Hp.
  unfold bind at 1, extern at 1. cbv zeta. rewrite He.
  unfold close_browser, bind, get, modify, try_catch, extern, ret.
  norm_state. rewrite Hb.
  apply Nat.ltb_ge in Hmax.
  destruct (browser_close env _); norm_state; rewrite Hmax;
    rewrite <- app_assoc; reflexivity.
Qed.


End WithEnv.

(** C1 (the code departs from the claim): with the counter at the maximum
    and no browser handle, which is how the call that stops at the guard
    leaves the globals, [ensureBrowserActive] does not return [false] at
    once: it is [initializeBrowser], which starts by looking for Chromium and
    goes on to launch it and open the login page. *)
Theorem degraded_session_launches_again
  (config : Config) (env : Env) (s : State) :
  reconnectAttempts s = MAX_RECONNECT_ATTEMPTS ->
  browser s = None ->
  let (r, s') := ensureBrowserActive config env s in
  (r, s') = initializeBrowser config env s
  /\ exists new, trace s' = trace s ++ EvWhichChromium :: new.
Proof.
  intros _ Hb.
  rewrite (ensureBrowserActive_without_handles config env s (or_introl Hb)).
  pose proof (initializeBrowser_first_event config env s) as H. unfold wp in H.
  destruct (initializeBrowser config env s) as [r s']. now split.
Qed.

Lemma degraded_session_launches_again_witness :
  fst (ensure_times example_config env_down 5 active_state) = repeat (Ok false) 5
  /\ fst (ensureBrowserActive example_config env_down
            (snd (ensure_times example_config env_down 5 active_state)))
     = Ok false
  /\ events_after
       (List.length (trace (snd (ensure_times example_config env_down 5 active_state))))
       degraded_state
     = [EvEvaluate ScriptProbe; EvClose]
  /\ (let (r, s') := ensureBrowserActive example_config env_down degraded_state in
      (r, s') = initializeBrowser example_config env_down degraded_state
      /\ exists new, trace s' = trace degraded_state ++ EvWhichChromium :: new)
  /\ events_after (List.length (trace degraded_state))
                  (snd (ensureBrowserActive example_config env_down degraded_state))
     = [EvWhichChromium; EvLaunch (Some "/usr/bin/chromium"); EvNewPage;
        EvGoto "https://panel.example/login"; EvSleep 1000;
        EvEvaluate ScriptCaptcha].
Proof.
  split; [vm_compute; reflexivity|].
  split; [vm_compute; reflexivity|].
  split; [vm_compute; reflexivity|].
  split; [|vm_compute; reflexivity].
  apply (degraded_session_launches_again example_config env_down degraded_state);
    vm_compute; reflexivity.
Defined.




End Session.

(** ** The ledger *)

Module Ledger.
Import SetFacts.

Lemma nodupb_NoDup (l : list string) : nodupb l = true -> NoDup l.
Proof.
  induction l as [|x l IH]; simpl; intros H; constructor.
  - apply andb_prop in H as [H _]. apply negb_true_iff in H.
    now apply (set_has_false l x).
  - apply IH. now apply andb_prop in H as [_ H].
Qed.

Lemma fold_set_add_In (a : list string) :
  forall acc x, In x (fold_left set_add a acc) <-> In x acc \/ In x a.
Proof.
  induction a as [|y a IH]; intros acc x; simpl.
  - tauto.
  - rewrite IH. unfold set_add. destruct (set_has acc y) eqn:E.
    + apply set_has_true in E. split; [tauto|].
      intros [H|[H|H]]; subst; tauto.
    + rewrite in_app_iff. simpl. tauto.
Qed.

Lemma new_Set_In (a : list string) (x : string) : In x (new_Set a) <-> In x a.
Proof. unfold new_Set. rewrite fold_set_add_In. simpl. tauto. Qed.

Lemma ledger_insert_NoDup l h : NoDup l -> NoDup (ledger_insert l h).
Proof.
  intros H. unfold ledger_insert. cbv zeta.
  destruct (MAX_STORED_HASHES <? _)%nat.
  - apply new_Set_NoDup.
  - now apply set_add_NoDup.
Qed.

Lemma ledger_insert_length l h :
  List.length l <= MAX_STORED_HASHES ->
  List.length (ledger_insert l h) <= MAX_STORED_HASHES.
Proof.
  intros H. unfold ledger_insert. cbv zeta.
  destruct (MAX_STORED_HASHES <? _)%nat eqn:E.
  - etransitivity; [apply new_Set_length|].
    unfold Array_from. rewrite slice_last_length.
    unfold TRIMMED_HASHES, MAX_STORED_HASHES. lia.
  - now apply Nat.ltb_ge in E.
Qed.

(** Whatever the size before, the ledger is within the cap after an
    insertion. *)
Lemma ledger_insert_within_cap l h :
  List.length (ledger_insert l h) <= MAX_STORED_HASHES.
Proof.
  unfold ledger_insert. cbv zeta.
  destruct (MAX_STORED_HASHES <? _)%nat eqn:E.
  - etransitivity; [apply new_Set_length|].
    unfold Array_from. rewrite slice_last_length.
    unfold TRIMMED_HASHES, MAX_STORED_HASHES. lia.
  - now apply Nat.ltb_ge in E.
Qed.

Lemma ledger_insert_ok l h : ledger_ok l -> ledger_ok (ledger_insert l h).
Proof.
  intros [Hn Hl]. split; [now apply ledger_insert_NoDup | now apply ledger_insert_length].
Qed.

(** Without overflow the insertion is [add]. *)
Lemma ledger_insert_room l h :
  List.length (set_add l h) <= MAX_STORED_HASHES ->
  ledger_insert l h = set_add l h.
Proof.
  intros H. unfold ledger_insert. cbv zeta.
  apply Nat.ltb_ge in H. now rewrite H.
Qed.

(** On overflow the insertion keeps the last [TRIMMED_HASHES] entries. *)
Lemma ledger_insert_overflow l h :
  NoDup l ->
  MAX_STORED_HASHES < List.length (set_add l h) ->
  ledger_insert l h = slice_last TRIMMED_HASHES (set_add l h).
Proof.
  intros Hn H. unfold ledger_insert. cbv zeta.
  apply Nat.ltb_lt in H. rewrite H. unfold Array_from.
  apply new_Set_fresh, slice_last_NoDup. now apply set_add_NoDup.
Qed.

(** What the insertion drops is a prefix of the insertion order: the
    entries kept are the most recent ones, in order. *)
Lemma ledger_insert_suffix l h :
  NoDup l -> exists evicted, set_add l h = evicted ++ ledger_insert l h.
Proof.
  intros Hn.
  destruct (Nat.le_gt_cases (List.length (set_add l h)) MAX_STORED_HASHES) as [H|H].
  - exists []. now rewrite ledger_insert_room.
  - rewrite ledger_insert_overflow by assumption.
    eexists. symmetry. apply slice_last_split.
Qed.

(** A new fingerprint is in the ledger right after its insertion, cut or no
    cut. *)
Lemma ledger_insert_In l h : ~ In h l -> In h (ledger_insert l h).
Proof.
  intros Hh. unfold ledger_insert. cbv zeta.
  destruct (MAX_STORED_HASHES <? _)%nat eqn:E.
  - apply new_Set_In. unfold Array_from, slice_last.
    rewrite (set_add_new _ _ Hh).
    rewrite skipn_app. apply in_or_app. right.
    rewrite length_app. simpl.
    replace (List.length l + 1 - TRIMMED_HASHES - List.length l) with 0
      by (unfold TRIMMED_HASHES; lia).
    now left.
  - apply set_add_In.
Qed.

End Ledger.

(** ** Dispatch and the polling loop *)

Module Poll.
Import SetFacts MonadFacts WP Frame Ledger.

Lemma set_trace_twice t1 t2 s : set_trace t2 (set_trace t1 s) = set_trace t2 s.
Proof. reflexivity. Qed.

Lemma set_trace_same s : set_trace (trace s) s = s.
Proof. now destruct s. Qed.

Section WithEnv.
Variable config : Config.
Variable env : Env.
Variable md5_hex : string -> string.

(** The loop over the channels sends to every one of them, whatever the
    answers. *)
Lemma send_loop (text : string) (chats : list string) :
  forall s,
    for_of chats
      (fun chatId =>
         try_catch (extern (EvSendMessage chatId text) (bot_sendMessage env))
                   (fun _ => ret tt)) s
    = (Ok tt,
       set_trace (trace s ++ map (fun chatId => EvSendMessage chatId text) chats) s).
Proof.
  induction chats as [|c chats IH]; intros s; simpl.
  - unfold ret. now rewrite app_nil_r, set_trace_same.
  - unfold bind, try_catch at 1, extern at 1. cbv zeta.
    destruct (bot_sendMessage env _); unfold ret; rewrite IH;
      norm_state; rewrite <- app_assoc; reflexivity.
Qed.

Lemma sendOTPToTelegram_run (sms : Sms) (s : State) :
  sendOTPToTelegram config env sms s =
    (Ok tt, set_trace (trace s ++ dispatch_events config env sms (trace s)) s).
Proof.
  unfold sendOTPToTelegram, dispatch_events, otp_text.
  unfold try_catch at 1, bind, get. cbv beta iota zeta.
  destruct (formatted_text sms (Date_toLocaleString env (trace s))) as [text|e].
  - rewrite send_loop. reflexivity.
  - unfold throw, ret. now rewrite app_nil_r, set_trace_same.
Qed.

(** There is a text exactly for a record that is [sendable]. *)
Lemma otp_text_sendable (sms : Sms) (tr : Trace) :
  sendable sms = true <-> otp_text env sms tr <> None.
Proof.
  unfold sendable, otp_text, formatted_text, replace_nul.
  destruct (or_default (short_message sms) "No content") as [| |body|t o];
    cbn [andb]; try (split; [discriminate | intros H; now elim H]).
  destruct (cell_text (or_default (source_addr sms) "Unknown"));
    destruct (cell_text (or_default (destination_addr sms) "Unknown"));
    split; try discriminate; try reflexivity; intros H; now elim H.
Qed.

Lemma dispatch_events_chats (sms : Sms) (tr : Trace) :
  map fst (sends_of (dispatch_events config env sms tr))
    = if sendable sms then TELEGRAM_CHAT_IDS config else [].
Proof.
  pose proof (otp_text_sendable sms tr) as H. unfold dispatch_events.
  destruct (otp_text env sms tr) as [text|].
  - rewrite (proj2 H) by discriminate. unfold sends_of.
    induction (TELEGRAM_CHAT_IDS config) as [|c l IH]; simpl; [reflexivity|].
    now rewrite IH.
  - destruct (sendable sms); [|reflexivity].
    now elim (proj1 H eq_refl).
Qed.

(** A record whose fingerprint is in the ledger: nothing happens. *)
Lemma poll_message_seen (sms : Sms) (n : nat) (s : State) :
  set_has (sentMessageHashes s) (hash sms) = true ->
  poll_message config env sms n s = (Ok n, s).
Proof.
  intros H. unfold poll_message, bind, get. now rewrite H.
Qed.

(** A record whose fingerprint is not in the ledger: it is dispatched to
    every channel, then inserted. *)
Lemma poll_message_new (sms : Sms) (n : nat) (s : State) :
  set_has (sentMessageHashes s) (hash sms) = false ->
  poll_message config env sms n s =
    (Ok (S n),
     set_sentMessageHashes
       (ledger_insert (sentMessageHashes s) (hash sms))
       (set_trace (trace s ++ dispatch_events config env sms (trace s)) s)).
Proof.
  intros H. unfold poll_message, bind, get. cbv beta iota. rewrite H.
  cbn [negb]. rewrite sendOTPToTelegram_run.
  unfold modify, ret, ledger_insert. cbv beta iota zeta. norm_state.
  destruct (MAX_STORED_HASHES <? _)%nat; reflexivity.
Qed.

Lemma poll_messages_app (a b : list Sms) :
  forall n s,
    poll_messages config env (a ++ b) n s =
    bind (poll_messages config env a n) (poll_messages config env b) s.
Proof.
  induction a as [|x a IH]; intros n s; simpl.
  - reflexivity.
  - unfold bind in *. cbv beta.
    destruct (poll_message config env x n s) as [[n1|e] s1];
      [apply IH | reflexivity].
Qed.

(** What the loop does to the state: the ledger and the trace change, the
    trace by Telegram calls only; the count never falls; with nothing
    counted nothing happened, and every count comes with a call to each
    channel. *)
Lemma poll_messages_spec (messages : list Sms) :
  forall n s,
    wp (poll_messages config env messages n)
       (fun r s' =>
          exists n' new,
            r = Ok n' /\ n <= n'
            /\ (ledger_ok (sentMessageHashes s) -> ledger_ok (sentMessageHashes s'))
            /\ s' = set_sentMessageHashes (sentMessageHashes s')
                      (set_trace (trace s') s)
            /\ trace s' = trace s ++ new
            /\ forallb is_send_event new = true
            /\ (n' = n -> s' = s)
            /\ (n < n' -> TELEGRAM_CHAT_IDS config <> [] ->
                forallb (fun m => set_has (sentMessageHashes s) (hash m)
                                  || sendable m) messages = true ->
                sends_of new <> [])
            /\ (n' = n <-> forallb (fun m => set_has (sentMessageHashes s) (hash m))
                                   messages = true)) s.
Proof.
  induction messages as [|m messages IH]; intros n s; simpl.
  - apply wp_ret. exists n, []. rewrite app_nil_r.
    split; [reflexivity|]. split; [lia|]. split; [tauto|].
    split; [now destruct s|]. repeat split; try reflexivity; lia.
  - apply wp_bind.
    destruct (set_has (sentMessageHashes s) (hash m)) eqn:E.
    + unfold wp at 1. rewrite (poll_message_seen _ _ _ E). simpl.
      exact (IH n s).
    + unfold wp at 1. rewrite (poll_message_new _ _ _ E). simpl.
      eapply wp_conseq; [apply IH|].
      cbv beta. norm_state.
      intros r s' (n' & new & Hr & Hn & Hok' & Hs' & Htr & Hnew & Hsame & Hsend & Hall).
      exists n', (dispatch_events config env m (trace s) ++ new).
      split; [assumption|]. split; [lia|].
      split; [intros Hok; now apply Hok', ledger_insert_ok|].
      split; [rewrite Hs' at 1; reflexivity|].
      split; [rewrite Htr, app_assoc; reflexivity|].
      split.
      { rewrite forallb_app, Hnew, andb_true_r.
        unfold dispatch_events. rewrite forallb_forall.
        intros ev Hin. destruct (otp_text env m (trace s)); [|contradiction].
        apply in_map_iff in Hin as [c [<- _]]. reflexivity. }
      split; [lia|].
      split.
      { intros _ Hchats Hable Hnil. cbn [forallb] in Hable.
        rewrite ?E in Hable. cbn [orb] in Hable.
        apply andb_prop in Hable as [Hable _].
        unfold sends_of in Hnil.
        rewrite flat_map_app in Hnil. apply app_eq_nil in Hnil as [Hnil _].
        apply (f_equal (map fst)) in Hnil.
        fold (sends_of (dispatch_events config env m (trace s))) in Hnil.
        rewrite dispatch_events_chats, Hable in Hnil.
        now destruct (TELEGRAM_CHAT_IDS config). }
      split; [lia | discriminate].
Qed.

Lemma poll_messages_nothrow (messages : list Sms) (n : nat) (s : State) :
  exists n' s', poll_messages config env messages n s = (Ok n', s').
Proof.
  pose proof (poll_messages_spec messages n s) as H. unfold wp in H.
  destruct (poll_messages config env messages n s) as [r s'].
  simpl in H. destruct H as (n' & new & -> & _). now exists n', s'.
Qed.

(** The loop never throws. *)
Lemma poll_messages_ok (messages : list Sms) (n : nat) (s : State) :
  ledger_ok (sentMessageHashes s) ->
  exists n' s',
    poll_messages config env messages n s = (Ok n', s')
    /\ ledger_ok (sentMessageHashes s').
Proof.
  intros Hok. pose proof (poll_messages_spec messages n s) as H.
  unfold wp in H. destruct (poll_messages config env messages n s) as [r s'].
  simpl in H. destruct H as (n' & new & -> & _ & Hok' & _).
  exists n', s'. auto.
Qed.

Lemma slice_last_snoc {A} (k : nat) (a : list A) (x : A) :
  slice_last (S k) (a ++ [x]) = slice_last k a ++ [x].
Proof.
  unfold slice_last. rewrite length_app, skipn_app. simpl List.length.
  replace (List.length a + 1 - S k) with (List.length a - k) by lia.
  replace (List.length a - k - List.length a) with 0 by lia.
  reflexivity.
Qed.

Lemma slice_last_twice {A} (k n : nat) (a : list A) :
  k <= n -> slice_last k (slice_last n a) = slice_last k a.
Proof.
  intros H. unfold slice_last. rewrite skipn_skipn, length_skipn.
  f_equal. lia.
Qed.

Lemma recent_In k h l : recent k h l -> In h l.
Proof.
  unfold recent. intros H. rewrite <- (slice_last_split k l).
  apply in_or_app. now right.
Qed.

Lemma recent_mono k k' h l : k <= k' -> recent k h l -> recent k' h l.
Proof.
  unfold recent. intros Hk H. rewrite <- (slice_last_twice k k' l Hk) in H.
  now apply (recent_In k h) in H.
Qed.

(** A fingerprint just inserted is the most recent entry. *)
Lemma recent_new l h : NoDup l -> ~ In h l -> recent 1 h (ledger_insert l h).
Proof.
  intros Hn Hh. unfold recent.
  destruct (Nat.le_gt_cases (List.length (set_add l h)) MAX_STORED_HASHES) as [H|H].
  - rewrite ledger_insert_room by assumption.
    rewrite (set_add_new _ _ Hh), slice_last_snoc.
    apply in_or_app. right. now left.
  - rewrite ledger_insert_overflow by assumption.
    rewrite slice_last_twice by (unfold TRIMMED_HASHES; lia).
    rewrite (set_add_new _ _ Hh), slice_last_snoc.
    apply in_or_app. right. now left.
Qed.

(** One more insertion pushes an entry one place back; the cut keeps the
    last [TRIMMED_HASHES] places. *)
Lemma recent_insert k h l x :
  NoDup l -> ~ In x l -> S k <= TRIMMED_HASHES ->
  recent k h l -> recent (S k) h (ledger_insert l x).
Proof.
  intros Hn Hx Hk H. unfold recent in *.
  assert (G : In h (slice_last (S k) (set_add l x))).
  { rewrite (set_add_new _ _ Hx), slice_last_snoc. apply in_or_app. now left. }
  destruct (Nat.le_gt_cases (List.length (set_add l x)) MAX_STORED_HASHES) as [Hl|Hl].
  - now rewrite ledger_insert_room.
  - rewrite ledger_insert_overflow by assumption.
    now rewrite slice_last_twice.
Qed.

(** A fingerprint among the last [k] entries is still in the ledger after
    a run of [TRIMMED_HASHES - k] records or fewer. *)
Lemma poll_messages_keeps_recent (messages : list Sms) :
  forall n s k h,
    ledger_ok (sentMessageHashes s) ->
    recent k h (sentMessageHashes s) ->
    k + List.length messages <= TRIMMED_HASHES ->
    recent (k + List.length messages) h
           (sentMessageHashes (snd (poll_messages config env messages n s))).
Proof.
  induction messages as [|m messages IH]; intros n s k h Hok Hr Hk; simpl.
  - now rewrite Nat.add_0_r.
  - simpl in Hk. unfold bind.
    destruct (set_has (sentMessageHashes s) (hash m)) eqn:E.
    + rewrite (poll_message_seen _ _ _ E).
      apply (recent_mono (k + List.length messages)); [lia|].
      apply IH; [assumption | assumption | lia].
    + rewrite (poll_message_new _ _ _ E).
      replace (k + S (List.length messages)) with (S k + List.length messages) by lia.
      apply IH; norm_state.
      * now apply ledger_insert_ok.
      * apply recent_insert; [apply Hok | now apply set_has_false | lia | assumption].
      * lia.
Qed.

End WithEnv.

(** C5: whatever Telegram answers on each channel, [sendOTPToTelegram]
    calls every configured channel in order, returns normally and changes
    nothing but the trace; and a record that was not in the ledger is in it
    after its turn in the loop, counted as new, whether or not any channel
    accepted it.  (A record whose body is no string, or whose source or
    destination cannot be printed, is not [sendable]: for it no channel is
    called at all, and the rest holds as well.) *)
Theorem delivery_failures_are_isolated
  (config : Config) (env : Env) (sms : Sms) (n : nat) (s : State) :
  (let (r, s') := sendOTPToTelegram config env sms s in
   r = Ok tt
   /\ trace s' = trace s ++ dispatch_events config env sms (trace s)
   /\ map fst (sends_of (dispatch_events config env sms (trace s)))
      = (if sendable sms then TELEGRAM_CHAT_IDS config else [])
   /\ s' = set_trace (trace s') s)
  /\
  (set_has (sentMessageHashes s) (hash sms) = false ->
   let (r, s') := poll_message config env sms n s in
   r = Ok (S n)
   /\ sentMessageHashes s' = ledger_insert (sentMessageHashes s) (hash sms)
   /\ In (hash sms) (sentMessageHashes s')
   /\ trace s' = trace s ++ dispatch_events config env sms (trace s)).
Proof.
  split.
  - rewrite sendOTPToTelegram_run. norm_state. repeat split.
    apply dispatch_events_chats.
  - intros E. rewrite (poll_message_new _ _ _ _ _ E). norm_state.
    repeat split. apply ledger_insert_In. now apply set_has_false.
Qed.

Lemma delivery_failures_are_isolated_witness :
  let (r, s') :=
    poll_message example_config env_up (sms_with_hash "8f14e45f") 0
                 (initial_state FileAbsent 0) in
  r = Ok 1
  /\ sentMessageHashes s' = ledger_insert [] "8f14e45f"
  /\ In "8f14e45f" (sentMessageHashes s')
  /\ trace s' = dispatch_events example_config env_up (sms_with_hash "8f14e45f") [].
Proof.
  apply (proj2 (delivery_failures_are_isolated example_config env_up
                  (sms_with_hash "8f14e45f") 0 (initial_state FileAbsent 0))).
  reflexivity.
Defined.

(** C10: when an insertion takes the ledger over the cap of 1000, the
    ledger is cut at once to its 500 most recent entries: the 501 oldest
    are dropped together. *)
Theorem overflow_cuts_ledger_to_half
  (config : Config) (env : Env) (sms : Sms) (n : nat) (s : State) :
  ledger_ok (sentMessageHashes s) ->
  MAX_STORED_HASHES < List.length (set_add (sentMessageHashes s) (hash sms)) ->
  let (r, s') := poll_message config env sms n s in
  sentMessageHashes s' = skipn 501 (sentMessageHashes s ++ [hash sms])
  /\ List.length (sentMessageHashes s') = 500
  /\ sentMessageHashes s ++ [hash sms]
     = firstn 501 (sentMessageHashes s ++ [hash sms]) ++ sentMessageHashes s'.
Proof.
  intros [Hn Hl] Hover.
  assert (Hnew : ~ In (hash sms) (sentMessageHashes s)).
  { intros Hin. rewrite (set_add_old _ _ Hin) in Hover. lia. }
  assert (Hlen : List.length (sentMessageHashes s) = MAX_STORED_HASHES).
  { rewrite (set_add_new _ _ Hnew), length_app in Hover. simpl in Hover. lia. }
  rewrite (poll_message_new _ _ _ _ _ (proj2 (set_has_false _ _) Hnew)).
  norm_state. rewrite (ledger_insert_overflow _ _ Hn Hover).
  rewrite (set_add_new _ _ Hnew). unfold slice_last.
  rewrite length_app, Hlen. change (List.length [hash sms]) with 1.
  replace (MAX_STORED_HASHES + 1 - TRIMMED_HASHES) with 501
    by (unfold MAX_STORED_HASHES, TRIMMED_HASHES; lia).
  split; [reflexivity | split].
  - rewrite length_skipn, length_app, Hlen. change (List.length [hash sms]) with 1.
    unfold MAX_STORED_HASHES. lia.
  - symmetry. apply firstn_skipn.
Qed.

Lemma overflow_cuts_ledger_to_half_witness :
  let (r, s') :=
    poll_message example_config env_up (sms_with_hash "8f14e45f") 0 full_state in
  sentMessageHashes s' = skipn 501 (full_ledger ++ ["8f14e45f"])
  /\ List.length (sentMessageHashes s') = 500
  /\ full_ledger ++ ["8f14e45f"]
     = firstn 501 (full_ledger ++ ["8f14e45f"]) ++ sentMessageHashes s'.
Proof.
  apply (overflow_cuts_ledger_to_half example_config env_up
           (sms_with_hash "8f14e45f") 0 full_state).
  - split.
    + apply nodupb_NoDup. vm_compute. reflexivity.
    + apply Nat.leb_le. vm_compute. reflexivity.
  - apply Nat.ltb_lt. vm_compute. reflexivity.
Defined.

End Poll.

(** ** Fingerprints and filtering *)

Module Dedup.
Import SetFacts MonadFacts WP Ledger Poll.

Section WithEnv.
Variable config : Config.
Variable env : Env.

(** A record whose fingerprint is among the last [k] entries of the ledger
    is still skipped after [TRIMMED_HASHES - k] other records or fewer. *)
Lemma recent_record_skipped (pre : list Sms) (r : Sms) (n : nat) (s : State)
  (k : nat) :
  ledger_ok (sentMessageHashes s) ->
  recent k (hash r) (sentMessageHashes s) ->
  k + List.length pre <= TRIMMED_HASHES ->
  poll_messages config env (pre ++ [r]) n s = poll_messages config env pre n s.
Proof.
  intros Hok Hrec Hk.
  pose proof (poll_messages_keeps_recent config env pre n s k (hash r)
                Hok Hrec Hk) as Hkeep.
  rewrite poll_messages_app. unfold bind at 1.
  destruct (poll_messages_nothrow config env pre n s) as (n1 & s1 & E1).
  rewrite E1 in *. cbn [snd] in Hkeep. cbn [poll_messages]. unfold bind.
  rewrite (poll_message_seen config env r n1 s1); [reflexivity|].
  apply set_has_true. eapply recent_In. exact Hkeep.
Qed.

(** The same for a record dispatched earlier in the batch. *)
Lemma later_duplicate_skipped (pre : list Sms) (r1 : Sms) (mid : list Sms)
  (r2 : Sms) (n : nat) (s : State) :
  ledger_ok (sentMessageHashes s) ->
  hash r1 = hash r2 ->
  List.length mid < TRIMMED_HASHES ->
  set_has (sentMessageHashes (snd (poll_messages config env pre n s)))
          (hash r1) = false ->
  poll_messages config env (pre ++ r1 :: mid ++ [r2]) n s
  = poll_messages config env (pre ++ r1 :: mid) n s.
Proof.
  intros Hok Hh Hmid Hnew.
  destruct (poll_messages_ok config env pre n s Hok) as (n1 & s1 & E1 & Hok1).
  rewrite E1 in Hnew. simpl in Hnew.
  pose (s1' := set_sentMessageHashes
                 (ledger_insert (sentMessageHashes s1) (hash r1))
                 (set_trace (trace s1 ++ dispatch_events config env r1 (trace s1))
                            s1)).
  assert (Hok1' : ledger_ok (sentMessageHashes s1')).
  { subst s1'. norm_state. now apply ledger_insert_ok. }
  assert (Hrec : recent 1 (hash r2) (sentMessageHashes s1')).
  { rewrite <- Hh. subst s1'. norm_state. apply recent_new; [apply Hok1|].
    now apply set_has_false. }
  assert (Hrun : forall l, poll_messages config env (pre ++ r1 :: l) n s
                           = poll_messages config env l (S n1) s1').
  { intros l. rewrite poll_messages_app. unfold bind. rewrite E1.
    cbn [poll_messages]. unfold bind.
    now rewrite (poll_message_new _ _ _ _ _ Hnew). }
  rewrite !Hrun. apply (recent_record_skipped mid r2 (S n1) s1' 1);
    [assumption | assumption | unfold TRIMMED_HASHES in *; lia].
Qed.

End WithEnv.

(** C3: the fingerprint of a row is the digest of the text made of its cells
    0, 2, 3 and 5 as they come, so rows that agree on these four cells have
    the same fingerprint, and so have rows whose four cells are all truthy
    and whose records agree on the four fields; a record whose fingerprint
    is in the ledger is skipped, leaving the state as it was; a record that
    is dispatched has its fingerprint in the ledger at once; and a record
    whose fingerprint is among the last [k] entries of the ledger, or was
    put there by an earlier record of the same batch, is skipped for as long
    as no more than [TRIMMED_HASHES] entries, itself included, have come
    after it. *)
Theorem duplicates_filtered_within_window
  (config : Config) (env : Env) (md5_hex : string -> string) :
  (forall row sms,
      message_of_row md5_hex (Some row) = Ok sms ->
      exists data, msgData row = Some data /\ hash sms = md5_hex data)
  /\
  (forall row1 row2 sms1,
      col0 row1 = col0 row2 -> col2 row1 = col2 row2 ->
      col3 row1 = col3 row2 -> col5 row1 = col5 row2 ->
      message_of_row md5_hex (Some row1) = Ok sms1 ->
      exists sms2,
        message_of_row md5_hex (Some row2) = Ok sms2 /\ hash sms1 = hash sms2)
  /\
  (forall row1 row2 sms1 sms2,
      forallb cell_truthy [col0 row1; col2 row1; col3 row1; col5 row1] = true ->
      forallb cell_truthy [col0 row2; col2 row2; col3 row2; col5 row2] = true ->
      message_of_row md5_hex (Some row1) = Ok sms1 ->
      message_of_row md5_hex (Some row2) = Ok sms2 ->
      date sms1 = date sms2 ->
      destination_addr sms1 = destination_addr sms2 ->
      source_addr sms1 = source_addr sms2 ->
      short_message sms1 = short_message sms2 ->
      hash sms1 = hash sms2)
  /\
  (forall sms n s,
      set_has (sentMessageHashes s) (hash sms) = true ->
      poll_message config env sms n s = (Ok n, s))
  /\
  (forall sms n s,
      set_has (sentMessageHashes s) (hash sms) = false ->
      let (r, s') := poll_message config env sms n s in
      r = Ok (S n) /\ set_has (sentMessageHashes s') (hash sms) = true)
  /\
  (forall pre r n s k,
      ledger_ok (sentMessageHashes s) ->
      recent k (hash r) (sentMessageHashes s) ->
      k + List.length pre <= TRIMMED_HASHES ->
      poll_messages config env (pre ++ [r]) n s
      = poll_messages config env pre n s)
  /\
  (forall pre r1 mid r2 n s,
      ledger_ok (sentMessageHashes s) ->
      hash r1 = hash r2 ->
      List.length mid < TRIMMED_HASHES ->
      set_has (sentMessageHashes (snd (poll_messages config env pre n s)))
              (hash r1) = false ->
      poll_messages config env (pre ++ r1 :: mid ++ [r2]) n s
      = poll_messages config env (pre ++ r1 :: mid) n s).
Proof.
  split; [|split; [|split; [|split; [|split; [|split]]]]].
  - intros row sms H. unfold message_of_row in H.
    destruct (msgData row) as [data|]; [|discriminate].
    exists data. injection H as <-. split; reflexivity.
  - intros row1 row2 sms1 H0 H2 H3 H5 H. unfold message_of_row in *.
    assert (E : msgData row2 = msgData row1).
    { unfold msgData. now rewrite H0, H2, H3, H5. }
    rewrite E. destruct (msgData row1) as [data|]; [|discriminate].
    injection H as <-. eexists. split; reflexivity.
  - intros row1 row2 sms1 sms2 T1 T2 H1 H2 Hd Hdest Hsrc Hbody.
    unfold message_of_row in *.
    cbn [forallb] in T1, T2.
    repeat match goal with
           | H : (_ && _)%bool = true |- _ => apply andb_prop in H as [? H]
           end.
    assert (C : col0 row1 = col0 row2 /\ col2 row1 = col2 row2
                /\ col3 row1 = col3 row2 /\ col5 row1 = col5 row2).
    { destruct (msgData row1) as [d1|]; [|discriminate].
      destruct (msgData row2) as [d2|]; [|discriminate].
      injection H1 as <-. injection H2 as <-.
      cbn [date destination_addr source_addr short_message] in *.
      unfold or_default in *.
      repeat match goal with
             | H : cell_truthy ?c = true, G : context [cell_truthy ?c] |- _ =>
                 rewrite H in G
             end.
      auto. }
    destruct C as (C0 & C2 & C3 & C5).
    assert (E : msgData row1 = msgData row2).
    { unfold msgData. now rewrite C0, C2, C3, C5. }
    rewrite E in H1. destruct (msgData row2) as [d2|]; [|discriminate].
    injection H1 as <-. injection H2 as <-. reflexivity.
  - intros sms n s. apply poll_message_seen.
  - intros sms n s E. rewrite (poll_message_new _ _ _ _ _ E). norm_state.
    split; [reflexivity|]. apply set_has_true, ledger_insert_In.
    now apply set_has_false.
  - intros pre r n s k. apply recent_record_skipped.
  - intros pre r1 mid r2 n s. apply later_duplicate_skipped.
Qed.

Lemma duplicates_filtered_within_window_witness :
  (exists data,
      msgData (mkRow "2025-01-01 10:00:00" "15550001" "Bank" "c1"
                     "Your code is 1111") = Some data
      /\ hash (sms_with_hash "2025-01-01 10:00:00_15550001_Bank_Your code is 1111")
         = example_digest data)
  /\ (exists sms2,
         message_of_row example_digest
           (Some (mkRow "2025-01-01 10:00:00" "15550001" "Bank" "c2"
                        "Your code is 1111")) = Ok sms2
         /\ hash (sms_with_hash
                    "2025-01-01 10:00:00_15550001_Bank_Your code is 1111")
            = hash sms2)
  /\ hash (sms_with_hash "2025-01-01 10:00:00_15550001_Bank_Your code is 1111")
     = hash (mkSms "2025-01-01 10:00:00_15550001_Bank_Your code is 1111"
                   "2025-01-01 10:00:00" "15550001" "Bank" "c2"
                   "Your code is 1111")
  /\ poll_message example_config env_up (sms_with_hash "c4ca4238") 3
                  (set_sentMessageHashes ["c4ca4238"] (initial_state FileAbsent 0))
     = (Ok 3, set_sentMessageHashes ["c4ca4238"] (initial_state FileAbsent 0))
  /\ (let (r, s') :=
        poll_message example_config env_up (sms_with_hash "c4ca4238") 3
                     (initial_state FileAbsent 0) in
      r = Ok 4 /\ set_has (sentMessageHashes s') "c4ca4238" = true)
  /\ poll_messages example_config env_up
       ([sms_with_hash "c81e728d"] ++ [mkSms "c4ca4238" "" "" "" "" ""])
       0 (set_sentMessageHashes ["c4ca4238"; "eccbc87e"]
            (initial_state FileAbsent 0))
     = poll_messages example_config env_up [sms_with_hash "c81e728d"]
         0 (set_sentMessageHashes ["c4ca4238"; "eccbc87e"]
              (initial_state FileAbsent 0))
  /\ poll_messages example_config env_up
       ([] ++ sms_with_hash "c4ca4238" :: [sms_with_hash "c81e728d"]
           ++ [mkSms "c4ca4238" "" "" "" "" ""]) 0 (initial_state FileAbsent 0)
     = poll_messages example_config env_up
         ([] ++ sms_with_hash "c4ca4238" :: [sms_with_hash "c81e728d"])
         0 (initial_state FileAbsent 0).
Proof.
  destruct (duplicates_filtered_within_window example_config env_up
              example_digest)
    as (Hfp & Hcells & Hfields & Hseen & Hnew & Hrecent & Hbatch).
  split; [|split; [|split; [|split; [|split; [|split]]]]].
  - apply Hfp. reflexivity.
  - apply (Hcells (mkRow "2025-01-01 10:00:00" "15550001" "Bank" "c1"
                         "Your code is 1111")); reflexivity.
  - apply (Hfields
             (mkRow "2025-01-01 10:00:00" "15550001" "Bank" "c1"
                    "Your code is 1111")
             (mkRow "2025-01-01 10:00:00" "15550001" "Bank" "c2"
                    "Your code is 1111")); reflexivity.
  - apply Hseen. reflexivity.
  - apply (Hnew (sms_with_hash "c4ca4238") 3 (initial_state FileAbsent 0)).
    reflexivity.
  - apply (Hrecent _ _ _ _ 2).
    + split; [|unfold MAX_STORED_HASHES; simpl; lia].
      apply nodupb_NoDup. vm_compute. reflexivity.
    + vm_compute. auto.
    + unfold TRIMMED_HASHES. simpl. lia.
  - apply Hbatch.
    + split; [constructor | unfold MAX_STORED_HASHES; simpl; lia].
    + reflexivity.
    + unfold TRIMMED_HASHES. simpl. lia.
    + reflexivity.
Defined.

(** C3, where the claim fails.  Two rows that differ only in column 5,
    [null] in one and the empty string in the other, give records with the
    same four fields and different texts to digest.  And with a ledger of
    500 entries, a batch that repeats its first record after 500 others
    dispatches it a second time: the cut made when the 1001st entry comes
    in drops it from the ledger.  The batch counts 502 new records where
    the batch without the repetition counts 501, and the first three and
    the last three Telegram calls of the tick are those of that record. *)
Lemma distant_duplicate_is_sent_again :
  (msgData row_with_null = Some "2025-01-01 10:00:00_15550001_Bank_null"
   /\ msgData row_with_empty = Some "2025-01-01 10:00:00_15550001_Bank_"
   /\ message_of_row example_digest (Some row_with_null)
      = Ok (mkSms "2025-01-01 10:00:00_15550001_Bank_null"
                  "2025-01-01 10:00:00" "15550001" "Bank" "c1" "")
   /\ message_of_row example_digest (Some row_with_empty)
      = Ok (mkSms "2025-01-01 10:00:00_15550001_Bank_"
                  "2025-01-01 10:00:00" "15550001" "Bank" "c1" ""))
  /\ ledger_ok (sentMessageHashes half_state)
  /\ List.length fresh_records = 500
  /\ fst (poll_messages example_config env_up
            (repeated_record :: fresh_records) 0 half_state) = Ok 501
  /\ fst (poll_messages example_config env_up
            (repeated_record :: fresh_records ++ [repeated_record])
            0 half_state) = Ok 502
  /\ firstn 3 (trace (snd (poll_messages example_config env_up
                             (repeated_record :: fresh_records
                                ++ [repeated_record]) 0 half_state)))
     = dispatch_events example_config env_up repeated_record []
  /\ skipn 1503 (trace (snd (poll_messages example_config env_up
                               (repeated_record :: fresh_records
                                  ++ [repeated_record]) 0 half_state)))
     = dispatch_events example_config env_up repeated_record []
  /\ map fst (sends_of (dispatch_events example_config env_up
                          repeated_record []))
     = config_js_chat_ids.
Proof.
  split; [repeat split|].
  split.
  { split; [apply nodupb_NoDup | apply Nat.leb_le]; vm_compute; reflexivity. }
  repeat split; vm_compute; reflexivity.
Qed.

End Dedup.

(** ** The snapshot file and one tick *)

Module Tick.
Import SetFacts MonadFacts WP Frame Ledger Poll.

Lemma session_event_is_quiet ev : is_session_event ev = true -> is_quiet_event ev = true.
Proof. now destruct ev. Qed.

Lemma quiet_events_silent (l : Trace) :
  forallb is_quiet_event l = true -> sends_of l = [] /\ writes_of l = [].
Proof.
  induction l as [|ev l IH]; simpl; [auto|].
  intros H%andb_prop. destruct H as [Hev Hl]. destruct (IH Hl) as [Hs Hw].
  unfold sends_of, writes_of in *. simpl. rewrite Hs, Hw.
  now destruct ev.
Qed.

Lemma send_events_write_nothing (l : Trace) :
  forallb is_send_event l = true -> writes_of l = [].
Proof.
  induction l as [|ev l IH]; simpl; [auto|].
  intros H%andb_prop. destruct H as [Hev Hl].
  unfold writes_of in *. simpl. rewrite (IH Hl). now destruct ev.
Qed.

Section WithEnv.
Variable config : Config.
Variable env : Env.
Variable md5_hex : string -> string.

Lemma saveSentMessages_run (s : State) :
  saveSentMessages env s =
    let snapshot := slice_last MAX_STORED_HASHES (sentMessageHashes s) in
    let tr := trace s ++ [EvWriteFile snapshot] in
    (Ok tt,
     match fs_writeFileSync env tr with
     | Ok _ => set_disk (FileJson snapshot) (set_trace tr s)
     | Throw _ => set_trace tr s
     end).
Proof.
  unfold saveSentMessages, try_catch, bind, get, write_snapshot, Array_from.
  cbv beta iota zeta. now destruct (fs_writeFileSync env _).
Qed.

Lemma loadSentMessages_run (s : State) :
  loadSentMessages s =
    (Ok tt,
     match disk s with
     | FileAbsent => s
     | FileCorrupt =>
         set_sentMessageHashes [] (set_trace (trace s ++ [EvReadFile]) s)
     | FileJson hashes =>
         set_sentMessageHashes (new_Set hashes)
                               (set_trace (trace s ++ [EvReadFile]) s)
     end).
Proof.
  unfold loadSentMessages, try_catch, bind, get, read_snapshot, modify, ret.
  cbv beta iota zeta. destruct (disk s) eqn:E; cbv beta iota zeta;
    norm_state; rewrite ?E; reflexivity.
Qed.

Lemma fetchLatestSMS_nothrow : nothrow (fetchLatestSMS config env md5_hex).
Proof. apply nothrow_try_catch. intros e. apply nothrow_ret. Qed.

Lemma fetchLatestSMS_frame :
  stable (keeps_ledger is_session_event) (fetchLatestSMS config env md5_hex).
Proof.
  unfold fetchLatestSMS, extern_val.
  ledger_frame; try apply ensureBrowserActive_frame.
Qed.

(** The result of a fetch and what it leaves alone, in one statement. *)
Lemma fetchLatestSMS_run (s : State) :
  exists messages sf fnew,
    fetchLatestSMS config env md5_hex s = (Ok messages, sf)
    /\ sentMessageHashes sf = sentMessageHashes s
    /\ isPolling sf = isPolling s
    /\ pollCount sf = pollCount s
    /\ disk sf = disk s
    /\ trace sf = trace s ++ fnew
    /\ forallb is_quiet_event fnew = true.
Proof.
  destruct (fetchLatestSMS_nothrow s) as [messages Hm].
  pose proof (fetchLatestSMS_frame s) as (Hl & Hp & Hc & Hd & fnew & Htr & Hq).
  destruct (fetchLatestSMS config env md5_hex s) as [r sf]. simpl in *. subst r.
  exists messages, sf, fnew. repeat split; try assumption.
  rewrite forallb_forall in *. intros ev Hin.
  apply session_event_is_quiet. auto.
Qed.

(** When no matching response arrives before the timer, the fetch returns
    no record. *)
Lemma fetchLatestSMS_timeout (s : State) :
  (forall tr, page_response env tr = None) ->
  fst (fetchLatestSMS config env md5_hex s) = Ok [].
Proof.
  intros Hnone. change (wp (fetchLatestSMS config env md5_hex)
                           (fun r _ => r = Ok []) s).
  unfold fetchLatestSMS. apply wp_try_catch, wp_bind.
  apply (wp_conseq _ _ (fun _ _ => True)); [exact I|].
  intros [b|e] s1 _; [|reflexivity].
  repeat wp_step; try reflexivity.
  all: match goal with
       | H : Ok (page_response env ?tr) = _ |- _ =>
           rewrite Hnone in H; discriminate
       end.
Qed.

(** The [try] block of [pollSMSAPI], step by step: the fetch, the loop
    over what it returned, and the save when something was counted. *)
Lemma poll_body_run (s : State) :
  exists messages sf fnew n' s2 new,
    fetchLatestSMS config env md5_hex s = (Ok messages, sf)
    /\ sentMessageHashes sf = sentMessageHashes s
    /\ isPolling sf = isPolling s
    /\ disk sf = disk s
    /\ trace sf = trace s ++ fnew
    /\ forallb is_quiet_event fnew = true
    /\ poll_messages config env messages 0 sf = (Ok n', s2)
    /\ (ledger_ok (sentMessageHashes s) -> ledger_ok (sentMessageHashes s2))
    /\ s2 = set_sentMessageHashes (sentMessageHashes s2) (set_trace (trace s2) sf)
    /\ trace s2 = trace sf ++ new
    /\ forallb is_send_event new = true
    /\ (n' = 0 -> s2 = sf)
    /\ (0 < n' -> TELEGRAM_CHAT_IDS config <> [] ->
        forallb (fun m => set_has (sentMessageHashes s) (hash m) || sendable m)
                messages = true ->
        sends_of new <> [])
    /\ (n' = 0 <-> forallb (fun m => set_has (sentMessageHashes s) (hash m))
                           messages = true)
    /\ poll_body config env md5_hex s =
         if (0 <? n')%nat then saveSentMessages env s2 else (Ok tt, s2).
Proof.
  destruct (fetchLatestSMS_run s)
    as (messages & sf & fnew & Ef & Hl & Hp & _ & Hd & Htr & Hq).
  pose proof (poll_messages_spec config env messages 0 sf) as Hspec.
  unfold wp in Hspec.
  destruct (poll_messages config env messages 0 sf) as [r s2] eqn:Em.
  simpl in Hspec.
  destruct Hspec as (n' & new & -> & _ & Hok & Hs2 & Htr2 & Hnew & Hsame & Hsend & Hall).
  exists messages, sf, fnew, n', s2, new.
  rewrite Hl in Hok, Hall, Hsend.
  repeat (split; [assumption|]).
  unfold poll_body, bind. rewrite Ef.
  destruct messages as [|m messages].
  - simpl in Em. injection Em as <- <-. reflexivity.
  - rewrite Em. now destruct (0 <? n')%nat.
Qed.

(** A call of [pollSMSAPI] that finds the flag down runs the [try] block
    and lowers the flag again. *)
Lemma pollSMSAPI_idle (s : State) :
  isPolling s = false ->
  pollSMSAPI config env md5_hex s =
    (Ok tt,
     set_isPolling false (snd (poll_body config env md5_hex (snd (poll_enter s))))).
Proof.
  intros H. unfold pollSMSAPI, poll_guard, poll_enter, bind, get, modify, ret.
  cbv beta iota. rewrite H. cbv beta iota.
  unfold poll_protected, try_finally, try_catch, ret. cbn [snd].
  destruct (poll_body config env md5_hex _) as [[[]|e] s']; reflexivity.
Qed.

(** A call that finds the flag up does nothing. *)
Lemma pollSMSAPI_busy (s : State) :
  isPolling s = true -> pollSMSAPI config env md5_hex s = (Ok tt, s).
Proof.
  intros H. unfold pollSMSAPI, poll_guard, poll_enter, bind, get, ret.
  cbv beta iota. now rewrite H.
Qed.

Lemma poll_enter_idle (s : State) :
  isPolling s = false ->
  snd (poll_enter s) = set_pollCount (S (pollCount s)) (set_isPolling true s).
Proof.
  intros H. unfold poll_enter, bind, get, modify, ret. cbv beta iota.
  now rewrite H.
Qed.

Lemma sends_of_app (a b : Trace) : sends_of (a ++ b) = sends_of a ++ sends_of b.
Proof. apply flat_map_app. Qed.

Lemma writes_of_app (a b : Trace) : writes_of (a ++ b) = writes_of a ++ writes_of b.
Proof. apply flat_map_app. Qed.

(** One call of [pollSMSAPI], from any state. *)
Lemma pollSMSAPI_effects (s : State) :
  exists new,
    trace (snd (pollSMSAPI config env md5_hex s)) = trace s ++ new
    /\ (forall messages sf,
          isPolling s = false ->
          fetchLatestSMS config env md5_hex (snd (poll_enter s)) = (Ok messages, sf) ->
          (writes_of new <> []
           <-> forallb (fun m => set_has (sentMessageHashes s) (hash m))
                       messages = false))
    /\ (sends_of new <> [] -> writes_of new <> [])
    /\ (forall messages sf,
          fetchLatestSMS config env md5_hex (snd (poll_enter s)) = (Ok messages, sf) ->
          TELEGRAM_CHAT_IDS config <> [] ->
          forallb (fun m => set_has (sentMessageHashes s) (hash m) || sendable m)
                  messages = true ->
          writes_of new <> [] -> sends_of new <> [])
    /\ (writes_of new = [] ->
        sends_of new = []
        /\ sentMessageHashes (snd (pollSMSAPI config env md5_hex s))
           = sentMessageHashes s
        /\ disk (snd (pollSMSAPI config env md5_hex s)) = disk s)
    /\ (forall messages sf,
          fetchLatestSMS config env md5_hex (snd (poll_enter s)) = (Ok messages, sf) ->
          forallb (fun m => set_has (sentMessageHashes s) (hash m)) messages = true ->
          writes_of new = [])
    /\ (writes_of new = []
        \/ writes_of new =
             [slice_last MAX_STORED_HASHES
                (sentMessageHashes (snd (pollSMSAPI config env md5_hex s)))]).
Proof.
  destruct (isPolling s) eqn:Hflag.
  - rewrite (pollSMSAPI_busy s Hflag). exists []. rewrite app_nil_r.
    simpl. repeat split; auto; try discriminate; intros; now exfalso.
  - rewrite (pollSMSAPI_idle s Hflag), (poll_enter_idle s Hflag).
    set (s1 := set_pollCount _ _).
    destruct (poll_body_run s1)
      as (messages & sf & fnew & n' & s2 & new & Ef & Hl & _ & Hd & Htr & Hq
          & Em & _ & Hs2 & Htr2 & Hnew & Hsame & Hsend & Hall & Hbody).
    subst s1. norm_state_in Hl. norm_state_in Hd. norm_state_in Htr.
    norm_state_in Hall. norm_state_in Hsend.
    destruct (quiet_events_silent fnew Hq) as [Hfs Hfw].
    pose proof (send_events_write_nothing new Hnew) as Hnw.
    rewrite Hbody. destruct (0 <? n')%nat eqn:Hn.
    + apply Nat.ltb_lt in Hn. rewrite saveSentMessages_run. cbv zeta. cbn [snd].
      exists (fnew ++ new ++ [EvWriteFile (slice_last MAX_STORED_HASHES
                                                      (sentMessageHashes s2))]).
      rewrite !sends_of_app, !writes_of_app, Hfs, Hfw, Hnw. simpl.
      rewrite app_nil_r.
      split.
      { destruct (fs_writeFileSync env _); norm_state;
          rewrite Htr2, Htr, <- !app_assoc; reflexivity. }
      split.
      { intros messages0 sf0 _ E0. rewrite Ef in E0. injection E0 as <- <-.
        split; [|discriminate]. intros _.
        apply not_true_is_false. intros Hf. apply Hall in Hf. lia. }
      split; [discriminate|].
      split.
      { intros messages0 sf0 E0 Hchats Hable _. rewrite Ef in E0.
        injection E0 as <- <-. auto. }
      split; [discriminate|].
      split.
      { intros messages0 sf0 E0 Hall0. rewrite Ef in E0.
        injection E0 as <- <-. apply Hall in Hall0. lia. }
      right. now destruct (fs_writeFileSync env _).
    + apply Nat.ltb_ge in Hn. assert (Hz : n' = 0) by lia.
      specialize (Hsame Hz). subst s2. cbn [snd]. norm_state.
      exists fnew. rewrite Hfs, Hfw.
      split; [assumption|].
      split.
      { intros messages0 sf0 _ E0. rewrite Ef in E0. injection E0 as <- <-.
        split; [intros H; now contradiction H|].
        intros Hf. rewrite (proj1 Hall Hz) in Hf. discriminate. }
      split; [intros H; now contradiction H|].
      split; [intros ? ? _ _ _ H; now contradiction H|].
      split; [auto|]. split; [reflexivity | now left].
Qed.

(** What is on disk after [saveSentMessages], and what [loadSentMessages]
    makes of it. *)
Lemma save_then_load (s : State) :
  fs_writeFileSync env
    (trace s ++ [EvWriteFile (slice_last MAX_STORED_HASHES (sentMessageHashes s))])
    = Ok tt ->
  disk (snd (saveSentMessages env s))
    = FileJson (slice_last MAX_STORED_HASHES (sentMessageHashes s))
  /\ forall s2,
      disk s2 = disk (snd (saveSentMessages env s)) ->
      sentMessageHashes (snd (loadSentMessages s2))
        = new_Set (slice_last MAX_STORED_HASHES (sentMessageHashes s)).
Proof.
  intros Hw. rewrite saveSentMessages_run. cbv zeta. cbn [snd]. rewrite Hw.
  norm_state. split; [reflexivity|].
  intros s2 Hd. rewrite loadSentMessages_run. cbn [snd]. rewrite Hd. reflexivity.
Qed.

Lemma initializeBrowser_only_session :
  stable (keeps_ledger is_session_event) (initializeBrowser config env ;; ret tt).
Proof.
  apply (stable_bind _ (keeps_ledger_trans _));
    [apply initializeBrowser_frame | intros b].
  apply (stable_ret _ (keeps_ledger_refl _)).
Qed.

(** Every entry point keeps the ledger a set within the cap and the
    snapshot file within the cap. *)
Lemma run_op_keeps_cap (o : Op) (s : State) :
  ledger_ok (sentMessageHashes s) -> file_within_cap (disk s) ->
  ledger_ok (sentMessageHashes (snd (run_op config env md5_hex o s)))
  /\ file_within_cap (disk (snd (run_op config env md5_hex o s))).
Proof.
  intros Hok Hfile.
  assert (Hslice : forall l : JSSet,
             List.length (slice_last MAX_STORED_HASHES l) <= MAX_STORED_HASHES).
  { intros l. rewrite slice_last_length. lia. }
  assert (Hsession : forall m : M unit,
             stable (keeps_ledger is_session_event) m ->
             ledger_ok (sentMessageHashes (snd (m s)))
             /\ file_within_cap (disk (snd (m s)))).
  { intros m Hm. destruct (Hm s) as (Hl & _ & _ & Hd & _). now rewrite Hl, Hd. }
  destruct o; simpl run_op.
  - rewrite loadSentMessages_run. cbn [snd].
    destruct (disk s) as [| |hashes] eqn:Hd; norm_state; rewrite ?Hd.
    + auto.
    + split; [split; [constructor | simpl; lia] | exact I].
    + split; [|exact Hfile]. split; [apply new_Set_NoDup|].
      etransitivity; [apply new_Set_length | exact Hfile].
  - apply Hsession, initializeBrowser_only_session.
  - destruct (isPolling s) eqn:Hflag.
    + rewrite (pollSMSAPI_busy s Hflag). auto.
    + rewrite (pollSMSAPI_idle s Hflag), (poll_enter_idle s Hflag).
      set (s1 := set_pollCount _ _).
      destruct (poll_body_run s1)
        as (messages & sf & fnew & n' & s2 & new & Ef & Hl & _ & Hd & _ & _
            & Em & Hok2 & Hs2 & _ & _ & _ & _ & _ & Hbody).
      subst s1. norm_state_in Hl. norm_state_in Hd. norm_state_in Hok2.
      specialize (Hok2 Hok).
      assert (Hd2 : disk s2 = disk s).
      { rewrite Hs2. norm_state. exact Hd. }
      rewrite Hbody. destruct (0 <? n')%nat.
      * rewrite saveSentMessages_run. cbv zeta. cbn [snd].
        destruct (fs_writeFileSync env _); norm_state.
        -- split; [assumption | apply Hslice].
        -- rewrite Hd2. auto.
      * cbn [snd]. norm_state. rewrite Hd2. auto.
  - apply Hsession, performHealthCheck_frame.
  - rewrite saveSentMessages_run. cbv zeta. cbn [snd].
    destruct (fs_writeFileSync env _); norm_state.
    + split; [assumption | apply Hslice].
    + auto.
Qed.

(** Every snapshot an entry point writes has at most [MAX_STORED_HASHES]
    entries. *)
Lemma run_op_writes_within_cap (o : Op) (s : State) :
  exists new,
    trace (snd (run_op config env md5_hex o s)) = trace s ++ new
    /\ Forall (fun hashes : list string => List.length hashes <= MAX_STORED_HASHES)
              (writes_of new).
Proof.
  assert (Hslice : forall l : JSSet,
             Forall (fun hashes : list string =>
                       List.length hashes <= MAX_STORED_HASHES)
                    [slice_last MAX_STORED_HASHES l]).
  { intros l. constructor; [|constructor]. rewrite slice_last_length. lia. }
  assert (Hsession : forall m : M unit,
             stable (keeps_ledger is_session_event) m ->
             exists new,
               trace (snd (m s)) = trace s ++ new
               /\ Forall (fun hashes : list string =>
                            List.length hashes <= MAX_STORED_HASHES)
                         (writes_of new)).
  { intros m Hm. destruct (Hm s) as (_ & _ & _ & _ & new & Htr & Hnew).
    exists new. split; [assumption|].
    assert (Hq : forallb is_quiet_event new = true).
    { rewrite forallb_forall in *. intros ev Hin.
      apply session_event_is_quiet. auto. }
    destruct (quiet_events_silent new Hq) as [_ ->]. constructor. }
  destruct o; simpl run_op.
  - rewrite loadSentMessages_run. cbn [snd].
    destruct (disk s); norm_state.
    + exists []. rewrite app_nil_r. split; [reflexivity | constructor].
    + exists [EvReadFile]. split; [reflexivity | constructor].
    + exists [EvReadFile]. split; [reflexivity | constructor].
  - apply Hsession, initializeBrowser_only_session.
  - destruct (isPolling s) eqn:Hflag.
    + rewrite (pollSMSAPI_busy s Hflag). exists []. rewrite app_nil_r.
      split; [reflexivity | constructor].
    + rewrite (pollSMSAPI_idle s Hflag), (poll_enter_idle s Hflag).
      set (s1 := set_pollCount _ _).
      destruct (poll_body_run s1)
        as (messages & sf & fnew & n' & s2 & new & _ & _ & _ & _ & Htr & Hq
            & _ & _ & _ & Htr2 & Hnew & _ & _ & _ & Hbody).
      subst s1. norm_state_in Htr.
      destruct (quiet_events_silent fnew Hq) as [_ Hfw].
      pose proof (send_events_write_nothing new Hnew) as Hnw.
      rewrite Hbody. destruct (0 <? n')%nat.
      * rewrite saveSentMessages_run. cbv zeta. cbn [snd].
        exists (fnew ++ new ++ [EvWriteFile (slice_last MAX_STORED_HASHES
                                                        (sentMessageHashes s2))]).
        rewrite !writes_of_app, Hfw, Hnw. simpl. split; [|apply Hslice].
        destruct (fs_writeFileSync env _); norm_state;
          rewrite Htr2, Htr, <- !app_assoc; reflexivity.
      * cbn [snd]. norm_state. exists (fnew ++ new).
        rewrite writes_of_app, Hfw, Hnw. split; [|constructor].
        rewrite Htr2, Htr, <- app_assoc. reflexivity.
  - apply Hsession, performHealthCheck_frame.
  - rewrite saveSentMessages_run. cbv zeta. cbn [snd].
    exists [EvWriteFile (slice_last MAX_STORED_HASHES (sentMessageHashes s))].
    split; [|apply Hslice].
    destruct (fs_writeFileSync env _); reflexivity.
Qed.

Lemma run_ops_writes_within_cap (ops : list Op) :
  forall s,
    Forall (fun hashes : list string => List.length hashes <= MAX_STORED_HASHES)
           (writes_of (trace s)) ->
    Forall (fun hashes : list string => List.length hashes <= MAX_STORED_HASHES)
           (writes_of (trace (run_ops config env md5_hex ops s))).
Proof.
  induction ops as [|o ops IH]; intros s H; simpl; [assumption|].
  apply IH. destruct (run_op_writes_within_cap o s) as (new & -> & Hnew).
  rewrite writes_of_app. apply Forall_app. now split.
Qed.

Lemma run_ops_keep_cap (ops : list Op) :
  forall s,
    ledger_ok (sentMessageHashes s) -> file_within_cap (disk s) ->
    ledger_ok (sentMessageHashes (run_ops config env md5_hex ops s))
    /\ file_within_cap (disk (run_ops config env md5_hex ops s)).
Proof.
  induction ops as [|o ops IH]; intros s Hok Hfile; simpl; [auto|].
  destruct (run_op_keeps_cap o s Hok Hfile) as [Hok1 Hfile1].
  now apply IH.
Qed.

(** The [try] block of [pollSMSAPI] does not assign [isPolling]. *)
Lemma poll_body_keeps_flag : keeps_flag (poll_body config env md5_hex).
Proof.
  intros s.
  destruct (poll_body_run s)
    as (messages & sf & fnew & n' & s2 & new & _ & _ & Hp & _ & _ & _
        & _ & _ & Hs2 & _ & _ & _ & _ & _ & Hbody).
  assert (Hp2 : isPolling s2 = isPolling s).
  { rewrite Hs2. norm_state. exact Hp. }
  rewrite Hbody. destruct (0 <? n')%nat; [|exact Hp2].
  rewrite saveSentMessages_run. cbv zeta. cbn [snd].
  now destruct (fs_writeFileSync env _).
Qed.

End WithEnv.

(** C4: in one call of [pollSMSAPI] the snapshot is written exactly when
    some fetched record has a fingerprint that is not in the ledger: such a
    record is handed to [sendOTPToTelegram] and counted, whatever becomes
    of it there.  Whenever Telegram was called the snapshot is written; and
    when the snapshot is written Telegram was called, provided there is a
    chat to send to and every record that is not in the ledger is
    [sendable].  With nothing written nothing was sent and the ledger and
    the file stay as they were; nothing is written when every fetched
    record is already in the ledger, in particular when the fetch returns
    nothing, as it does when the wait for the response times out; and what
    is written, once, is the last [MAX_STORED_HASHES] entries of the
    ledger. *)
Theorem snapshot_written_iff_new_record
  (config : Config) (env : Env) (md5_hex : string -> string) (s : State) :
  let (r, s') := pollSMSAPI config env md5_hex s in
  exists new,
    trace s' = trace s ++ new
    /\ (forall messages sf,
          isPolling s = false ->
          fetchLatestSMS config env md5_hex (snd (poll_enter s)) = (Ok messages, sf) ->
          (writes_of new <> []
           <-> forallb (fun m => set_has (sentMessageHashes s) (hash m))
                       messages = false))
    /\ (sends_of new <> [] -> writes_of new <> [])
    /\ (forall messages sf,
          fetchLatestSMS config env md5_hex (snd (poll_enter s)) = (Ok messages, sf) ->
          TELEGRAM_CHAT_IDS config <> [] ->
          forallb (fun m => set_has (sentMessageHashes s) (hash m) || sendable m)
                  messages = true ->
          writes_of new <> [] -> sends_of new <> [])
    /\ (writes_of new = [] ->
        sends_of new = []
        /\ sentMessageHashes s' = sentMessageHashes s /\ disk s' = disk s)
    /\ (forall messages sf,
          fetchLatestSMS config env md5_hex (snd (poll_enter s)) = (Ok messages, sf) ->
          forallb (fun m => set_has (sentMessageHashes s) (hash m)) messages = true ->
          writes_of new = [])
    /\ ((forall tr, page_response env tr = None) -> writes_of new = [])
    /\ (forall hashes,
          In hashes (writes_of new) ->
          writes_of new = [hashes]
          /\ hashes = slice_last MAX_STORED_HASHES (sentMessageHashes s')).
Proof.
  destruct (pollSMSAPI_effects config env md5_hex s)
    as (new & Htr & Hiff & Hsw & Hws & Hnone & Hseen & Hsnap).
  destruct (pollSMSAPI config env md5_hex s) as [r s']. cbn [snd] in *.
  assert (Hcontent : forall hashes,
             In hashes (writes_of new) ->
             writes_of new = [hashes]
             /\ hashes = slice_last MAX_STORED_HASHES (sentMessageHashes s')).
  { intros hashes Hin. destruct Hsnap as [Hw|Hw]; rewrite Hw in Hin |- *.
    - contradiction.
    - destruct Hin as [<-|[]]. auto. }
  exists new. repeat (split; [assumption|]). split; [|assumption].
  intros Htimeout.
  pose proof (fetchLatestSMS_timeout config env md5_hex (snd (poll_enter s)) Htimeout)
    as Hf.
  destruct (fetchLatestSMS config env md5_hex (snd (poll_enter s))) as [rf sf] eqn:Ef.
  simpl in Hf. subst rf. now apply (Hseen [] sf).
Qed.

Lemma snapshot_written_iff_new_record_witness :
  let (r, s') :=
    pollSMSAPI example_config env_up example_digest (initial_state FileAbsent 0) in
  exists new,
    trace s' = trace (initial_state FileAbsent 0) ++ new
    /\ writes_of new <> [] /\ sends_of new <> [].
Proof.
  pose proof (snapshot_written_iff_new_record example_config env_up
                example_digest (initial_state FileAbsent 0)) as H.
  destruct (pollSMSAPI example_config env_up example_digest
              (initial_state FileAbsent 0)) as [r s'].
  destruct H as (new & Htr & Hiff & _ & Hws & _).
  destruct (fetchLatestSMS example_config env_up example_digest
              (snd (poll_enter (initial_state FileAbsent 0))))
    as [[messages|e] sf] eqn:Ef; vm_compute in Ef; [|discriminate].
  injection Ef as <- <-.
  assert (Hw : writes_of new <> []).
  { apply (Hiff _ _ eq_refl eq_refl). reflexivity. }
  exists new. split; [exact Htr|]. split; [exact Hw|].
  apply (Hws _ _ eq_refl); [discriminate | reflexivity | exact Hw].
Defined.

(** C4, where the claim fails: the panel answers with one row whose
    message body is the number 482913 and not a string.  The record is not
    in the ledger, [sendOTPToTelegram] throws inside its own [try] before
    any call to Telegram, and the tick still adds the fingerprint, counts
    the record and writes the snapshot. *)
Lemma snapshot_written_without_delivery :
  TELEGRAM_CHAT_IDS example_config <> []
  /\ page_response (with_rows [Some row_with_number] env_up) []
     = Some (Table [Some row_with_number])
  /\ message_of_row example_digest (Some row_with_number)
     = Ok (mkSms "2025-01-01 10:00:00_15550001_Bank_482913"
                 "2025-01-01 10:00:00" "15550001" "Bank" "c1"
                 (CellOther true (Some "482913")))
  /\ (let s' := snd (pollSMSAPI example_config
                       (with_rows [Some row_with_number] env_up)
                       example_digest (initial_state FileAbsent 0)) in
      sends_of (trace s') = []
      /\ writes_of (trace s') = [["2025-01-01 10:00:00_15550001_Bank_482913"]]
      /\ sentMessageHashes s' = ["2025-01-01 10:00:00_15550001_Bank_482913"]
      /\ disk s' = FileJson ["2025-01-01 10:00:00_15550001_Bank_482913"]).
Proof.
  split; [discriminate|]. repeat split; vm_compute; reflexivity.
Qed.

(** C2: after any sequence of loads, browser starts, ticks, health checks
    and saves, from any snapshot file, every snapshot that was written has
    at most [MAX_STORED_HASHES] entries, and the ledger has at most as many
    after each record that was not in it.  From a start with no snapshot
    file, a corrupt one or one of at most [MAX_STORED_HASHES] entries, the
    ledger is at every such point a set of at most [MAX_STORED_HASHES]
    fingerprints and the snapshot on disk has at most as many entries; the
    bound also holds after each record of a batch; and what an insertion
    drops is a prefix of the insertion order, the oldest entries. *)
Theorem ledger_stays_within_cap
  (config : Config) (env : Env) (md5_hex : string -> string)
  (file : FileContent) (now : N) (ops : list Op) :
  let s := run_ops config env md5_hex ops (initial_state file now) in
  Forall (fun hashes : list string => List.length hashes <= MAX_STORED_HASHES)
         (writes_of (trace s))
  /\ (forall sms n,
        set_has (sentMessageHashes s) (hash sms) = false ->
        List.length (sentMessageHashes (snd (poll_message config env sms n s)))
        <= MAX_STORED_HASHES)
  /\ (file_within_cap file ->
      List.length (sentMessageHashes s) <= MAX_STORED_HASHES
      /\ NoDup (sentMessageHashes s)
      /\ file_within_cap (disk s)
      /\ (forall messages n,
            List.length (sentMessageHashes
                           (snd (poll_messages config env messages n s)))
            <= MAX_STORED_HASHES)
      /\ (forall sms n,
            exists evicted,
              set_add (sentMessageHashes s) (hash sms)
              = evicted
                  ++ sentMessageHashes (snd (poll_message config env sms n s)))).
Proof.
  cbv zeta.
  pose proof (run_ops_writes_within_cap config env md5_hex ops
                (initial_state file now) (Forall_nil _)) as Hwrites.
  split; [assumption|]. split.
  { intros sms n E. rewrite (poll_message_new _ _ _ _ _ E). cbn [snd].
    norm_state. apply ledger_insert_within_cap. }
  intros Hfile.
  assert (Hinit : ledger_ok (sentMessageHashes (initial_state file now))).
  { split; [constructor | simpl; lia]. }
  destruct (run_ops_keep_cap config env md5_hex ops _ Hinit Hfile) as [Hok Hdisk].
  set (s := run_ops config env md5_hex ops (initial_state file now)) in *.
  split; [apply Hok|]. split; [apply Hok|]. split; [assumption|]. split.
  - intros messages n.
    destruct (poll_messages_ok config env messages n s Hok) as (n' & s' & E & Hok').
    rewrite E. apply Hok'.
  - intros sms n. destruct (set_has (sentMessageHashes s) (hash sms)) eqn:E.
    + rewrite (poll_message_seen _ _ _ _ _ E). cbn [snd].
      exists []. apply set_add_old. now apply set_has_true.
    + rewrite (poll_message_new _ _ _ _ _ E). cbn [snd]. norm_state.
      apply ledger_insert_suffix, Hok.
Qed.

Lemma ledger_stays_within_cap_witness :
  let s := run_ops example_config env_up example_digest
                   [OpLoad; OpInit; OpPoll; OpHealthCheck; OpPoll; OpSave]
                   (initial_state (FileJson ["c4ca4238"; "c81e728d"]) 0) in
  List.length (sentMessageHashes s) <= MAX_STORED_HASHES
  /\ NoDup (sentMessageHashes s)
  /\ file_within_cap (disk s)
  /\ (forall messages n,
        List.length (sentMessageHashes
                       (snd (poll_messages example_config env_up messages n s)))
        <= MAX_STORED_HASHES)
  /\ (forall sms n,
        exists evicted,
          set_add (sentMessageHashes s) (hash sms)
          = evicted
              ++ sentMessageHashes (snd (poll_message example_config env_up sms n s))).
Proof.
  apply (ledger_stays_within_cap example_config env_up example_digest
           (FileJson ["c4ca4238"; "c81e728d"]) 0
           [OpLoad; OpInit; OpPoll; OpHealthCheck; OpPoll; OpSave]).
  unfold file_within_cap, MAX_STORED_HASHES. simpl. lia.
Defined.

(** C2, where the claim fails: [loadSentMessages] applies no cap.  From a
    snapshot file of 1200 distinct entries the ledger has 1200 entries
    after the load, above the cap of 1000, and still has them after a
    browser start, a tick that fetches nothing and a health check. *)
Lemma loaded_ledger_exceeds_cap :
  MAX_STORED_HASHES = 1000
  /\ List.length
       (sentMessageHashes
          (run_ops example_config env_up example_digest [OpLoad]
                   (initial_state (FileJson oversize_ledger) 0))) = 1200
  /\ ~ List.length
         (sentMessageHashes
            (run_ops example_config env_up example_digest [OpLoad]
                     (initial_state (FileJson oversize_ledger) 0)))
       <= MAX_STORED_HASHES
  /\ List.length
       (sentMessageHashes
          (run_ops example_config (with_rows [] env_up) example_digest
                   [OpLoad; OpInit; OpPoll; OpHealthCheck]
                   (initial_state (FileJson oversize_ledger) 0))) = 1200.
Proof.
  assert (H : List.length
                (sentMessageHashes
                   (run_ops example_config env_up example_digest [OpLoad]
                            (initial_state (FileJson oversize_ledger) 0)))
              = 1200) by (vm_compute; reflexivity).
  split; [reflexivity|]. split; [exact H|]. split.
  - rewrite H. unfold MAX_STORED_HASHES. lia.
  - vm_compute. reflexivity.
Qed.

(** C8: when the write succeeds, the file holds the last
    [MAX_STORED_HASHES] entries of the ledger in order; and for a ledger
    within the cap that is the whole ledger, and a load from that file gives
    back the same set in the same order. *)
Theorem snapshot_round_trip (env : Env) (s : State) :
  fs_writeFileSync env
    (trace s ++ [EvWriteFile (slice_last MAX_STORED_HASHES (sentMessageHashes s))])
    = Ok tt ->
  let (r, s1) := saveSentMessages env s in
  disk s1 = FileJson (slice_last MAX_STORED_HASHES (sentMessageHashes s))
  /\ (ledger_ok (sentMessageHashes s) ->
      disk s1 = FileJson (sentMessageHashes s)
      /\ forall s2,
          disk s2 = disk s1 ->
          sentMessageHashes (snd (loadSentMessages s2)) = sentMessageHashes s).
Proof.
  intros Hw. destruct (save_then_load env s Hw) as [Hdisk Hload].
  destruct (saveSentMessages env s) as [r s1]. cbn [snd] in *.
  split; [assumption|]. intros [Hn Hl].
  rewrite (slice_last_all _ _ Hl) in *. split; [assumption|].
  intros s2 Hd. rewrite (Hload s2 Hd). now apply new_Set_fresh.
Qed.

Lemma snapshot_round_trip_witness :
  let (r, s1) := saveSentMessages env_up full_state in
  disk s1 = FileJson (slice_last MAX_STORED_HASHES (sentMessageHashes full_state))
  /\ disk s1 = FileJson (sentMessageHashes full_state)
  /\ sentMessageHashes (snd (loadSentMessages (initial_state (disk s1) 7)))
     = sentMessageHashes full_state.
Proof.
  pose proof (snapshot_round_trip env_up full_state eq_refl) as H.
  destruct (saveSentMessages env_up full_state) as [r s1].
  destruct H as [H1 H2]. split; [exact H1|].
  assert (Hok : ledger_ok (sentMessageHashes full_state)).
  { split.
    - apply nodupb_NoDup. vm_compute. reflexivity.
    - apply Nat.leb_le. vm_compute. reflexivity. }
  destruct (H2 Hok) as [H3 H4]. split; [exact H3|].
  apply H4. reflexivity.
Defined.

End Tick.

(** ** Overlapping calls of [pollSMSAPI] *)

Module SingleFlight.
Import MonadFacts WP Tick.

Lemma poll_enter_busy (s : State) :
  isPolling s = true -> poll_enter s = (Ok false, s).
Proof.
  intros H. unfold poll_enter, bind, get, ret. cbv beta iota. now rewrite H.
Qed.

Lemma poll_enter_free (s : State) :
  isPolling s = false ->
  poll_enter s
  = (Ok true, set_pollCount (S (pollCount s)) (set_isPolling true s)).
Proof.
  intros H. unfold poll_enter, bind, get, modify, ret. cbv beta iota.
  now rewrite H.
Qed.

Lemma sched_step_inv (pieces : list (M unit)) (ev : SchedEvent) (c : Sched) :
  Forall keeps_flag pieces -> sched_inv c -> sched_inv (sched_step pieces ev c).
Proof.
  intros Hp [[Hflag Hnone] | [Hflag (rest & Hone & Hrest)]];
    destruct ev as [|i]; simpl.
  - rewrite (poll_enter_free _ Hflag), Hnone. right. simpl.
    split; [reflexivity|]. now exists pieces.
  - rewrite Hnone. destruct i; simpl; left; auto.
  - rewrite (poll_enter_busy _ Hflag). right. simpl.
    split; [assumption|]. now exists rest.
  - rewrite Hone. destruct i as [|i]; simpl.
    + destruct rest as [|piece rest'].
      * left. simpl. auto.
      * inversion Hrest as [|? ? Hpiece Hrest']; subst.
        specialize (Hpiece (st c)).
        destruct (piece (st c)) as [[u|e] s']; simpl in *.
        -- right. simpl. split; [congruence|]. now exists rest'.
        -- left. simpl. auto.
    + destruct i; simpl; right; (split; [assumption|]); now exists rest.
Qed.

Lemma sched_run_inv (pieces : list (M unit)) (evs : list SchedEvent) :
  forall c,
    Forall keeps_flag pieces -> sched_inv c ->
    sched_inv (sched_run pieces evs c).
Proof.
  induction evs as [|ev evs IH]; intros c Hp Hc; simpl; [assumption|].
  apply IH; [assumption|]. now apply sched_step_inv.
Qed.

(** A call that nothing interrupts is the function [poll_guard]. *)
Lemma sched_run_alone (body : M unit) (s : State) :
  isPolling s = false ->
  sched_run [body] [TimerFires; Resume 0; Resume 0] (mkSched s [])
  = mkSched (snd (poll_guard body s)) [].
Proof.
  intros H. unfold poll_guard, bind. simpl.
  rewrite (poll_enter_free _ H). simpl.
  unfold poll_protected, try_finally, try_catch, ret.
  destruct (body _) as [[u|e] s']; reflexivity.
Qed.

(** C7: a call of [pollSMSAPI] that finds the flag up returns at once and
    leaves the state as it was; a call that finds it down returns with the
    flag down whatever its [try] block did, thrown or not; and however the
    timer and the pieces of the calls in flight interleave, at most one call
    is ever inside its [try] block, a timer call arriving meanwhile changes
    nothing. *)
Theorem polling_is_single_flight
  (config : Config) (env : Env) (md5_hex : string -> string) :
  (forall s,
      isPolling s = true -> pollSMSAPI config env md5_hex s = (Ok tt, s))
  /\
  (forall (body : M unit) s,
      isPolling s = false ->
      let (r, s') := poll_guard body s in r = Ok tt /\ isPolling s' = false)
  /\
  (forall (pieces : list (M unit)) (evs : list SchedEvent) (s0 : State),
      Forall keeps_flag pieces ->
      isPolling s0 = false ->
      let c := sched_run pieces evs (mkSched s0 []) in
      List.length (inflight c) <= 1
      /\ (isPolling (st c) = true <-> List.length (inflight c) = 1)
      /\ (inflight c <> [] -> sched_step pieces TimerFires c = c)).
Proof.
  split; [|split].
  - intros s. apply pollSMSAPI_busy.
  - intros body s H. unfold poll_guard, bind.
    rewrite (poll_enter_free _ H).
    unfold poll_protected, try_finally, try_catch, ret.
    destruct (body _) as [[u|e] s']; [destruct u|]; split; reflexivity.
  - intros pieces evs s0 Hp H0. cbv zeta.
    assert (Hinv : sched_inv (sched_run pieces evs (mkSched s0 []))).
    { apply sched_run_inv; [assumption|]. left. simpl. auto. }
    set (c := sched_run pieces evs (mkSched s0 [])) in *.
    destruct Hinv as [[Hflag Hnone] | [Hflag (rest & Hone & _)]].
    + rewrite Hnone, Hflag. simpl. repeat split; try lia; try discriminate.
      intros H. now contradiction H.
    + rewrite Hone, Hflag. simpl. repeat split; try lia.
      intros _. rewrite (poll_enter_busy _ Hflag). destruct c. simpl in *.
      now subst.
Qed.

Lemma polling_is_single_flight_witness :
  pollSMSAPI example_config env_up example_digest
             (set_isPolling true (initial_state FileAbsent 0))
  = (Ok tt, set_isPolling true (initial_state FileAbsent 0))
  /\ (let (r, s') :=
        poll_guard (throw "boom") (initial_state FileAbsent 0) in
      r = Ok tt /\ isPolling s' = false)
  /\ (let c := sched_run [poll_body example_config env_up example_digest]
                         [TimerFires; TimerFires; Resume 0; TimerFires; Resume 0;
                          TimerFires; Resume 0; TimerFires]
                         (mkSched (initial_state FileAbsent 0) []) in
      List.length (inflight c) <= 1
      /\ (isPolling (st c) = true <-> List.length (inflight c) = 1)
      /\ (inflight c <> [] ->
          sched_step [poll_body example_config env_up example_digest]
                     TimerFires c = c)).
Proof.
  destruct (polling_is_single_flight example_config env_up example_digest)
    as (Hbusy & Hflag & Hsched).
  split; [|split].
  - apply Hbusy. reflexivity.
  - apply (Hflag (throw "boom") (initial_state FileAbsent 0)). reflexivity.
  - apply Hsched.
    + constructor; [apply poll_body_keeps_flag | constructor].
    + reflexivity.
Defined.

End SingleFlight.

(** ** Numbers and numerals *)

Module Numbers.

Lemma two_53 : (2 ^ 53 = 9007199254740992)%N.
Proof. reflexivity. Qed.

Lemma nearest_double_small (n : N) :
  (n <= 2 ^ 53)%N -> nearest_double n = Some n.
Proof.
  intros H. unfold nearest_double. now rewrite (proj2 (N.leb_le _ _) H).
Qed.

(** Up to [2^53] the number for an integer is that integer. *)
Lemma Number_of_N_small (n : N) :
  (n <= 2 ^ 53)%N -> Number_of_Z (Z.of_N n) = Finite (Z.of_N n).
Proof.
  intros H. unfold Number_of_Z.
  rewrite Zabs2N.id, (nearest_double_small n H).
  now rewrite (proj2 (Z.ltb_ge _ _) (N2Z.is_nonneg n)).
Qed.

Lemma Number_add_small (a b : N) :
  (a + b <= MAX_SAFE_INTEGER)%N ->
  Number_add (Number_of_Z (Z.of_N a)) (Number_of_Z (Z.of_N b))
  = Finite (Z.of_N (a + b)).
Proof.
  unfold MAX_SAFE_INTEGER. rewrite two_53. intros H.
  rewrite !Number_of_N_small by (rewrite two_53; lia).
  unfold Number_add. rewrite <- N2Z.inj_add.
  apply Number_of_N_small. rewrite two_53. lia.
Qed.

Lemma digit_range (c : jschar) : is_digit c = true <-> (48 <= c <= 57)%N.
Proof.
  unfold is_digit. rewrite andb_true_iff, !N.leb_le. tauto.
Qed.

Lemma take_while_forallb p s : forallb p s = true -> take_while p s = s.
Proof.
  induction s as [|c s IH]; simpl; [reflexivity|].
  intros H. apply andb_prop in H as [Hc Hs]. now rewrite Hc, IH.
Qed.

(** On a run of digits [parseInt] is the number for its decimal value. *)
Lemma parseInt_digits (ds : jsstring) :
  ds <> [] -> forallb is_digit ds = true ->
  parseInt ds = Number_of_Z (Z.of_N (decimal_value ds)).
Proof.
  intros Hne Hd. destruct ds as [|c r]; [congruence|].
  pose proof Hd as Hall. cbn [forallb] in Hd.
  apply andb_prop in Hd as [Hc Hr].
  pose proof (proj1 (digit_range c) Hc) as Rc.
  unfold parseInt. cbn [drop_while].
  assert (Hs : is_space c = false).
  { assert (C : (c = 48 \/ c = 49 \/ c = 50 \/ c = 51 \/ c = 52 \/ c = 53
                 \/ c = 54 \/ c = 55 \/ c = 56 \/ c = 57)%N) by lia.
    destruct C as [->|[->|[->|[->|[->|[->|[->|[->|[->| ->]]]]]]]]];
      reflexivity. }
  rewrite Hs. cbv zeta.
  assert (Hm : (c =? minus_sign)%N = false)
    by (apply N.eqb_neq; unfold minus_sign; lia).
  assert (Hp : (c =? plus_sign)%N = false)
    by (apply N.eqb_neq; unfold plus_sign; lia).
  rewrite Hm, Hp. cbn [orb].
  assert (Hx : match c :: r with
               | c0 :: c1 :: _ =>
                   ((c0 =? zero_digit)
                    && ((c1 =? small_x) || (c1 =? capital_x)))%N
               | _ => false
               end = false).
  { destruct r as [|c1 r']; [reflexivity|].
    cbn [forallb] in Hr. apply andb_prop in Hr as [Hc1 _].
    apply digit_range in Hc1.
    replace (c1 =? small_x)%N with false
      by (symmetry; apply N.eqb_neq; unfold small_x; lia).
    replace (c1 =? capital_x)%N with false
      by (symmetry; apply N.eqb_neq; unfold capital_x; lia).
    apply andb_false_r. }
  rewrite Hx. rewrite (take_while_forallb _ _ Hall). reflexivity.
Qed.

Lemma uint_units_digits (d : Decimal.uint) :
  forallb is_digit (uint_units d) = true.
Proof. induction d; simpl; auto. Qed.

Lemma decimal_value_acc (d : Decimal.uint) :
  forall acc,
    fold_left (fun acc c => (10 * acc + digit_value c)%N) (uint_units d)
              (N.pos acc)
    = N.pos (Pos.of_uint_acc d acc).
Proof.
  induction d; intros acc; cbn [uint_units NilEmpty.string_of_uint
    list_ascii_of_string map fold_left Pos.of_uint_acc]; [reflexivity|..];
    fold (uint_units d);
    match goal with
    | |- fold_left _ _ ?x = _ =>
        match goal with
        | |- _ = N.pos (Pos.of_uint_acc _ ?y) =>
            replace x with (N.pos y)
              by (unfold digit_value; cbn [N_of_ascii N_of_digits]; lia)
        end
    end; apply IHd.
Qed.

(** The decimal value of the digits of [d] is the number [d] denotes. *)
Lemma decimal_value_uint (d : Decimal.uint) :
  decimal_value (uint_units d) = N.of_uint d.
Proof.
  unfold decimal_value.
  induction d; cbn [uint_units NilEmpty.string_of_uint
    list_ascii_of_string map fold_left]; [reflexivity|..];
    fold (uint_units d);
    [exact IHd|..];
    match goal with
    | |- fold_left _ _ ?x = N.of_uint ?u =>
        let p := eval cbv in x in
        change x with p; apply decimal_value_acc
    end.
Qed.

Lemma numeral_units (d : Decimal.uint) :
  d <> Decimal.Nil ->
  map N_of_ascii (list_ascii_of_string (NilZero.string_of_uint d))
  = uint_units d.
Proof. destruct d; [congruence|..]; reflexivity. Qed.

(** Reading back the numeral of [n] gives [n]. *)
Lemma decimal_value_numeral (n : N) : decimal_value (numeral n) = n.
Proof.
  unfold numeral, decimal.
  rewrite <- (DecimalN.Unsigned.of_to n) at 2.
  destruct (N.to_uint n) eqn:E; try (rewrite numeral_units by discriminate;
                                     apply decimal_value_uint).
  reflexivity.
Qed.

Lemma numeral_digits (n : N) : forallb is_digit (numeral n) = true.
Proof.
  unfold numeral, decimal.
  destruct (N.to_uint n) eqn:E; try (rewrite numeral_units by discriminate;
                                     apply uint_units_digits).
  reflexivity.
Qed.

Lemma numeral_not_empty (n : N) : numeral n <> [].
Proof. unfold numeral, decimal. now destruct (N.to_uint n). Qed.

Lemma decimal_value_zeros (k : nat) (ds : jsstring) :
  decimal_value (repeat zero_digit k ++ ds) = decimal_value ds.
Proof.
  unfold decimal_value. rewrite fold_left_app. f_equal.
  induction k as [|k IH]; [reflexivity|]. exact IH.
Qed.

Lemma zeros_digits (k : nat) : forallb is_digit (repeat zero_digit k) = true.
Proof. induction k; simpl; auto. Qed.

(** Every run of digits is the digits of some [Decimal.uint]. *)
Lemma digits_are_units (ds : jsstring) :
  forallb is_digit ds = true -> exists d, uint_units d = ds.
Proof.
  induction ds as [|c r IH]; intros H.
  - now exists Decimal.Nil.
  - cbn [forallb] in H. apply andb_prop in H as [Hc Hr].
    destruct (IH Hr) as [d <-]. apply digit_range in Hc.
    assert (C : (c = 48 \/ c = 49 \/ c = 50 \/ c = 51 \/ c = 52 \/ c = 53
                 \/ c = 54 \/ c = 55 \/ c = 56 \/ c = 57)%N) by lia.
    destruct C as [->|[->|[->|[->|[->|[->|[->|[->|[->| ->]]]]]]]]].
    + now exists (Decimal.D0 d).
    + now exists (Decimal.D1 d).
    + now exists (Decimal.D2 d).
    + now exists (Decimal.D3 d).
    + now exists (Decimal.D4 d).
    + now exists (Decimal.D5 d).
    + now exists (Decimal.D6 d).
    + now exists (Decimal.D7 d).
    + now exists (Decimal.D8 d).
    + now exists (Decimal.D9 d).
Qed.

(** A run of digits that does not begin with a zero is the numeral of its
    value. *)
Lemma numeral_of_value (c : jschar) (r : jsstring) :
  c <> zero_digit -> forallb is_digit (c :: r) = true ->
  numeral (decimal_value (c :: r)) = c :: r.
Proof.
  intros Hc Hd. destruct (digits_are_units _ Hd) as [d E].
  rewrite <- E, decimal_value_uint. unfold numeral, decimal.
  rewrite DecimalN.Unsigned.to_of.
  destruct d; try discriminate E;
    try (cbn [Decimal.unorm Decimal.nzhead]; apply numeral_units; discriminate).
  exfalso. apply Hc. now injection E.
Qed.

(** Every run of digits is zeros followed by the numeral of its value. *)
Lemma digits_are_numeral (ds : jsstring) :
  ds <> [] -> forallb is_digit ds = true ->
  exists k, ds = repeat zero_digit k ++ numeral (decimal_value ds).
Proof.
  induction ds as [|c r IH]; intros Hne Hd; [congruence|].
  destruct (N.eq_dec c zero_digit) as [->|Hc].
  - destruct r as [|c' r'].
    + now exists 0.
    + cbn [forallb] in Hd. apply andb_prop in Hd as [_ Hr].
      destruct (IH ltac:(discriminate) Hr) as [k Hk].
      exists (S k).
      change (zero_digit :: c' :: r') with (repeat zero_digit 1 ++ c' :: r').
      rewrite decimal_value_zeros. cbn [repeat app]. now rewrite <- Hk.
  - exists 0. now rewrite numeral_of_value.
Qed.

End Numbers.

(** ** The challenge solver *)

Module Captcha.
Import Numbers.

Lemma take_drop_while p s : take_while p s ++ drop_while p s = s.
Proof.
  induction s as [|c s IH]; simpl; [reflexivity|].
  destruct (p c); simpl; [now rewrite IH | reflexivity].
Qed.

Lemma take_while_all p s : forallb p (take_while p s) = true.
Proof.
  induction s as [|c s IH]; simpl; [reflexivity|].
  destruct (p c) eqn:E; simpl; [now rewrite E | reflexivity].
Qed.

Lemma drop_while_stops p s : stops p (drop_while p s).
Proof.
  induction s as [|c s IH]; simpl; [exact I|].
  destruct (p c) eqn:E; [exact IH | exact E].
Qed.

Lemma take_while_app p a rest :
  forallb p a = true -> take_while p (a ++ rest) = a ++ take_while p rest.
Proof.
  induction a as [|c a IH]; simpl; [reflexivity|].
  intros H%andb_prop. destruct H as [Hc Ha]. rewrite Hc. now rewrite IH.
Qed.

Lemma drop_while_app p a rest :
  forallb p a = true -> drop_while p (a ++ rest) = drop_while p rest.
Proof.
  induction a as [|c a IH]; simpl; [reflexivity|].
  intros H%andb_prop. destruct H as [Hc Ha]. rewrite Hc. now apply IH.
Qed.

Lemma take_while_stops p rest : stops p rest -> take_while p rest = [].
Proof. destruct rest as [|c r]; simpl; [reflexivity|]. now intros ->. Qed.

Lemma drop_while_id p rest : stops p rest -> drop_while p rest = rest.
Proof. destruct rest as [|c r]; simpl; [reflexivity|]. now intros ->. Qed.

(** The three character classes of the pattern exclude one another. *)

Lemma digit_not_space c : is_digit c = true -> is_space c = false.
Proof.
  unfold is_digit. intros H%andb_prop. destruct H as [H1 H2].
  apply N.leb_le in H1, H2.
  assert (Hc : (c = 48 \/ c = 49 \/ c = 50 \/ c = 51 \/ c = 52 \/ c = 53
                \/ c = 54 \/ c = 55 \/ c = 56 \/ c = 57)%N) by lia.
  repeat (destruct Hc as [->|Hc]; [reflexivity|]). now subst.
Qed.

Lemma space_not_digit c : is_space c = true -> is_digit c = false.
Proof.
  intros H. destruct (is_digit c) eqn:E; [|reflexivity].
  apply digit_not_space in E. congruence.
Qed.

Lemma plus_not_digit : is_digit plus_sign = false.
Proof. reflexivity. Qed.

Lemma plus_not_space : is_space plus_sign = false.
Proof. reflexivity. Qed.

Lemma spaces_then_plus_stop_digits w r :
  forallb is_space w = true -> stops is_digit (w ++ plus_sign :: r).
Proof.
  destruct w as [|c w]; simpl; [intros _; reflexivity|].
  intros H%andb_prop. destruct H as [Hc _]. now apply space_not_digit.
Qed.

Lemma digits_stop_spaces d r :
  d <> [] -> forallb is_digit d = true -> stops is_space (d ++ r).
Proof.
  destruct d as [|c d]; [congruence|]. simpl.
  intros _ H%andb_prop. destruct H as [Hc _]. now apply digit_not_space.
Qed.

(** What [match_here] returns is an occurrence of the pattern at the start,
    the second operand running as far as the digits go. *)
Lemma match_here_sound s d1 d2 :
  match_here s = Some (d1, d2) ->
  exists post, pattern_at s d1 d2 post /\ stops is_digit post.
Proof.
  unfold match_here. cbv zeta.
  pose proof (take_drop_while is_digit s) as E1.
  pose proof (take_while_all is_digit s) as A1.
  destruct (take_while is_digit s) as [|c1 t1] eqn:T1; [discriminate|].
  pose proof (take_drop_while is_space (drop_while is_digit s)) as E2.
  pose proof (take_while_all is_space (drop_while is_digit s)) as A2.
  destruct (drop_while is_space (drop_while is_digit s)) as [|c r] eqn:D2;
    [discriminate|].
  destruct (N.eqb_spec c plus_sign) as [->|]; [|discriminate].
  pose proof (take_drop_while is_space r) as E3.
  pose proof (take_while_all is_space r) as A3.
  pose proof (take_drop_while is_digit (drop_while is_space r)) as E4.
  pose proof (take_while_all is_digit (drop_while is_space r)) as A4.
  pose proof (drop_while_stops is_digit (drop_while is_space r)) as S4.
  destruct (take_while is_digit (drop_while is_space r)) as [|c2 t2] eqn:T4;
    [discriminate|].
  intros [= <- <-].
  exists (drop_while is_digit (drop_while is_space r)).
  split; [|exact S4].
  exists (take_while is_space (drop_while is_digit s)), (take_while is_space r).
  repeat split; try assumption; try discriminate.
  rewrite E4, E3. simpl. rewrite E2. exact (eq_sym E1).
Qed.

(** At an occurrence of the pattern [match_here] succeeds, with the first
    operand of the occurrence and the second one extended by the digits
    that follow. *)
Lemma match_here_complete s e1 e2 post :
  pattern_at s e1 e2 post ->
  match_here s = Some (e1, e2 ++ take_while is_digit post).
Proof.
  intros (w1 & w2 & -> & N1 & N2 & D1 & D2 & W1 & W2).
  unfold match_here. cbv zeta.
  rewrite (take_while_app _ _ _ D1), (drop_while_app _ _ _ D1).
  simpl app.
  rewrite (take_while_stops _ _ (spaces_then_plus_stop_digits w1 _ W1)).
  rewrite (drop_while_id _ _ (spaces_then_plus_stop_digits w1 _ W1)).
  rewrite app_nil_r. destruct e1 as [|c1 t1]; [congruence|].
  rewrite (drop_while_app _ _ _ W1). cbn [drop_while].
  rewrite plus_not_space, N.eqb_refl.
  rewrite (drop_while_app _ _ _ W2).
  rewrite (drop_while_id _ _ (digits_stop_spaces e2 post N2 D2)).
  rewrite (take_while_app _ _ _ D2).
  destruct e2 as [|c2 t2]; [congruence|]. reflexivity.
Qed.

Lemma match_here_none s e1 e2 post :
  match_here s = None -> ~ pattern_at s e1 e2 post.
Proof.
  intros H Hp. apply match_here_complete in Hp. congruence.
Qed.

Lemma regex_match_sound s :
  forall d1 d2, regex_match s = Some (d1, d2) -> leftmost_operands s d1 d2.
Proof.
  induction s as [|c s IH]; intros d1 d2; simpl.
  - destruct (match_here []) eqn:E; [discriminate E | discriminate].
  - destruct (match_here (c :: s)) as [[m1 m2]|] eqn:E.
    + intros [= <- <-]. apply match_here_sound in E as (post & Hp & Hs).
      exists [], (c :: s), post. repeat split; try assumption.
      intros pre' rest' e1 e2 post' _ Hlt. simpl in Hlt. lia.
    + intros H. apply IH in H as (pre & rest & post & -> & Hp & Hs & Hleft).
      exists (c :: pre), rest, post. repeat split; try assumption.
      intros pre' rest' e1 e2 post' Heq Hlt.
      destruct pre' as [|c' pre'']; simpl in Heq.
      * subst rest'. now apply match_here_none.
      * injection Heq as _ Heq. apply (Hleft pre'' rest' e1 e2 post' Heq).
        simpl in Hlt. lia.
Qed.

Lemma regex_match_none s : regex_match s = None <-> ~ matches_pattern s.
Proof.
  split.
  - induction s as [|c s IH]; simpl.
    + intros _ (pre & rest & d1 & d2 & post & Heq & Hp).
      symmetry in Heq. apply app_eq_nil in Heq as [_ ->].
      destruct Hp as (w1 & w2 & Hp & N1 & _).
      destruct d1; [congruence | discriminate].
    + destruct (match_here (c :: s)) as [m|] eqn:E; [discriminate|].
      intros H (pre & rest & d1 & d2 & post & Heq & Hp).
      destruct pre as [|c' pre']; simpl in Heq.
      * subst rest. now apply (match_here_none _ _ _ _ E) in Hp.
      * injection Heq as _ Heq. apply (IH H).
        now exists pre', rest, d1, d2, post.
  - intros Hno. destruct (regex_match s) as [[d1 d2]|] eqn:E; [|reflexivity].
    exfalso. apply Hno. apply regex_match_sound in E.
    destruct E as (pre & rest & post & Heq & Hp & _).
    now exists pre, rest, d1, d2, post.
Qed.

Lemma regex_match_complete s d1 d2 :
  leftmost_operands s d1 d2 -> regex_match s = Some (d1, d2).
Proof.
  intros (pre & rest & post & -> & Hp & Hs & Hleft).
  induction pre as [|c pre IH].
  - simpl app. apply match_here_complete in Hp.
    rewrite (take_while_stops _ _ Hs), app_nil_r in Hp.
    destruct rest as [|c r]; [discriminate Hp|].
    cbn [regex_match]. now rewrite Hp.
  - cbn [app regex_match].
    destruct (match_here (c :: pre ++ rest)) as [[m1 m2]|] eqn:E.
    + exfalso. apply match_here_sound in E as (post' & Hp' & _).
      apply (Hleft [] (c :: pre ++ rest) m1 m2 post'); [reflexivity | simpl; lia |].
      exact Hp'.
    + apply IH. intros pre' rest' e1 e2 post' Heq Hlt.
      apply (Hleft (c :: pre') rest' e1 e2 post'); [simpl; now rewrite Heq|].
      simpl. lia.
Qed.

Lemma regex_match_some s : regex_match s <> None <-> matches_pattern s.
Proof.
  split.
  - intros H. destruct (regex_match s) as [[d1 d2]|] eqn:E; [|congruence].
    apply regex_match_sound in E. destruct E as (pre & rest & post & Heq & Hp & _).
    now exists pre, rest, d1, d2, post.
  - intros Hm E. now apply regex_match_none in E.
Qed.

(** White space around the text does not change the match, so [trim]
    does not either. *)

Lemma drop_while_all p ws : forallb p ws = true -> drop_while p ws = [].
Proof.
  induction ws as [|c ws IH]; simpl; [reflexivity|].
  intros H%andb_prop. destruct H as [Hc Hw]. rewrite Hc. now apply IH.
Qed.

Lemma spaces_stop_digits ws : forallb is_space ws = true -> stops is_digit ws.
Proof.
  destruct ws as [|c ws]; simpl; [intros _; exact I|].
  intros H%andb_prop. destruct H as [Hc _]. now apply space_not_digit.
Qed.

Lemma take_digits_before_spaces a ws :
  forallb is_space ws = true ->
  take_while is_digit (a ++ ws) = take_while is_digit a.
Proof.
  intros Hw. induction a as [|c a IH]; simpl.
  - apply take_while_stops. now apply spaces_stop_digits.
  - destruct (is_digit c); [now rewrite IH | reflexivity].
Qed.

Lemma drop_digits_before_spaces a ws :
  forallb is_space ws = true ->
  drop_while is_digit (a ++ ws) = drop_while is_digit a ++ ws.
Proof.
  intros Hw. induction a as [|c a IH]; simpl.
  - apply drop_while_id. now apply spaces_stop_digits.
  - destruct (is_digit c); [exact IH | reflexivity].
Qed.

Lemma drop_spaces_before_spaces x ws :
  forallb is_space ws = true ->
  drop_while is_space (x ++ ws) =
    match drop_while is_space x with
    | [] => []
    | c :: r => (c :: r) ++ ws
    end.
Proof.
  intros Hw. induction x as [|c x IH]; simpl.
  - now apply drop_while_all.
  - destruct (is_space c); [exact IH | reflexivity].
Qed.

Lemma match_here_before_spaces a ws :
  forallb is_space ws = true -> match_here (a ++ ws) = match_here a.
Proof.
  intros Hw. unfold match_here. cbv zeta.
  rewrite (take_digits_before_spaces _ _ Hw), (drop_digits_before_spaces _ _ Hw).
  destruct (take_while is_digit a) as [|c1 t1]; [reflexivity|].
  rewrite (drop_spaces_before_spaces _ _ Hw).
  destruct (drop_while is_space (drop_while is_digit a)) as [|c r]; [reflexivity|].
  cbn [app]. destruct (c =? plus_sign)%N; [|reflexivity].
  rewrite (drop_spaces_before_spaces _ _ Hw).
  destruct (drop_while is_space r) as [|c' r']; [reflexivity|].
  now rewrite (take_digits_before_spaces _ _ Hw).
Qed.

Lemma regex_match_before_spaces a ws :
  forallb is_space ws = true -> regex_match (a ++ ws) = regex_match a.
Proof.
  intros Hw. induction a as [|c a IH].
  - simpl app. induction ws as [|w ws IHw]; [reflexivity|].
    simpl in Hw. apply andb_prop in Hw as [Hc Hws].
    cbn [regex_match]. unfold match_here at 1. cbv zeta. cbn [take_while].
    rewrite (space_not_digit _ Hc). now apply IHw.
  - cbn [app regex_match].
    change (c :: a ++ ws) with ((c :: a) ++ ws).
    rewrite (match_here_before_spaces _ _ Hw).
    destruct (match_here (c :: a)); [reflexivity | exact IH].
Qed.

Lemma regex_match_after_spaces s :
  regex_match (drop_while is_space s) = regex_match s.
Proof.
  induction s as [|c s IH]; [reflexivity|].
  cbn [drop_while]. destruct (is_space c) eqn:Hc; [|reflexivity].
  rewrite IH. cbn [regex_match]. unfold match_here at 1. cbv zeta.
  cbn [take_while]. now rewrite (space_not_digit _ Hc).
Qed.

Lemma forallb_rev {A} (p : A -> bool) (l : list A) :
  forallb p l = true -> forallb p (rev l) = true.
Proof.
  rewrite !forallb_forall. intros H x Hin. apply H. now apply in_rev.
Qed.

Lemma regex_match_trim s : regex_match (trim s) = regex_match s.
Proof.
  unfold trim. rewrite <- (regex_match_after_spaces s).
  set (t := drop_while is_space s).
  rewrite <- (regex_match_before_spaces
                (rev (drop_while is_space (rev t)))
                (rev (take_while is_space (rev t)))).
  - rewrite <- rev_app_distr, take_drop_while, rev_involutive. reflexivity.
  - apply forallb_rev, take_while_all.
Qed.

Lemma captcha_scan_skips (before rest : list jsstring) :
  (forall e, In e before -> ~ matches_pattern e) ->
  captcha_scan (before ++ rest) = captcha_scan rest.
Proof.
  induction before as [|e before IH]; intros H; [reflexivity|].
  cbn [app captcha_scan]. cbv zeta. rewrite regex_match_trim.
  rewrite (proj2 (regex_match_none e)) by (apply H; now left).
  apply IH. intros e' He'. apply H. now right.
Qed.

(** C9: the scan is a function of the texts of the page's elements alone.
    When no element's text contains the pattern it returns [null]; otherwise
    it takes the two operands of the leftmost occurrence in the first
    element that has one, each a run of digits, that is the decimal numeral
    of some [a], of some [b], behind zeros if any, and returns the number
    for [a] plus the number for [b], which is the integer [a + b] when that
    is at most [MAX_SAFE_INTEGER]; and [solveMathCaptcha] returns what the
    scan returns on the texts the page hands over. *)
Theorem challenge_solver_adds_operands :
  (forall labels,
      (forall el, In el labels -> ~ matches_pattern el) ->
      captcha_scan labels = None)
  /\
  (forall before el after k1 a k2 b,
      (forall e, In e before -> ~ matches_pattern e) ->
      leftmost_operands el (repeat zero_digit k1 ++ numeral a)
                           (repeat zero_digit k2 ++ numeral b) ->
      captcha_scan (before ++ el :: after)
      = Some (Number_add (Number_of_Z (Z.of_N a)) (Number_of_Z (Z.of_N b)))
      /\ ((a + b <= MAX_SAFE_INTEGER)%N ->
          captcha_scan (before ++ el :: after) = Some (Finite (Z.of_N (a + b)))))
  /\
  (forall el,
      matches_pattern el ->
      exists d1 d2 k1 a k2 b,
        leftmost_operands el d1 d2
        /\ d1 = repeat zero_digit k1 ++ numeral a
        /\ d2 = repeat zero_digit k2 ++ numeral b)
  /\
  (forall env s p labels,
      page s = Some p ->
      page_evaluate_captcha env (trace s ++ [EvEvaluate ScriptCaptcha]) = Ok labels ->
      fst (solveMathCaptcha env s) = Ok (captcha_scan labels)).
Proof.
  split; [|split; [|split]].
  - intros labels H.
    rewrite <- (app_nil_r labels). now rewrite captcha_scan_skips.
  - intros before el after k1 a k2 b Hbefore Hleft.
    assert (E : captcha_scan (before ++ el :: after)
                = Some (Number_add (Number_of_Z (Z.of_N a))
                                   (Number_of_Z (Z.of_N b)))).
    { rewrite (captcha_scan_skips _ _ Hbefore). cbn [captcha_scan]. cbv zeta.
      rewrite regex_match_trim, (regex_match_complete _ _ _ Hleft).
      destruct Hleft as (pre & rest & post & _ & Hpat & _).
      destruct Hpat as (w1 & w2 & _ & Hn1 & Hn2 & Hd1 & Hd2 & _).
      rewrite (parseInt_digits _ Hn1 Hd1), (parseInt_digits _ Hn2 Hd2).
      now rewrite !decimal_value_zeros, !decimal_value_numeral. }
    split; [exact E|]. intros Hsafe. now rewrite E, Number_add_small.
  - intros el Hm. destruct (regex_match el) as [[d1 d2]|] eqn:E.
    + apply regex_match_sound in E.
      pose proof E as (pre & rest & post & _ & Hpat & _).
      destruct Hpat as (w1 & w2 & _ & Hn1 & Hn2 & Hd1 & Hd2 & _).
      destruct (digits_are_numeral d1 Hn1 Hd1) as [k1 E1].
      destruct (digits_are_numeral d2 Hn2 Hd2) as [k2 E2].
      exists d1, d2, k1, (decimal_value d1), k2, (decimal_value d2). auto.
    + apply regex_match_none in E. contradiction.
  - intros env s p labels Hp Hl.
    unfold solveMathCaptcha, on_page, bind, get, extern, ret. cbv beta iota zeta.
    rewrite Hp. cbv beta iota. now rewrite Hl.
Qed.

Lemma challenge_solver_adds_operands_witness :
  captcha_scan [code_units "Login"; code_units "User name"] = None
  /\ captcha_scan ([code_units "Login"] ++ code_units "  What is 7 + 5 ? " :: [])
     = Some (Finite 12)
  /\ captcha_scan ([] ++ code_units "007+0030=" :: [code_units "1 + 1"])
     = Some (Finite 37)
  /\ (exists d1 d2 k1 a k2 b,
         leftmost_operands (code_units "12+30=") d1 d2
         /\ d1 = repeat zero_digit k1 ++ numeral a
         /\ d2 = repeat zero_digit k2 ++ numeral b)
  /\ fst (solveMathCaptcha env_up active_state)
     = Ok (captcha_scan [code_units "Login"; code_units "  What is 7 + 5 ? "]).
Proof.
  destruct challenge_solver_adds_operands as (Hnone & Hsum & Hsome & Hpure).
  split; [|split; [|split; [|split]]].
  - apply Hnone. intros el [<-|[<-|[]]]; apply regex_match_none;
      vm_compute; reflexivity.
  - apply (Hsum [code_units "Login"] (code_units "  What is 7 + 5 ? ") []
                0 7%N 0 5%N).
    + intros e [<-|[]]. apply regex_match_none. vm_compute. reflexivity.
    + apply regex_match_sound. vm_compute. reflexivity.
    + vm_compute. discriminate.
  - apply (Hsum [] (code_units "007+0030=") [code_units "1 + 1"]
                2 7%N 2 30%N).
    + intros e [].
    + apply regex_match_sound. vm_compute. reflexivity.
    + vm_compute. discriminate.
  - apply Hsome. apply (proj1 (regex_match_some _)). vm_compute. discriminate.
  - apply (Hpure env_up active_state 2); reflexivity.
Defined.

(** C9, where the claim fails: a JavaScript number holds an integer above
    [2^53] only if it is a multiple of a power of two.  On
    [9007199254740993 + 0] the scan returns 9007199254740992 and not the
    sum, and on [9007199254740992 + 1] as well; and the sum of two operands
    of 309 digits is no integer at all. *)
Lemma challenge_sum_is_rounded :
  captcha_scan [code_units "9007199254740993 + 0"]
  = Some (Finite 9007199254740992)
  /\ captcha_scan [code_units "9007199254740992 + 1"]
     = Some (Finite 9007199254740992)
  /\ leftmost_operands (code_units "9007199254740993 + 0")
                       (numeral 9007199254740993) (numeral 0)
  /\ (9007199254740993 + 0 <> 9007199254740992)%N
  /\ captcha_scan [numeral (10 ^ 308) ++ code_units " + " ++ numeral (10 ^ 308)]
     = Some (Infinite false).
Proof.
  split; [vm_compute; reflexivity|]. split; [vm_compute; reflexivity|].
  split; [apply regex_match_sound; vm_compute; reflexivity|].
  split; [discriminate|]. vm_compute. reflexivity.
Qed.

End Captcha.

(* ================================================================== *)
(** * Further properties *)
(* ================================================================== *)

(** ** [sendToAllChannels] *)

Module Channels.
Import MonadFacts WP.

Lemma sendToAllChannels_from_run (config : Config) (env : Env) (message : string)
  (chats : list string) :
  forall results s,
  exists out,
    sendToAllChannels_from env chats message results s
      = (Ok (results ++ out), set_trace (trace s ++ channel_calls message chats) s)
    /\ map result_chatId out = chats
    /\ forall i chatId,
        nth_error chats i = Some chatId ->
        exists res,
          nth_error out i = Some res
          /\ (result_success res = true <->
              bot_sendMessage env (trace s ++ channel_calls message (firstn (S i) chats))
                = Ok tt)
          /\ (result_success res = true <-> result_error res = None).
Proof.
  induction chats as [|c chats IH]; intros results s.
  - exists []. unfold channel_calls. cbn [sendToAllChannels_from map]. unfold ret.
    rewrite !app_nil_r, Poll.set_trace_same. repeat split.
    intros [|i] chatId H; discriminate H.
  - unfold channel_calls in *. cbn [sendToAllChannels_from].
    unfold bind at 1, try_catch, bind, extern, ret. cbv zeta.
    set (tr := trace s ++ [EvSendMessage c message]).
    destruct (bot_sendMessage env tr) as [[]|e] eqn:Hsend.
    + destruct (IH (results ++ [mkSendResult c true None]) (set_trace tr s))
        as (out & Hrun & Hids & Hnth).
      exists (mkSendResult c true None :: out).
      rewrite Hrun. norm_state. unfold tr. rewrite <- !app_assoc. cbn [app map].
      split; [reflexivity|]. split; [now rewrite <- Hids|].
      intros [|i] chatId Hi.
      * injection Hi as <-. eexists. split; [reflexivity|].
        cbn [firstn map result_success result_error]. fold tr. rewrite Hsend.
        tauto.
      * destruct (Hnth i chatId Hi) as (res & Hres & Hok & Herr).
        exists res. split; [exact Hres|]. split; [|exact Herr].
        norm_state_in Hok. unfold tr in Hok.
        rewrite <- app_assoc in Hok. exact Hok.
    + destruct (IH (results ++ [mkSendResult c false (Some e)]) (set_trace tr s))
        as (out & Hrun & Hids & Hnth).
      exists (mkSendResult c false (Some e) :: out).
      rewrite Hrun. norm_state. unfold tr. rewrite <- !app_assoc. cbn [app map].
      split; [reflexivity|]. split; [now rewrite <- Hids|].
      intros [|i] chatId Hi.
      * injection Hi as <-. eexists. split; [reflexivity|].
        cbn [firstn map result_success result_error]. fold tr. rewrite Hsend.
        split; split; discriminate.
      * destruct (Hnth i chatId Hi) as (res & Hres & Hok & Herr).
        exists res. split; [exact Hres|]. split; [|exact Herr].
        norm_state_in Hok. unfold tr in Hok.
        rewrite <- app_assoc in Hok. exact Hok.
Qed.

(** X1: [sendToAllChannels] never throws and calls [bot.sendMessage] once
    for every configured chat, in the order of the configuration and with
    the same text, whatever the earlier calls answered.  It returns one
    result per chat in that order; a result says success exactly when that
    chat's call returned, and carries an error text exactly when it does
    not.  Nothing of the state but the record of calls changes. *)
Theorem sendToAllChannels_reports_every_channel
  (config : Config) (env : Env) (message : string) (s : State) :
  exists results,
    sendToAllChannels config env message s
      = (Ok results,
         set_trace (trace s ++ channel_calls message (TELEGRAM_CHAT_IDS config)) s)
    /\ map result_chatId results = TELEGRAM_CHAT_IDS config
    /\ forall i chatId,
        nth_error (TELEGRAM_CHAT_IDS config) i = Some chatId ->
        exists res,
          nth_error results i = Some res
          /\ (result_success res = true <->
              bot_sendMessage env
                (trace s ++ channel_calls message (firstn (S i) (TELEGRAM_CHAT_IDS config)))
                = Ok tt)
          /\ (result_success res = true <-> result_error res = None).
Proof.
  unfold sendToAllChannels.
  destruct (sendToAllChannels_from_run config env message
              (TELEGRAM_CHAT_IDS config) [] s) as (out & Hrun & Hids & Hnth).
  exists out. auto.
Qed.

Lemma sendToAllChannels_reports_every_channel_witness :
  exists results res,
    sendToAllChannels example_config env_up "Bot connected"
                      (initial_state FileAbsent 0)
      = (Ok results,
         set_trace (channel_calls "Bot connected" config_js_chat_ids)
                   (initial_state FileAbsent 0))
    /\ map result_chatId results = config_js_chat_ids
    /\ nth_error results 1 = Some res
    /\ result_success res = false
    /\ result_error res <> None.
Proof.
  destruct (sendToAllChannels_reports_every_channel example_config env_up
              "Bot connected" (initial_state FileAbsent 0))
    as (results & Hrun & Hids & Hnth).
  destruct (Hnth 1 "-1003151782333" eq_refl) as (res & Hres & Hok & Herr).
  exists results, res.
  split; [exact Hrun|]. split; [exact Hids|]. split; [exact Hres|].
  assert (Hfail : result_success res = false).
  { destruct (result_success res); [|reflexivity].
    pose proof (proj1 Hok eq_refl) as H. vm_compute in H. discriminate H. }
  split; [exact Hfail|].
  intros Hnone. apply Herr in Hnone. rewrite Hfail in Hnone. discriminate Hnone.
Defined.

End Channels.

(** ** The status endpoint and [performHealthCheck] *)

Module Health.
Import MonadFacts WP Frame.

Lemma performHealthCheck_rest (config : Config) (env : Env) (s : State) :
  browser s = None
  \/ (Date_now env (trace s) - lastSuccessfulPoll s <= 300000)%N ->
  performHealthCheck config env s = (Ok tt, s).
Proof.
  intros H. unfold performHealthCheck, bind, get. cbv zeta.
  destruct (browser s) as [b|]; [|reflexivity].
  destruct H as [H|H]; [discriminate|].
  apply N.ltb_ge in H. now rewrite H.
Qed.

Lemma performHealthCheck_forced (config : Config) (env : Env) (s : State) b :
  browser s = Some b ->
  (300000 < Date_now env (trace s) - lastSuccessfulPoll s)%N ->
  performHealthCheck config env s =
    (Ok tt,
     snd (initializeBrowser config env
            (set_page None
               (set_browser None (set_trace (trace s ++ [EvClose]) s))))).
Proof.
  intros Hb Hlag. apply N.ltb_lt in Hlag.
  unfold performHealthCheck, bind at 1, get. cbv zeta. rewrite Hb, Hlag.
  unfold bind at 1, close_browser, bind at 1, get. rewrite Hb.
  set (s1 := set_page None (set_browser None (set_trace (trace s ++ [EvClose]) s))).
  assert (Hinit : forall s0,
             s0 = set_trace (trace s ++ [EvClose]) s ->
             (modify (set_browser None) ;;
              modify (set_page None) ;;
              ensureBrowserActive config env ;; ret tt)%js s0
             = (Ok tt, snd (initializeBrowser config env s1))).
  { intros s0 ->. unfold bind at 1, modify at 1. unfold bind at 1, modify at 1.
    fold s1. unfold bind.
    rewrite Session.ensureBrowserActive_without_handles by (left; reflexivity).
    destruct (initializeBrowser_nothrow config env s1) as [a Ha].
    destruct (initializeBrowser config env s1) as [[a'|e] s2]; [reflexivity|].
    discriminate Ha. }
  unfold try_catch, extern, ret. cbv zeta.
  destruct (browser_close env (trace s ++ [EvClose])); exact (Hinit _ eq_refl).
Qed.

(** X2: [performHealthCheck] does nothing when there is no browser or when
    the last successful poll is at most 300000 ms old.  Otherwise it closes
    the browser, clears both handles and runs [initializeBrowser] once,
    whatever the reconnect counter says: no attempt is counted, so the
    counter ends at zero or where it was. *)
Theorem health_check_reconnects_only_when_stale
  (config : Config) (env : Env) (s : State) :
  (browser s = None
   \/ (Date_now env (trace s) - lastSuccessfulPoll s <= 300000)%N ->
   performHealthCheck config env s = (Ok tt, s))
  /\
  (forall b, browser s = Some b ->
   (300000 < Date_now env (trace s) - lastSuccessfulPoll s)%N ->
   let s1 := set_page None (set_browser None (set_trace (trace s ++ [EvClose]) s)) in
   let (r, s') := performHealthCheck config env s in
   r = Ok tt
   /\ s' = snd (initializeBrowser config env s1)
   /\ (exists new,
          trace s' = trace s ++ EvClose :: EvWhichChromium :: new
          /\ ~ In EvClose new)
   /\ (reconnectAttempts s' = 0 \/ reconnectAttempts s' = reconnectAttempts s)).
Proof.
  split; [apply performHealthCheck_rest|].
  intros b Eb Hlag.
  cbv zeta. rewrite (performHealthCheck_forced config env s b Eb Hlag).
  set (s1 := set_page None (set_browser None (set_trace (trace s ++ [EvClose]) s))).
  split; [reflexivity|]. split; [reflexivity|].
  pose proof (Session.initializeBrowser_result config env s1) as Hres.
  pose proof (Session.initializeBrowser_first_event config env s1) as Hfirst.
  pose proof (Session.initializeBrowser_no_close config env s1) as Hframe.
  unfold wp in Hres, Hfirst.
  destruct Hfirst as [new Hnew].
  destruct Hframe as (_ & _ & _ & _ & new' & Hnew' & Hinit).
  split.
  - exists new. unfold s1 in Hnew at 2. norm_state_in Hnew.
    rewrite <- app_assoc in Hnew. split; [exact Hnew|].
    assert (E : new' = EvWhichChromium :: new).
    { rewrite Hnew' in Hnew. unfold s1 in Hnew. norm_state_in Hnew.
      rewrite <- app_assoc in Hnew. apply app_inv_head in Hnew.
      cbn [app] in Hnew. now injection Hnew. }
    subst new'. cbn [forallb] in Hinit. apply andb_prop in Hinit as [_ Hinit].
    now apply Session.init_events_no_close.
  - destruct Hres as [(_ & H0 & _)|[_ Hsame]]; [now left | right].
    rewrite Hsame. reflexivity.
Qed.

Lemma health_check_reconnects_only_when_stale_witness :
  performHealthCheck example_config env_up (initial_state FileAbsent 0)
    = (Ok tt, initial_state FileAbsent 0)
  /\
  (let env := with_clock (fun _ => 400000%N) env_up in
   let s := active_state in
   let s1 := set_page None (set_browser None (set_trace (trace s ++ [EvClose]) s)) in
   let (r, s') := performHealthCheck example_config env s in
   r = Ok tt
   /\ s' = snd (initializeBrowser example_config env s1)
   /\ (exists new,
          trace s' = trace s ++ EvClose :: EvWhichChromium :: new
          /\ ~ In EvClose new)
   /\ (reconnectAttempts s' = 0 \/ reconnectAttempts s' = reconnectAttempts s)).
Proof.
  split.
  - apply (proj1 (health_check_reconnects_only_when_stale
                    example_config env_up (initial_state FileAbsent 0))).
    left. reflexivity.
  - apply (proj2 (health_check_reconnects_only_when_stale
                    example_config (with_clock (fun _ => 400000%N) env_up)
                    active_state) 1); reflexivity.
Defined.

(** X3: the status endpoint and [performHealthCheck] use the same threshold
    with different comparisons.  Whenever the endpoint answers 200 for the
    clock reading the health check would take, the health check does
    nothing.  At exactly 300000 ms the endpoint already answers 503 with
    status degraded, and the health check still does nothing.  A URL other
    than the two exact paths, a path with a query string included, gets
    404 and the text Not Found. *)
Theorem endpoint_and_health_check_thresholds
  (config : Config) (env : Env) (toISOString : N -> string)
  (url uptime : string) (now' : N) (s : State) :
  let response :=
    server_request config toISOString url (Date_now env (trace s)) now' uptime s in
  (statusCode response = 200 -> performHealthCheck config env s = (Ok tt, s))
  /\
  (url = "/health" \/ url = "/" ->
   Date_now env (trace s) = (lastSuccessfulPoll s + 300000)%N ->
   statusCode response = 503
   /\ (exists report,
          body response = JsonBody report /\ report_status report = "degraded")
   /\ performHealthCheck config env s = (Ok tt, s))
  /\
  (url <> "/health" -> url <> "/" ->
   response = mkHttpResponse 404 None (TextBody "Not Found")).
Proof.
  cbv zeta. unfold server_request, STALE_AFTER. cbv zeta.
  split; [|split].
  - destruct (String.eqb url "/health" || String.eqb url "/"); [|discriminate].
    destruct (Z.ltb_spec (Z.of_N (Date_now env (trace s))
                          - Z.of_N (lastSuccessfulPoll s)) 300000) as [Hlt|Hge];
      cbn [statusCode]; [intros _ | discriminate].
    apply performHealthCheck_rest. right. lia.
  - intros Hurl Hnow.
    assert (E : String.eqb url "/health" || String.eqb url "/" = true).
    { destruct Hurl as [-> | ->]; reflexivity. }
    rewrite E.
    destruct (Z.ltb_spec (Z.of_N (Date_now env (trace s))
                          - Z.of_N (lastSuccessfulPoll s)) 300000) as [Hlt|Hge];
      [lia|].
    cbn [statusCode body]. split; [reflexivity|].
    split; [eexists; split; reflexivity|].
    apply performHealthCheck_rest. right. lia.
  - intros H1 H2.
    apply String.eqb_neq in H1, H2. now rewrite H1, H2.
Qed.

Lemma endpoint_and_health_check_thresholds_witness :
  let env := with_clock (fun _ => 300000%N) env_up in
  let iso := fun _ : N => "2025-01-01T00:00:00.000Z" in
  performHealthCheck example_config env_down (initial_state FileAbsent 0)
    = (Ok tt, initial_state FileAbsent 0)
  /\ (statusCode (server_request example_config iso "/health" 300000 300000
                                  "12.5" active_state) = 503
      /\ (exists report,
             body (server_request example_config iso "/health" 300000 300000
                                  "12.5" active_state) = JsonBody report
             /\ report_status report = "degraded")
      /\ performHealthCheck example_config env active_state
         = (Ok tt, active_state))
  /\ server_request example_config iso "/health?probe=1" 300000 300000
                    "12.5" active_state
     = mkHttpResponse 404 None (TextBody "Not Found").
Proof.
  cbv zeta. split; [|split].
  - apply (proj1 (endpoint_and_health_check_thresholds
                    example_config env_down (fun _ => "2025-01-01T00:00:00.000Z")
                    "/health" "12.5" 0 (initial_state FileAbsent 0))).
    reflexivity.
  - apply (proj1 (proj2 (endpoint_and_health_check_thresholds
                    example_config (with_clock (fun _ => 300000%N) env_up)
                    (fun _ => "2025-01-01T00:00:00.000Z")
                    "/health" "12.5" 300000 active_state))).
    + left. reflexivity.
    + reflexivity.
  - apply (proj2 (proj2 (endpoint_and_health_check_thresholds
                    example_config (with_clock (fun _ => 300000%N) env_up)
                    (fun _ => "2025-01-01T00:00:00.000Z")
                    "/health?probe=1" "12.5" 300000 active_state)));
      intros H; discriminate H.
Defined.

End Health.

(** ** The [polling_error] listener *)

Module Retry.

Lemma listener_run_snoc evs ev l :
  listener_run (evs ++ [ev]) l = listener_step ev (listener_run evs l).
Proof. unfold listener_run. now rewrite fold_left_app. Qed.

Lemma listener_step_inv ev l : listener_inv l -> listener_inv (listener_step ev l).
Proof.
  unfold listener_inv, listener_step, polling_error_enter, polling_error_wake,
    TELEGRAM_MAX_RETRY_ATTEMPTS.
  intros Hinv. destruct (exited l) eqn:Hex; [now rewrite Hex|].
  specialize (Hinv eq_refl). destruct ev as [error|].
  - destruct (is_conflict error).
    + destruct (Nat.leb_spec 3 (S (telegramRetryAttempts l)));
        cbn [exited telegramRetryAttempts waiting]; [discriminate|].
      intros _. lia.
    + cbn [exited telegramRetryAttempts waiting]. intros _. exact Hinv.
  - destruct (waiting l) as [|w] eqn:Hw.
    + now rewrite Hex, Hw.
    + cbn [exited telegramRetryAttempts waiting]. intros _. lia.
Qed.

Lemma listener_run_inv evs : listener_inv (listener_run evs listener_start).
Proof.
  induction evs as [|ev evs IH] using rev_ind.
  - intros _. cbn. unfold TELEGRAM_MAX_RETRY_ATTEMPTS. lia.
  - rewrite listener_run_snoc. now apply listener_step_inv.
Qed.

Lemma listener_step_exit ev l code :
  exited l = None ->
  exited (listener_step ev l) = Some code ->
  code = 1
  /\ exists error,
      ev = ErrorArrives error /\ is_conflict error = true
      /\ TELEGRAM_MAX_RETRY_ATTEMPTS <= S (telegramRetryAttempts l).
Proof.
  unfold listener_step, polling_error_enter. intros Hex. rewrite Hex.
  destruct ev as [error|].
  - destruct (is_conflict error) eqn:Hc; [|cbn [exited]; discriminate].
    destruct (Nat.leb_spec TELEGRAM_MAX_RETRY_ATTEMPTS (S (telegramRetryAttempts l)));
      cbn [exited]; [|discriminate].
    intros [= <-]. split; [reflexivity|]. now exists error.
  - destruct (waiting l); [now rewrite Hex | cbn [exited]; discriminate].
Qed.

(** X4: the process is stopped by the [polling_error] listener only with
    exit code 1, and only by a conflict error (code ETELEGRAM, 409 in the
    message) that arrives while at least two earlier calls of the listener
    are still inside their 30 second wait.  While the process runs the
    counter stays below [TELEGRAM_MAX_RETRY_ATTEMPTS]. *)
Theorem exit_needs_overlapping_conflicts (evs : list ListenerEvent) (code : nat) :
  exited (listener_run evs listener_start) = Some code ->
  code = 1
  /\ exists pre error post,
      evs = pre ++ ErrorArrives error :: post
      /\ is_conflict error = true
      /\ exited (listener_run pre listener_start) = None
      /\ 2 <= waiting (listener_run pre listener_start)
      /\ telegramRetryAttempts (listener_run pre listener_start)
         < TELEGRAM_MAX_RETRY_ATTEMPTS.
Proof.
  induction evs as [|ev evs IH] using rev_ind; [discriminate|].
  rewrite listener_run_snoc.
  destruct (exited (listener_run evs listener_start)) as [c|] eqn:Hex.
  - unfold listener_step. rewrite Hex. intros H. rewrite Hex in H.
    destruct (IH H) as (Hc & pre & error & post & -> & Hconf & Hrest).
    split; [exact Hc|].
    exists pre, error, (post ++ [ev]). now rewrite <- app_assoc.
  - intros H. destruct (listener_step_exit _ _ _ Hex H) as (Hc & error & -> & Hconf & Hmax).
    split; [exact Hc|].
    exists evs, error, []. split; [reflexivity|]. split; [exact Hconf|].
    split; [exact Hex|].
    destruct (listener_run_inv evs Hex) as [Hw Hlt].
    unfold TELEGRAM_MAX_RETRY_ATTEMPTS in *. lia.
Qed.

Lemma exit_needs_overlapping_conflicts_witness :
  let conflict := mkPollingError "ETELEGRAM" "ETELEGRAM: 409 Conflict" in
  exited (listener_run [ErrorArrives conflict; ErrorArrives conflict;
                        ErrorArrives conflict] listener_start) = Some 1
  /\ (1 = 1
      /\ exists pre error post,
          [ErrorArrives conflict; ErrorArrives conflict; ErrorArrives conflict]
            = pre ++ ErrorArrives error :: post
          /\ is_conflict error = true
          /\ exited (listener_run pre listener_start) = None
          /\ 2 <= waiting (listener_run pre listener_start)
          /\ telegramRetryAttempts (listener_run pre listener_start)
             < TELEGRAM_MAX_RETRY_ATTEMPTS).
Proof.
  cbv zeta. split; [reflexivity|].
  apply (exit_needs_overlapping_conflicts
           [ErrorArrives (mkPollingError "ETELEGRAM" "ETELEGRAM: 409 Conflict");
            ErrorArrives (mkPollingError "ETELEGRAM" "ETELEGRAM: 409 Conflict");
            ErrorArrives (mkPollingError "ETELEGRAM" "ETELEGRAM: 409 Conflict")] 1).
  reflexivity.
Defined.

Lemma one_at_a_time_run (errors : list PollingError) :
  forall l,
    exited l = None -> waiting l = 0 -> telegramRetryAttempts l = 0 ->
    listener_run (one_at_a_time errors) l = l.
Proof.
  induction errors as [|error errors IH]; intros l Hex Hw Hn; [reflexivity|].
  unfold one_at_a_time. cbn [flat_map app listener_run fold_left].
  fold (listener_run (one_at_a_time errors)).
  assert (E : listener_step WaitEnds (listener_step (ErrorArrives error) l) = l).
  { unfold listener_step at 2, polling_error_enter. rewrite Hex, Hn, Hw.
    destruct (is_conflict error).
    - cbn. unfold polling_error_wake. destruct l; cbn in *; congruence.
    - cbn. destruct l; cbn in *; congruence. }
  rewrite E. now apply IH.
Qed.

(** X5: conflict errors that arrive one at a time, each after the wait of
    the one before has ended, never stop the process, however many there
    are: after every such run the counter is back at zero and no call is
    waiting.  Three conflicts with no wait ending in between do stop it. *)
Theorem spaced_conflicts_never_exit (errors : list PollingError) :
  listener_run (one_at_a_time errors) listener_start = listener_start
  /\ (forall e1 e2 e3,
        is_conflict e1 = true -> is_conflict e2 = true -> is_conflict e3 = true ->
        exited (listener_run (one_at_a_time errors
                              ++ [ErrorArrives e1; ErrorArrives e2; ErrorArrives e3])
                             listener_start) = Some 1).
Proof.
  split; [now apply one_at_a_time_run|].
  intros e1 e2 e3 H1 H2 H3.
  unfold listener_run. rewrite fold_left_app.
  fold (listener_run (one_at_a_time errors) listener_start).
  rewrite one_at_a_time_run by reflexivity.
  cbn [fold_left]. unfold listener_step, polling_error_enter.
  cbn. rewrite H1. cbn. rewrite H2. cbn. rewrite H3. reflexivity.
Qed.

Lemma spaced_conflicts_never_exit_witness :
  let conflict := mkPollingError "ETELEGRAM" "ETELEGRAM: 409 Conflict" in
  let errors := [conflict; conflict; conflict; conflict] in
  listener_run (one_at_a_time errors) listener_start = listener_start
  /\ exited (listener_run (one_at_a_time errors
                           ++ [ErrorArrives conflict; ErrorArrives conflict;
                               ErrorArrives conflict])
                          listener_start) = Some 1.
Proof.
  cbv zeta.
  pose proof (spaced_conflicts_never_exit
                [mkPollingError "ETELEGRAM" "ETELEGRAM: 409 Conflict";
                 mkPollingError "ETELEGRAM" "ETELEGRAM: 409 Conflict";
                 mkPollingError "ETELEGRAM" "ETELEGRAM: 409 Conflict";
                 mkPollingError "ETELEGRAM" "ETELEGRAM: 409 Conflict"]) as [H1 H2].
  split; [exact H1|].
  apply H2; reflexivity.
Defined.

End Retry.

(** ** The earlier [pollSMSAPI]: the cursor [lastSmsId] *)

Module LegacyFacts.
Import Legacy.

Lemma or_number_positive x c :
  (c < or_number x 0)%N -> or_number x c = or_number x 0.
Proof. destruct x as [[|p]|]; cbn; intros H; try reflexivity; lia. Qed.

Lemma legacy_poll_message_new s sms :
  (lastSmsId s < or_number (id sms) 0)%N ->
  poll_message s sms
    = mkState (or_number (id sms) 0) (isPolling s) (sent s ++ [sms]).
Proof.
  intros H. unfold poll_message.
  rewrite (proj2 (N.ltb_lt _ _) H), (or_number_positive _ _ H). reflexivity.
Qed.

Lemma legacy_poll_message_old s sms :
  (or_number (id sms) 0 <= lastSmsId s)%N -> poll_message s sms = s.
Proof.
  intros H. unfold poll_message. now rewrite (proj2 (N.ltb_ge _ _) H).
Qed.

Lemma legacy_poll_message_cursor s sms :
  lastSmsId (poll_message s sms) = N.max (lastSmsId s) (or_number (id sms) 0).
Proof.
  destruct (N.lt_ge_cases (lastSmsId s) (or_number (id sms) 0)) as [H|H].
  - rewrite legacy_poll_message_new by exact H. cbn [lastSmsId]. lia.
  - rewrite legacy_poll_message_old by exact H. lia.
Qed.

Lemma legacy_poll_messages_snoc pre sms s :
  poll_messages (pre ++ [sms]) s = poll_message (poll_messages pre s) sms.
Proof. unfold poll_messages. now rewrite fold_left_app. Qed.

Lemma legacy_poll_messages_cursor messages :
  forall s,
    lastSmsId (poll_messages messages s)
      = fold_left N.max (ids messages) (lastSmsId s).
Proof.
  induction messages as [|sms rest IH]; intros s; [reflexivity|].
  cbn [poll_messages fold_left ids map].
  fold (poll_messages rest (poll_message s sms)). fold (ids rest).
  now rewrite IH, legacy_poll_message_cursor.
Qed.

Lemma fold_max_lt (l : list N) :
  forall c x, (fold_left N.max l c < x)%N <-> (c < x)%N /\ Forall (fun i => (i < x)%N) l.
Proof.
  induction l as [|i l IH]; intros c x; cbn [fold_left].
  - split; [intros H; split; [exact H | constructor] | now intros [H _]].
  - rewrite IH. split.
    + intros [Hm Hl]. split; [lia|]. constructor; [lia | exact Hl].
    + intros [Hc Hl]. inversion Hl; subst. split; [lia | assumption].
Qed.

Lemma fold_max_ge (l : list N) : forall c, (c <= fold_left N.max l c)%N.
Proof.
  induction l as [|i l IH]; intros c; cbn [fold_left]; [lia|].
  specialize (IH (N.max c i)). lia.
Qed.

(** X6: in the earlier program, a row of a batch is handed to
    [sendOTPToTelegram] exactly when its id is above the cursor the batch
    started with and above the id of every row before it in the batch; a
    row without an id counts as id 0 and is never forwarded.  After the
    batch the cursor is the largest id seen, and it never goes down. *)
Theorem forwarded_iff_above_all_before (pre : list Sms) (sms : Sms) (s : State) :
  let before := poll_messages pre s in
  let after := poll_messages (pre ++ [sms]) s in
  let n := or_number (id sms) 0 in
  ((lastSmsId s < n)%N /\ Forall (fun i => (i < n)%N) (ids pre) ->
   sent after = sent before ++ [sms])
  /\ (~ ((lastSmsId s < n)%N /\ Forall (fun i => (i < n)%N) (ids pre)) ->
      sent after = sent before)
  /\ (id sms = None -> sent after = sent before)
  /\ lastSmsId after = fold_left N.max (ids (pre ++ [sms])) (lastSmsId s)
  /\ (lastSmsId s <= lastSmsId after)%N.
Proof.
  cbv zeta. rewrite legacy_poll_messages_snoc.
  pose proof (legacy_poll_messages_cursor pre s) as Hc.
  pose proof (fold_max_lt (ids pre) (lastSmsId s) (or_number (id sms) 0)) as Hlt.
  rewrite <- Hc in Hlt.
  split; [|split; [|split; [|split]]].
  - intros H. apply Hlt in H. now rewrite legacy_poll_message_new.
  - intros H. rewrite legacy_poll_message_old; [reflexivity|].
    destruct (N.lt_ge_cases (lastSmsId (poll_messages pre s))
                            (or_number (id sms) 0)) as [Hn|Hn];
      [|exact Hn].
    apply Hlt in Hn. contradiction.
  - intros Hid. rewrite legacy_poll_message_old; [reflexivity|].
    rewrite Hid. cbn. lia.
  - rewrite <- legacy_poll_messages_snoc. apply legacy_poll_messages_cursor.
  - rewrite <- legacy_poll_messages_snoc, legacy_poll_messages_cursor. apply fold_max_ge.
Qed.

Lemma forwarded_iff_above_all_before_witness :
  let row := fun n text => mkSms n "Bank" "15550001" text in
  let s := mkState 10 false [] in
  sent (poll_messages ([row (Some 11%N) "a"] ++ [row (Some 12%N) "b"]) s)
    = sent (poll_messages [row (Some 11%N) "a"] s) ++ [row (Some 12%N) "b"]
  /\ sent (poll_messages ([row (Some 12%N) "b"] ++ [row (Some 11%N) "a"]) s)
     = sent (poll_messages [row (Some 12%N) "b"] s)
  /\ sent (poll_messages ([row (Some 12%N) "b"] ++ [row None "c"]) s)
     = sent (poll_messages [row (Some 12%N) "b"] s).
Proof.
  cbv zeta. split; [|split].
  - apply (proj1 (forwarded_iff_above_all_before
                    [mkSms (Some 11%N) "Bank" "15550001" "a"]
                    (mkSms (Some 12%N) "Bank" "15550001" "b")
                    (mkState 10 false []))).
    split; [reflexivity | repeat constructor].
  - apply (proj1 (proj2 (forwarded_iff_above_all_before
                    [mkSms (Some 12%N) "Bank" "15550001" "b"]
                    (mkSms (Some 11%N) "Bank" "15550001" "a")
                    (mkState 10 false [])))).
    intros [_ H]. inversion H as [|i l Hi Hl]. vm_compute in Hi. discriminate Hi.
  - apply (proj1 (proj2 (proj2 (forwarded_iff_above_all_before
                    [mkSms (Some 12%N) "Bank" "15550001" "b"]
                    (mkSms None "Bank" "15550001" "c")
                    (mkState 10 false []))))).
    reflexivity.
Defined.

Lemma legacy_poll_messages_all_old messages :
  forall s,
    Forall (fun i => (i <= lastSmsId s)%N) (ids messages) ->
    poll_messages messages s = s.
Proof.
  induction messages as [|sms rest IH]; intros s H; [reflexivity|].
  inversion H as [|i l Hi Hl]; subst.
  cbn [poll_messages fold_left]. rewrite legacy_poll_message_old by exact Hi.
  now apply IH.
Qed.

(** X7: a batch that lists its rows newest first loses all but the first:
    when the first row is above the cursor and no later row has a larger
    id, only the first row is forwarded and the cursor jumps to its id.
    From then on every batch made of rows at or below the cursor, those
    skipped rows included, is dropped whole. *)
Theorem newest_first_batch_forwards_one (sms : Sms) (rest : list Sms) (s : State) :
  (lastSmsId s < or_number (id sms) 0)%N ->
  Forall (fun i => (i <= or_number (id sms) 0)%N) (ids rest) ->
  let s' := poll_messages (sms :: rest) s in
  sent s' = sent s ++ [sms]
  /\ lastSmsId s' = or_number (id sms) 0
  /\ forall later, incl later rest -> poll_messages later s' = s'.
Proof.
  intros Hnew Hrest. cbv zeta.
  assert (E : poll_messages (sms :: rest) s
              = mkState (or_number (id sms) 0) (isPolling s) (sent s ++ [sms])).
  { cbn [poll_messages fold_left]. rewrite legacy_poll_message_new by exact Hnew.
    now apply legacy_poll_messages_all_old. }
  rewrite E. cbn [sent lastSmsId]. split; [reflexivity|]. split; [reflexivity|].
  intros later Hincl. apply legacy_poll_messages_all_old. cbn [lastSmsId].
  rewrite Forall_forall in *. intros i Hi. unfold ids in Hi.
  apply in_map_iff in Hi as (m & <- & Hm).
  apply Hrest. unfold ids. apply in_map_iff. exists m.
  split; [reflexivity | now apply Hincl].
Qed.

Lemma newest_first_batch_forwards_one_witness :
  let row := fun n text => mkSms (Some n) "Bank" "15550001" text in
  let s' := poll_messages [row 12%N "c"; row 11%N "b"; row 10%N "a"] initial_state in
  sent s' = sent initial_state ++ [row 12%N "c"]
  /\ lastSmsId s' = 12%N
  /\ forall later,
      incl later [row 11%N "b"; row 10%N "a"] -> poll_messages later s' = s'.
Proof.
  cbv zeta.
  apply (newest_first_batch_forwards_one
           (mkSms (Some 12%N) "Bank" "15550001" "c")
           [mkSms (Some 11%N) "Bank" "15550001" "b";
            mkSms (Some 10%N) "Bank" "15550001" "a"] initial_state).
  - reflexivity.
  - repeat constructor; vm_compute; discriminate.
Defined.

Lemma legacy_with_flag_message b s sms :
  poll_message (with_flag b s) sms = with_flag b (poll_message s sms).
Proof.
  unfold poll_message, with_flag. cbn [lastSmsId isPolling sent].
  now destruct (lastSmsId s <? or_number (id sms) 0)%N.
Qed.

Lemma legacy_with_flag_messages b messages :
  forall s, poll_messages messages (with_flag b s) = with_flag b (poll_messages messages s).
Proof.
  induction messages as [|sms rest IH]; intros s; [reflexivity|].
  cbn [poll_messages fold_left]. rewrite legacy_with_flag_message. apply IH.
Qed.

Lemma legacy_pollSMSAPI_idle fetched s :
  isPolling s = false ->
  pollSMSAPI fetched s = with_flag false (poll_messages fetched s).
Proof.
  intros H. unfold pollSMSAPI. rewrite H. cbv zeta.
  change (mkState (lastSmsId s) true (sent s)) with (with_flag true s).
  rewrite legacy_with_flag_messages. reflexivity.
Qed.

Lemma sorted_snoc (l : list N) (x : N) :
  StronglySorted N.lt l -> Forall (fun i => (i < x)%N) l ->
  StronglySorted N.lt (l ++ [x]).
Proof.
  induction 1 as [|a l Hs IH Ha]; intros Hx; cbn [app].
  - repeat constructor.
  - inversion Hx; subst. constructor; [now apply IH|].
    apply Forall_app. split; [exact Ha | now constructor].
Qed.

Lemma legacy_poll_message_inv s sms : cursor_inv s -> cursor_inv (poll_message s sms).
Proof.
  intros [Hs Hb].
  destruct (N.lt_ge_cases (lastSmsId s) (or_number (id sms) 0)) as [H|H].
  - rewrite legacy_poll_message_new by exact H. unfold cursor_inv, ids.
    cbn [sent lastSmsId]. rewrite map_app. cbn [map]. split.
    + apply sorted_snoc; [exact Hs|].
      eapply Forall_impl; [|exact Hb]. cbv beta. intros; lia.
    + apply Forall_app. split.
      * eapply Forall_impl; [|exact Hb]. cbv beta. intros; lia.
      * repeat constructor. lia.
  - rewrite legacy_poll_message_old by exact H. now split.
Qed.

Lemma legacy_poll_messages_inv messages : forall s, cursor_inv s -> cursor_inv (poll_messages messages s).
Proof.
  induction messages as [|sms rest IH]; intros s H; [exact H|].
  cbn [poll_messages fold_left]. apply IH. now apply legacy_poll_message_inv.
Qed.

Lemma legacy_pollSMSAPI_inv fetched s :
  cursor_inv s /\ isPolling s = false ->
  cursor_inv (pollSMSAPI fetched s) /\ isPolling (pollSMSAPI fetched s) = false.
Proof.
  intros [H Hf]. rewrite legacy_pollSMSAPI_idle by exact Hf. split; [|reflexivity].
  apply (legacy_poll_messages_inv fetched) in H. exact H.
Qed.

Lemma legacy_run_inv batches :
  forall s,
    cursor_inv s /\ isPolling s = false ->
    cursor_inv (run batches s) /\ isPolling (run batches s) = false.
Proof.
  induction batches as [|fetched batches IH]; intros s H; [exact H|].
  cbn [run fold_left]. apply IH. now apply legacy_pollSMSAPI_inv.
Qed.

Lemma sorted_NoDup (l : list N) : StronglySorted N.lt l -> NoDup l.
Proof.
  induction 1 as [|a l Hs IH Ha]; constructor; [|exact IH].
  intros Hin. rewrite Forall_forall in Ha. specialize (Ha _ Hin). lia.
Qed.

(** X8: over any number of ticks of the earlier program, whatever the
    endpoint returns, the ids of the rows handed to [sendOTPToTelegram] rise
    strictly: no id is forwarded twice, none is zero or missing, and none
    is above the cursor. *)
Theorem forwarded_ids_strictly_increase (batches : list (list Sms)) :
  let s := run batches initial_state in
  StronglySorted N.lt (ids (sent s))
  /\ NoDup (ids (sent s))
  /\ Forall (fun sms => exists n, id sms = Some n /\ (0 < n <= lastSmsId s)%N)
            (sent s)
  /\ isPolling s = false.
Proof.
  cbv zeta.
  destruct (legacy_run_inv batches initial_state) as [[Hs Hb] Hf].
  { split; [|reflexivity]. split; constructor. }
  split; [exact Hs|]. split; [now apply sorted_NoDup|]. split; [|exact Hf].
  assert (Hpos : forall bs s,
             Forall (fun sms => id sms <> None /\ id sms <> Some 0%N) (sent s) ->
             Forall (fun sms => id sms <> None /\ id sms <> Some 0%N)
                    (sent (run bs s))).
  { clear. induction bs as [|fetched bs IH]; intros s H; [exact H|].
    cbn [run fold_left]. apply IH. unfold pollSMSAPI.
    destruct (isPolling s); [exact H|]. cbv zeta. cbn [sent].
    change (mkState (lastSmsId s) true (sent s)) with (with_flag true s).
    rewrite legacy_with_flag_messages. cbn [with_flag sent].
    clear IH. revert s H.
    induction fetched as [|sms rest IHf]; intros s H; [exact H|].
    cbn [poll_messages fold_left]. apply IHf. unfold poll_message.
    destruct (N.ltb_spec (lastSmsId s) (or_number (id sms) 0)) as [Hlt|Hge];
      [|exact H].
    cbn [sent]. apply Forall_app. split; [exact H|].
    repeat constructor; destruct (id sms) as [[|p]|]; cbn in Hlt;
      try discriminate; lia. }
  specialize (Hpos batches initial_state (Forall_nil _)).
  rewrite Forall_forall in *. intros sms Hin.
  destruct (Hpos _ Hin) as [Hn H0].
  destruct (id sms) as [n|] eqn:Hid; [|congruence].
  exists n. split; [reflexivity|].
  assert (Hle : (or_number (id sms) 0 <= lastSmsId (run batches initial_state))%N).
  { apply Hb. unfold ids. apply in_map_iff. now exists sms. }
  rewrite Hid in Hle. destruct n as [|p]; [congruence|]. cbn in Hle. lia.
Qed.

End LegacyFacts.

(** ** The login that [initializeBrowser] performs *)

Module Login.
Import MonadFacts WP Frame.

Ltac norm_hyps :=
  repeat match goal with H : _ = _ |- _ => progress norm_state_in H end.

Lemma initializeBrowser_protocol (config : Config) (env : Env) (s : State) :
  wp (initializeBrowser config env)
     (fun r s' =>
        r = Ok true ->
        exists finder chromePath labels answer b p,
          (finder = [EvWhichChromium]
           \/ finder = [EvWhichChromium; EvExecutablePath])
          /\ trace s' =
               trace s ++ finder
               ++ [EvLaunch chromePath; EvNewPage; EvGoto (LOGIN_URL config);
                   EvSleep 1000; EvEvaluate ScriptCaptcha;
                   EvType FieldUsername (API_USERNAME config);
                   EvType FieldPassword (API_PASSWORD config);
                   EvType FieldCapt (Number_toString answer);
                   EvWaitForNavigation; EvPressEnter; EvReadUrl;
                   EvGoto (SMS_REPORTS_URL config); EvSleep 2000]
          /\ page_evaluate_captcha env
               (trace s ++ finder
                ++ [EvLaunch chromePath; EvNewPage; EvGoto (LOGIN_URL config);
                    EvSleep 1000; EvEvaluate ScriptCaptcha]) = Ok labels
          /\ captcha_scan labels = Some answer /\ Number_truthy answer = true
          /\ browser s' = Some b /\ page s' = Some p
          /\ reconnectAttempts s' = 0) s.
Proof.
  unfold initializeBrowser, find_chromePath, solveMathCaptcha.
  repeat wp_step.
  all: intros Hr; try discriminate Hr.
  all: norm_hyps.
  all: rewrite <- ?app_assoc in *; cbn [app] in *.
  all: match goal with
       | H : execSync_which_chromium _ _ = Ok _ |- _ => exists [EvWhichChromium]
       | _ => exists [EvWhichChromium; EvExecutablePath]
       end.
  all: cbn [app].
  all: match goal with
       | H : page_evaluate_captcha _ _ = Ok ?l, H' : captcha_scan ?l = Some ?n |- _ =>
           eexists _, l, n, _, _
       end.
  all: repeat split; try reflexivity; try eassumption; try (now auto);
    try discriminate; try (now apply negb_false_iff).
Qed.

(** X9: whenever [initializeBrowser] returns true it has made exactly these
    calls, in this order: look for Chromium, launch, open a page, go to the
    login page, wait a second, read the challenge, type the user name, the
    password and what [toString] prints for the sum, press Enter once, read
    the URL, go to the reports page, wait two seconds.  The sum typed is the
    number the challenge scan gave for the page and is truthy; both handles
    are set and the reconnect counter is zero. *)
Theorem successful_login_protocol
  (config : Config) (env : Env) (s s' : State) :
  initializeBrowser config env s = (Ok true, s') ->
  exists finder chromePath labels answer b p,
    (finder = [EvWhichChromium]
     \/ finder = [EvWhichChromium; EvExecutablePath])
    /\ trace s' =
         trace s ++ finder
         ++ [EvLaunch chromePath; EvNewPage; EvGoto (LOGIN_URL config);
             EvSleep 1000; EvEvaluate ScriptCaptcha;
             EvType FieldUsername (API_USERNAME config);
             EvType FieldPassword (API_PASSWORD config);
             EvType FieldCapt (Number_toString answer);
             EvWaitForNavigation; EvPressEnter; EvReadUrl;
             EvGoto (SMS_REPORTS_URL config); EvSleep 2000]
    /\ page_evaluate_captcha env
         (trace s ++ finder
          ++ [EvLaunch chromePath; EvNewPage; EvGoto (LOGIN_URL config);
              EvSleep 1000; EvEvaluate ScriptCaptcha]) = Ok labels
    /\ captcha_scan labels = Some answer /\ Number_truthy answer = true
    /\ browser s' = Some b /\ page s' = Some p
    /\ reconnectAttempts s' = 0.
Proof.
  intros Hrun.
  exact (wp_run _ _ _ _ _ (initializeBrowser_protocol config env s) Hrun eq_refl).
Qed.

Lemma successful_login_protocol_witness :
  let s := initial_state FileAbsent 0 in
  let s' := snd (initializeBrowser example_config env_up s) in
  exists finder chromePath labels answer b p,
    (finder = [EvWhichChromium]
     \/ finder = [EvWhichChromium; EvExecutablePath])
    /\ trace s' =
         trace s ++ finder
         ++ [EvLaunch chromePath; EvNewPage; EvGoto (LOGIN_URL example_config);
             EvSleep 1000; EvEvaluate ScriptCaptcha;
             EvType FieldUsername (API_USERNAME example_config);
             EvType FieldPassword (API_PASSWORD example_config);
             EvType FieldCapt (Number_toString answer);
             EvWaitForNavigation; EvPressEnter; EvReadUrl;
             EvGoto (SMS_REPORTS_URL example_config); EvSleep 2000]
    /\ page_evaluate_captcha env_up
         (trace s ++ finder
          ++ [EvLaunch chromePath; EvNewPage; EvGoto (LOGIN_URL example_config);
              EvSleep 1000; EvEvaluate ScriptCaptcha]) = Ok labels
    /\ captcha_scan labels = Some answer /\ Number_truthy answer = true
    /\ browser s' = Some b /\ page s' = Some p
    /\ reconnectAttempts s' = 0.
Proof.
  cbv zeta.
  apply (successful_login_protocol example_config env_up
           (initial_state FileAbsent 0)
           (snd (initializeBrowser example_config env_up
                   (initial_state FileAbsent 0)))).
  vm_compute. reflexivity.
Defined.

(** What is typed into the form on three pages: for the challenge [7 + 5]
    the sum 12; for [9007199254740993 + 0] the double next to the sum; and
    for a sum of [10^21] the exponent form. *)
Lemma challenge_field_examples :
  filter is_type_event
         (trace (snd (initializeBrowser example_config env_up
                        (initial_state FileAbsent 0))))
  = [EvType FieldUsername "agent"; EvType FieldPassword "secret";
     EvType FieldCapt "12"]
  /\ filter is_type_event
       (trace (snd (initializeBrowser example_config
                      (with_captcha [code_units "9007199254740993 + 0"] env_up)
                      (initial_state FileAbsent 0))))
     = [EvType FieldUsername "agent"; EvType FieldPassword "secret";
        EvType FieldCapt "9007199254740992"]
  /\ filter is_type_event
       (trace (snd (initializeBrowser example_config
                      (with_captcha
                         [code_units "999999999999999999999 + 1"] env_up)
                      (initial_state FileAbsent 0))))
     = [EvType FieldUsername "agent"; EvType FieldPassword "secret";
        EvType FieldCapt "1e+21"].
Proof. repeat split; vm_compute; reflexivity. Qed.

Lemma initializeBrowser_unsolved (config : Config) (env : Env) (s : State) :
  (forall tr labels,
      page_evaluate_captcha env tr = Ok labels ->
      captcha_scan labels = None \/ captcha_scan labels = Some (Finite 0)) ->
  wp (initializeBrowser config env)
     (fun r s' =>
        r = Ok false
        /\ reconnectAttempts s' = reconnectAttempts s
        /\ exists new,
            trace s' = trace s ++ new
            /\ count_events is_type_event new = 0
            /\ ~ In EvPressEnter new) s.
Proof.
  intros Hscan.
  unfold initializeBrowser, find_chromePath, solveMathCaptcha.
  repeat (wp_step;
          try match goal with
              | Ho : page_evaluate_captcha env _ = Ok ?l,
                Hs : captcha_scan ?l = Some ?a,
                Ht : negb (Number_truthy ?a) = false |- _ =>
                  exfalso; destruct (Hscan _ _ Ho) as [E|E];
                  rewrite E in Hs; [discriminate Hs|];
                  injection Hs as <-; discriminate Ht
              end).
  all: split; [reflexivity|]; split; [reflexivity|].
  all: rewrite <- ?app_assoc; cbn [app].
  all: eexists; split; [reflexivity|].
  all: split; [reflexivity|].
  all: cbn [In]; intros Hin; repeat destruct Hin as [Hin|Hin];
       try discriminate Hin; exact Hin.
Qed.

(** X10: when the login page shows no challenge the scan can read, or one
    whose sum is zero, [initializeBrowser] returns false without typing
    anything into the form and without pressing Enter; the reconnect
    counter is as it was. *)
Theorem unsolved_challenge_types_nothing
  (config : Config) (env : Env) (s : State) :
  (forall tr labels,
      page_evaluate_captcha env tr = Ok labels ->
      captcha_scan labels = None \/ captcha_scan labels = Some (Finite 0)) ->
  let (r, s') := initializeBrowser config env s in
  r = Ok false
  /\ reconnectAttempts s' = reconnectAttempts s
  /\ exists new,
      trace s' = trace s ++ new
      /\ count_events is_type_event new = 0
      /\ ~ In EvPressEnter new.
Proof.
  intros Hscan. pose proof (initializeBrowser_unsolved config env s Hscan) as H.
  unfold wp in H. now destruct (initializeBrowser config env s).
Qed.

Lemma unsolved_challenge_types_nothing_witness :
  captcha_scan [code_units "Login"; code_units "What is 0 + 0 ?"]
  = Some (Finite 0)
  /\ let env := with_captcha [code_units "Login"; code_units "What is 0 + 0 ?"]
                             env_up in
     let s := initial_state FileAbsent 0 in
     let (r, s') := initializeBrowser example_config env s in
     r = Ok false
     /\ reconnectAttempts s' = reconnectAttempts s
     /\ exists new,
         trace s' = trace s ++ new
         /\ count_events is_type_event new = 0
         /\ ~ In EvPressEnter new.
Proof.
  split; [vm_compute; reflexivity|]. cbv zeta.
  apply (unsolved_challenge_types_nothing example_config
           (with_captcha [code_units "Login"; code_units "What is 0 + 0 ?"] env_up)
           (initial_state FileAbsent 0)).
  intros tr labels H. injection H as <-. right. vm_compute. reflexivity.
Defined.

Lemma pollSMSAPI_without_page (config : Config) (env : Env)
  (md5_hex : string -> string) (s : State) :
  (forall tr, exists path, execSync_which_chromium env tr = Ok path) ->
  (forall tr, exists b, puppeteer_launch env tr = Ok b) ->
  (forall tr, exists e, browser_newPage env tr = Throw e) ->
  page s = None -> isPolling s = false ->
  wp (pollSMSAPI config env md5_hex)
     (fun r s' =>
        page s' = None /\ isPolling s' = false
        /\ exists chromePath,
            trace s' = trace s ++ [EvWhichChromium; EvLaunch chromePath; EvNewPage]) s.
Proof.
  intros Hwhich Hlaunch Hpage Hp Hf.
  unfold pollSMSAPI, poll_guard, poll_enter, poll_protected, poll_body,
    fetchLatestSMS, ensureBrowserActive, initializeBrowser, find_chromePath.
  repeat (wp_step;
          try congruence;
          try match goal with
              | H : execSync_which_chromium env ?tr = Throw _ |- _ =>
                  exfalso; destruct (Hwhich tr); congruence
              | H : puppeteer_launch env ?tr = Throw _ |- _ =>
                  exfalso; destruct (Hlaunch tr); congruence
              | H : browser_newPage env ?tr = Ok _ |- _ =>
                  exfalso; destruct (Hpage tr); congruence
              | H : negb false = false |- _ => discriminate H
              end).
  all: repeat split; try assumption.
  all: rewrite <- ?app_assoc; cbn [app]; eexists; reflexivity.
Qed.

Lemma count_events_app p (a b : Trace) :
  count_events p (a ++ b) = count_events p a + count_events p b.
Proof. unfold count_events. now rewrite filter_app, length_app. Qed.

(** X11: a browser that starts and then fails to open a page is never
    closed.  With such a browser every call of [pollSMSAPI] launches one
    more browser and closes none: after n polls in a row n browsers have
    been launched and no [close] has been called. *)
Theorem failed_new_page_leaks_browsers
  (config : Config) (env : Env) (md5_hex : string -> string) (n : nat) :
  (forall tr, exists path, execSync_which_chromium env tr = Ok path) ->
  (forall tr, exists b, puppeteer_launch env tr = Ok b) ->
  (forall tr, exists e, browser_newPage env tr = Throw e) ->
  forall s,
    page s = None -> isPolling s = false ->
    let s' := run_ops config env md5_hex (repeat OpPoll n) s in
    page s' = None
    /\ exists new,
        trace s' = trace s ++ new
        /\ count_events is_launch_event new = n
        /\ count_events is_close_event new = 0.
Proof.
  intros Hwhich Hlaunch Hpage. cbv zeta.
  induction n as [|n IH]; intros s Hp Hf.
  - split; [exact Hp|]. exists []. now rewrite app_nil_r.
  - change (run_ops config env md5_hex (repeat OpPoll (S n)) s)
      with (run_ops config env md5_hex (repeat OpPoll n)
              (snd (pollSMSAPI config env md5_hex s))).
    pose proof (pollSMSAPI_without_page config env md5_hex s
                  Hwhich Hlaunch Hpage Hp Hf) as H.
    unfold wp in H. destruct H as (Hp1 & Hf1 & chromePath & Htr1).
    destruct (IH _ Hp1 Hf1) as (Hp2 & new & Htr2 & Hl & Hc).
    split; [exact Hp2|].
    exists ([EvWhichChromium; EvLaunch chromePath; EvNewPage] ++ new).
    rewrite Htr2, Htr1, <- app_assoc. split; [reflexivity|].
    rewrite !count_events_app, Hl, Hc. split; reflexivity.
Qed.

Lemma failed_new_page_leaks_browsers_witness :
  let s' := run_ops example_config (with_failing_newPage env_up) example_digest
                    (repeat OpPoll 3) (initial_state FileAbsent 0) in
  page s' = None
  /\ exists new,
      trace s' = trace (initial_state FileAbsent 0) ++ new
      /\ count_events is_launch_event new = 3
      /\ count_events is_close_event new = 0.
Proof.
  cbv zeta.
  apply (failed_new_page_leaks_browsers example_config
           (with_failing_newPage env_up) example_digest 3).
  - intros tr. eexists. reflexivity.
  - intros tr. eexists. reflexivity.
  - intros tr. eexists. reflexivity.
  - reflexivity.
  - reflexivity.
Defined.

End Login.

(** ** The counters over a whole run *)

Module Counters.
Import MonadFacts WP Frame.

Lemma keeps_counters_refl s : keeps_counters s s.
Proof. repeat split. auto. Qed.

Lemma keeps_counters_trans s1 s2 s3 :
  keeps_counters s1 s2 -> keeps_counters s2 s3 -> keeps_counters s1 s3.
Proof.
  intros (A1 & B1 & C1) (A2 & B2 & C2). repeat split; try congruence. auto.
Qed.

Lemma keeps_counters_extern {A} (ev : Event) (o : Trace -> Res A) :
  stable keeps_counters (extern ev o).
Proof. intros s. repeat split. auto. Qed.

Ltac counters_frame :=
  repeat first
    [ apply (stable_bind _ keeps_counters_trans); [|intro]
    | apply (stable_try_catch _ keeps_counters_trans); [|intro]
    | apply (stable_ret _ keeps_counters_refl)
    | apply (stable_get _ keeps_counters_refl)
    | apply (stable_throw _ keeps_counters_refl)
    | apply (stable_on_page _ keeps_counters_refl keeps_counters_trans)
    | apply (stable_for_of _ keeps_counters_refl keeps_counters_trans); intro
    | apply keeps_counters_extern
    | match goal with
      | |- stable _ (modify _) =>
          intros ?; unfold keeps_counters, modify, MAX_RECONNECT_ATTEMPTS in *;
          cbn [snd]; norm_state;
          repeat split; auto;
          repeat match goal with
                 | H : (_ <? _)%nat = true |- _ => apply Nat.ltb_lt in H
                 end;
          intros; lia
      | |- stable _ (match ?x with _ => _ end) => destruct x eqn:?
      end ].

Section WithEnv.
Variable config : Config.
Variable env : Env.
Variable md5_hex : string -> string.

Lemma initializeBrowser_counters : stable keeps_counters (initializeBrowser config env).
Proof.
  unfold initializeBrowser, find_chromePath, solveMathCaptcha, sleep, extern_val.
  counters_frame.
Qed.

Lemma ensureBrowserActive_counters :
  stable keeps_counters (ensureBrowserActive config env).
Proof.
  unfold ensureBrowserActive, close_browser, sleep, extern_val.
  counters_frame; apply initializeBrowser_counters.
Qed.

Lemma fetchLatestSMS_counters :
  stable keeps_counters (fetchLatestSMS config env md5_hex).
Proof.
  unfold fetchLatestSMS, sleep, extern_val.
  counters_frame; apply ensureBrowserActive_counters.
Qed.

Lemma poll_messages_counters messages :
  forall n, stable keeps_counters (poll_messages config env messages n).
Proof.
  induction messages as [|sms rest IH]; intros n; cbn [poll_messages].
  - counters_frame.
  - apply (stable_bind _ keeps_counters_trans); [|intro; apply IH].
    unfold poll_message, sendOTPToTelegram. counters_frame.
Qed.

Lemma saveSentMessages_counters : stable keeps_counters (saveSentMessages env).
Proof.
  intros s. rewrite Tick.saveSentMessages_run. cbv zeta. cbn [snd].
  destruct (fs_writeFileSync env _); repeat split; auto.
Qed.

Lemma loadSentMessages_counters : stable keeps_counters loadSentMessages.
Proof.
  intros s. rewrite Tick.loadSentMessages_run. cbn [snd].
  destruct (disk s); repeat split; auto.
Qed.

Lemma poll_body_counters : stable keeps_counters (poll_body config env md5_hex).
Proof.
  unfold poll_body.
  apply (stable_bind _ keeps_counters_trans); [apply fetchLatestSMS_counters|].
  intros [|sms rest]; [apply (stable_ret _ keeps_counters_refl)|].
  apply (stable_bind _ keeps_counters_trans); [apply poll_messages_counters|].
  intros n. destruct (0 <? n)%nat;
    [apply saveSentMessages_counters | apply (stable_ret _ keeps_counters_refl)].
Qed.

Lemma performHealthCheck_counters :
  stable keeps_counters (performHealthCheck config env).
Proof.
  unfold performHealthCheck, close_browser. cbv zeta.
  counters_frame; apply ensureBrowserActive_counters.
Qed.

(** One operation from a state with the flag down. *)
Lemma run_op_counters (o : Op) (s : State) :
  isPolling s = false ->
  reconnectAttempts s <= MAX_RECONNECT_ATTEMPTS ->
  let s' := snd (run_op config env md5_hex o s) in
  isPolling s' = false
  /\ reconnectAttempts s' <= MAX_RECONNECT_ATTEMPTS
  /\ pollCount s' = (if is_poll_op o then S (pollCount s) else pollCount s).
Proof.
  intros Hf Hc. cbv zeta.
  assert (Hkeep : forall m : M unit,
             stable keeps_counters m ->
             isPolling (snd (m s)) = false
             /\ reconnectAttempts (snd (m s)) <= MAX_RECONNECT_ATTEMPTS
             /\ pollCount (snd (m s)) = pollCount s).
  { intros m Hm. destruct (Hm s) as (A & B & C).
    split; [congruence|]. split; [auto | exact B]. }
  destruct o; cbn [run_op is_poll_op].
  - apply Hkeep, loadSentMessages_counters.
  - apply Hkeep. apply (stable_bind _ keeps_counters_trans);
      [apply initializeBrowser_counters | intro; apply (stable_ret _ keeps_counters_refl)].
  - rewrite (Tick.pollSMSAPI_idle config env md5_hex s Hf). cbn [snd].
    rewrite (Tick.poll_enter_idle s Hf).
    destruct (poll_body_counters (set_pollCount (S (pollCount s)) (set_isPolling true s)))
      as (A & B & C).
    norm_state_in A. norm_state_in B. norm_state_in C. norm_state.
    split; [reflexivity|]. split; [auto | exact B].
  - apply Hkeep, performHealthCheck_counters.
  - apply Hkeep, saveSentMessages_counters.
Qed.

Lemma run_ops_counters (ops : list Op) :
  forall s,
    isPolling s = false ->
    reconnectAttempts s <= MAX_RECONNECT_ATTEMPTS ->
    let s' := run_ops config env md5_hex ops s in
    isPolling s' = false
    /\ reconnectAttempts s' <= MAX_RECONNECT_ATTEMPTS
    /\ pollCount s' = pollCount s + List.length (filter is_poll_op ops).
Proof.
  induction ops as [|o ops IH]; intros s Hf Hc; cbv zeta.
  - cbn. repeat split; auto.
  - change (run_ops config env md5_hex (o :: ops) s)
      with (run_ops config env md5_hex ops (snd (run_op config env md5_hex o s))).
    destruct (run_op_counters o s Hf Hc) as (A & B & C).
    destruct (IH _ A B) as (A' & B' & C').
    split; [exact A'|]. split; [exact B'|].
    rewrite C', C. cbn [filter]. destruct (is_poll_op o); cbn [List.length]; lia.
Qed.

End WithEnv.

(** X12: from start, through any sequence of loads, logins, polls, health
    checks and saves and whatever the surroundings answer,
    [reconnectAttempts] never exceeds [MAX_RECONNECT_ATTEMPTS]. *)
Theorem reconnect_counter_stays_within_maximum
  (config : Config) (env : Env) (md5_hex : string -> string)
  (file : FileContent) (now : N) (ops : list Op) :
  reconnectAttempts (run_ops config env md5_hex ops (initial_state file now))
    <= MAX_RECONNECT_ATTEMPTS.
Proof.
  apply (run_ops_counters config env md5_hex ops (initial_state file now));
    [reflexivity | cbn; unfold MAX_RECONNECT_ATTEMPTS; lia].
Qed.

(** X13: when the calls do not overlap, no poll is ever skipped: after any
    sequence of operations from start the flag [isPolling] is down and
    [pollCount] is the number of calls of [pollSMSAPI] made, whether they
    failed or not. *)
Theorem every_poll_is_counted
  (config : Config) (env : Env) (md5_hex : string -> string)
  (file : FileContent) (now : N) (ops : list Op) :
  let s := run_ops config env md5_hex ops (initial_state file now) in
  isPolling s = false
  /\ pollCount s = List.length (filter is_poll_op ops).
Proof.
  cbv zeta.
  destruct (run_ops_counters config env md5_hex ops (initial_state file now))
    as (A & _ & C); [reflexivity | cbn; unfold MAX_RECONNECT_ATTEMPTS; lia |].
  split; [exact A | exact C].
Qed.

End Counters.

(** ** Browsers launched and closed by one operation *)

Module Budget.
Import MonadFacts WP Frame.

Lemma within_refl s : within 0 0 s s.
Proof. exists []. rewrite app_nil_r. repeat split; apply Nat.le_refl. Qed.

Lemma within_trans k1 c1 k2 c2 s1 s2 s3 :
  within k1 c1 s1 s2 -> within k2 c2 s2 s3 -> within (k1 + k2) (c1 + c2) s1 s3.
Proof.
  intros (n1 & E1 & L1 & C1) (n2 & E2 & L2 & C2). exists (n1 ++ n2).
  rewrite E2, E1, app_assoc, !Login.count_events_app.
  split; [reflexivity|]. split; lia.
Qed.

Lemma within_weaken k c k' c' s s' :
  k <= k' -> c <= c' -> within k c s s' -> within k' c' s s'.
Proof. intros Hk Hc (n & E & L & C). exists n. repeat split; [exact E | lia | lia]. Qed.

Lemma count_events_none (p P : Event -> bool) (l : Trace) :
  (forall ev, P ev = true -> p ev = false) ->
  forallb P l = true -> count_events p l = 0.
Proof.
  intros Hp. unfold count_events. induction l as [|ev l IH]; [reflexivity|].
  cbn [forallb filter]. intros [Hev Hl]%andb_prop.
  rewrite (Hp ev Hev). now apply IH.
Qed.

Lemma within_quiet (P : Event -> bool) s s' :
  (forall ev, P ev = true -> is_launch_event ev = false /\ is_close_event ev = false) ->
  trace_grows P s s' -> within 0 0 s s'.
Proof.
  intros HP (new & E & F). exists new. split; [exact E|].
  rewrite (count_events_none is_launch_event P) by (try exact F; intros ev Hev; now apply HP).
  rewrite (count_events_none is_close_event P) by (try exact F; intros ev Hev; now apply HP).
  split; apply Nat.le_refl.
Qed.

Ltac close_leaf :=
  rewrite <- ?app_assoc; cbn [app];
  eexists; split; [reflexivity|];
  unfold count_events; cbn [filter is_launch_event is_close_event List.length];
  split; lia.

Section WithEnv.
Variable config : Config.
Variable env : Env.
Variable md5_hex : string -> string.

Lemma initializeBrowser_budget s :
  wp (initializeBrowser config env)
     (fun r s' => (exists b, r = Ok b) /\ within 1 0 s s') s.
Proof.
  unfold initializeBrowser, find_chromePath, solveMathCaptcha, within.
  repeat wp_step.
  all: split; [eexists; reflexivity|].
  all: close_leaf.
Qed.

Lemma ensureBrowserActive_budget s :
  wp (ensureBrowserActive config env)
     (fun r s' => (exists b, r = Ok b) /\ within 1 1 s s') s.
Proof.
  unfold ensureBrowserActive, close_browser.
  repeat (wp_step; try congruence).
  all: try (eapply wp_conseq; [apply initializeBrowser_budget|];
            cbv beta; intros r s' [[b ->] Hin]; cbv iota;
            split; [now exists b|]).
  all: try (apply (within_weaken 1 0 1 1); [lia | lia | exact Hin]).
  all: try (apply (within_weaken (0 + 1) (1 + 0) 1 1); [cbn; lia | cbn; lia |];
            eapply within_trans; [|exact Hin];
            unfold within; norm_state; close_leaf).
  all: split; [eexists; reflexivity|].
  all: unfold within; close_leaf.
Qed.

Lemma fetchLatestSMS_budget s :
  wp (fetchLatestSMS config env md5_hex)
     (fun r s' => (exists messages, r = Ok messages) /\ within 1 1 s s') s.
Proof.
  unfold fetchLatestSMS.
  wp_step. wp_step.
  eapply wp_conseq; [apply ensureBrowserActive_budget|].
  cbv beta. intros r s1 [[b ->] Hin].
  assert (Hrest : forall s2, within 0 0 s1 s2 -> within 1 1 s s2).
  { intros s2 H. apply (within_trans 1 1 0 0 _ _ _ Hin H). }
  repeat wp_step.
  all: split; [eexists; reflexivity|].
  all: apply Hrest; first [apply within_refl | unfold within; close_leaf].
Qed.

Lemma poll_body_budget s :
  wp (poll_body config env md5_hex) (fun _ s' => within 1 1 s s') s.
Proof.
  unfold poll_body. wp_step.
  eapply wp_conseq; [apply fetchLatestSMS_budget|].
  cbv beta. intros r s1 [[messages ->] Hin].
  assert (Hrest : forall s2, within 0 0 s1 s2 -> within 1 1 s s2).
  { intros s2 H. apply (within_trans 1 1 0 0 _ _ _ Hin H). }
  destruct messages as [|sms rest]; [apply Hrest, within_refl|].
  wp_step.
  eapply wp_conseq; [apply (Poll.poll_messages_spec config env (sms :: rest) 0 s1)|].
  cbv beta.
  intros r s2 (n' & new & -> & _ & _ & _ & Htr & Hsend & _).
  assert (H12 : within 0 0 s1 s2).
  { apply (within_quiet is_send_event); [|now exists new].
    intros [] Hev; try discriminate Hev; split; reflexivity. }
  destruct (0 <? n')%nat; [|apply Hrest, H12].
  unfold wp. rewrite Tick.saveSentMessages_run. cbv zeta. cbn [snd].
  apply Hrest.
  refine (within_trans 0 0 0 0 _ _ _ H12 _).
  destruct (fs_writeFileSync env _); unfold within; norm_state; close_leaf.
Qed.

End WithEnv.

(** X14: one operation, whether it is the login at start, a poll or a
    health check, launches at most one browser and calls [close] at most
    once, whatever fails on the way; loading and saving the snapshot
    launch and close nothing. *)
Theorem one_launch_and_one_close_per_operation
  (config : Config) (env : Env) (md5_hex : string -> string)
  (o : Op) (s : State) :
  exists new,
    trace (snd (run_op config env md5_hex o s)) = trace s ++ new
    /\ count_events is_launch_event new <= 1
    /\ count_events is_close_event new <= 1
    /\ (o = OpLoad \/ o = OpSave ->
        count_events is_launch_event new = 0
        /\ count_events is_close_event new = 0).
Proof.
  destruct o; cbn [run_op].
  - rewrite Tick.loadSentMessages_run. cbn [snd].
    destruct (disk s); norm_state.
    + exists []. rewrite app_nil_r. cbn. repeat split; lia.
    + exists [EvReadFile]. cbn. repeat split; lia.
    + exists [EvReadFile]. cbn. repeat split; lia.
  - pose proof (initializeBrowser_budget config env s) as H. unfold wp in H.
    destruct H as [[b Hb] (new & E & L & C)].
    unfold bind. destruct (initializeBrowser config env s) as [[b'|e] s1];
      [|discriminate Hb].
    cbn [snd fst] in *. exists new.
    split; [exact E|]. split; [exact L|]. split; [lia|].
    intros [Ho|Ho]; discriminate Ho.
  - destruct (isPolling s) eqn:Hf.
    + rewrite (Tick.pollSMSAPI_busy config env md5_hex s Hf). cbn [snd].
      exists []. rewrite app_nil_r. cbn. repeat split; lia.
    + rewrite (Tick.pollSMSAPI_idle config env md5_hex s Hf). cbn [snd].
      rewrite (Tick.poll_enter_idle s Hf). norm_state.
      pose proof (poll_body_budget config env md5_hex
                    (set_pollCount (S (pollCount s)) (set_isPolling true s))) as H.
      unfold wp in H. destruct H as (new & E & L & C). norm_state_in E.
      exists new.
      split; [exact E|]. split; [exact L|]. split; [exact C|].
      intros [Ho|Ho]; discriminate Ho.
  - assert (Hnone : exists new,
               trace s = trace s ++ new
               /\ count_events is_launch_event new <= 1
               /\ count_events is_close_event new <= 1
               /\ (OpHealthCheck = OpLoad \/ OpHealthCheck = OpSave ->
                   count_events is_launch_event new = 0
                   /\ count_events is_close_event new = 0)).
    { exists []. rewrite app_nil_r. cbn. repeat split; lia. }
    destruct (browser s) as [b|] eqn:Hb;
      [|rewrite Health.performHealthCheck_rest by (now left); exact Hnone].
    destruct (N.le_gt_cases (Date_now env (trace s) - lastSuccessfulPoll s) 300000)
      as [Hlag|Hlag];
      [rewrite Health.performHealthCheck_rest by (now right); exact Hnone|].
    rewrite (Health.performHealthCheck_forced config env s b Hb Hlag). cbn [snd].
    pose proof (initializeBrowser_budget config env
                  (set_page None
                     (set_browser None (set_trace (trace s ++ [EvClose]) s)))) as H.
    unfold wp in H. destruct H as [_ (new & E & L & C)]. norm_state_in E.
    exists (EvClose :: new). rewrite E, <- app_assoc. cbn [app].
    split; [reflexivity|].
    unfold count_events in *. cbn [filter is_launch_event is_close_event List.length].
    split; [exact L|]. split; [lia|].
    intros [Ho|Ho]; discriminate Ho.
  - rewrite Tick.saveSentMessages_run. cbv zeta. cbn [snd].
    exists [EvWriteFile (slice_last MAX_STORED_HASHES (sentMessageHashes s))].
    destruct (fs_writeFileSync env _); norm_state; cbn; repeat split; lia.
Qed.

Lemma one_launch_and_one_close_per_operation_witness :
  exists new,
    trace (snd (run_op example_config env_up example_digest OpSave full_state))
      = trace full_state ++ new
    /\ count_events is_launch_event new = 0
    /\ count_events is_close_event new = 0.
Proof.
  destruct (one_launch_and_one_close_per_operation
              example_config env_up example_digest OpSave full_state)
    as (new & E & _ & _ & H).
  exists new. split; [exact E|]. apply H. right. reflexivity.
Defined.

End Budget.

(** ** When a poll counts as successful *)

Module Freshness.
Import MonadFacts WP Frame.




Section WithEnv.
Variable config : Config.
Variable env : Env.
Variable md5_hex : string -> string.










End WithEnv.



(** The fetch on three panels, from a state with the session up and
    [lastSuccessfulPoll] at zero: a table with a [null] row and a value
    that is no array both move [lastSuccessfulPoll] and give no message;
    no response in time leaves it. *)
Lemma fetch_examples :
  (let (r, s') := fetchLatestSMS example_config
                    (with_rows [Some row_with_empty; None] env_up)
                    example_digest active_state in
   r = Ok [] /\ lastSuccessfulPoll s' = 5%N)
  /\ (let (r, s') := fetchLatestSMS example_config
                       (with_response (Some NotAnArray) env_up)
                       example_digest active_state in
      r = Ok [] /\ lastSuccessfulPoll s' = 5%N)
  /\ (let (r, s') := fetchLatestSMS example_config
                       (with_response None env_up)
                       example_digest active_state in
      r = Ok [] /\ lastSuccessfulPoll s' = 0%N)
  /\ (let (r, s') := fetchLatestSMS example_config
                       (with_rows [Some row_with_empty] env_up)
                       example_digest active_state in
      r = Ok [mkSms "2025-01-01 10:00:00_15550001_Bank_"
                    "2025-01-01 10:00:00" "15550001" "Bank" "c1" ""]
      /\ lastSuccessfulPoll s' = 5%N).
Proof. repeat split; vm_compute; reflexivity. Qed.

End Freshness.

(** ** A snapshot file larger than the cap *)

Module Oversize.
Import SetFacts.

(** X16: [loadSentMessages] applies no cap: a snapshot file with more than
    [MAX_STORED_HASHES] distinct hashes is loaded whole, so the ledger starts
    above the cap.  [saveSentMessages] would still write only the last
    [MAX_STORED_HASHES] of them, and the first new message forwarded cuts
    the ledger to its last [TRIMMED_HASHES] entries, the new hash last. *)
Theorem oversize_snapshot_is_loaded_whole
  (config : Config) (env : Env) (sms : Sms) (n : nat) (s : State)
  (hashes : list string) :
  disk s = FileJson hashes ->
  NoDup hashes ->
  MAX_STORED_HASHES < List.length hashes ->
  ~ In (hash sms) hashes ->
  let s1 := snd (loadSentMessages s) in
  sentMessageHashes s1 = hashes
  /\ writes_of (skipn (List.length (trace s1)) (trace (snd (saveSentMessages env s1))))
     = [slice_last MAX_STORED_HASHES hashes]
  /\ (let s2 := snd (poll_message config env sms n s1) in
      sentMessageHashes s2 = slice_last TRIMMED_HASHES (hashes ++ [hash sms])
      /\ List.length (sentMessageHashes s2) = TRIMMED_HASHES).
Proof.
  intros Hdisk Hnd Hlen Hnew. cbv zeta.
  rewrite Tick.loadSentMessages_run, Hdisk. cbn [snd].
  rewrite (new_Set_fresh _ Hnd).
  set (s1 := set_sentMessageHashes hashes (set_trace (trace s ++ [EvReadFile]) s)).
  split; [reflexivity|]. split.
  - rewrite Tick.saveSentMessages_run. cbv zeta. cbn [snd].
    assert (E : forall s2,
               trace s2 = trace s1 ++ [EvWriteFile (slice_last MAX_STORED_HASHES hashes)] ->
               writes_of (skipn (List.length (trace s1)) (trace s2))
               = [slice_last MAX_STORED_HASHES hashes]).
    { intros s2 ->. rewrite skipn_app, skipn_all, Nat.sub_diag. reflexivity. }
    destruct (fs_writeFileSync env _); apply E; reflexivity.
  - assert (Hhas : set_has (sentMessageHashes s1) (hash sms) = false).
    { apply set_has_false. exact Hnew. }
    rewrite (Poll.poll_message_new config env sms n s1 Hhas). cbn [snd].
    unfold s1. WP.norm_state.
    assert (Hadd : set_add hashes (hash sms) = hashes ++ [hash sms]).
    { now apply set_add_new. }
    rewrite Ledger.ledger_insert_overflow; [|exact Hnd|].
    + rewrite Hadd. split; [reflexivity|].
      rewrite slice_last_length, length_app.
      change (List.length [hash sms]) with 1.
      unfold TRIMMED_HASHES, MAX_STORED_HASHES in *. lia.
    + rewrite Hadd, length_app. change (List.length [hash sms]) with 1. lia.
Qed.

Lemma oversize_snapshot_is_loaded_whole_witness :
  let s := initial_state (FileJson oversize_ledger) 0 in
  let sms := sms_with_hash "8f14e45f" in
  let s1 := snd (loadSentMessages s) in
  sentMessageHashes s1 = oversize_ledger
  /\ writes_of (skipn (List.length (trace s1))
                      (trace (snd (saveSentMessages env_up s1))))
     = [slice_last MAX_STORED_HASHES oversize_ledger]
  /\ (let s2 := snd (poll_message example_config env_up sms 0 s1) in
      sentMessageHashes s2
        = slice_last TRIMMED_HASHES (oversize_ledger ++ [hash sms])
      /\ List.length (sentMessageHashes s2) = TRIMMED_HASHES).
Proof.
  cbv zeta.
  apply (oversize_snapshot_is_loaded_whole example_config env_up
           (sms_with_hash "8f14e45f") 0
           (initial_state (FileJson oversize_ledger) 0) oversize_ledger).
  - reflexivity.
  - apply Ledger.nodupb_NoDup. vm_compute. reflexivity.
  - unfold oversize_ledger, MAX_STORED_HASHES.
    rewrite length_map, length_seq. lia.
  - apply set_has_false. vm_compute. reflexivity.
Defined.

End Oversize.

(** ** A batch that fits under the cap *)

Module Batch.
Import SetFacts.

(** X17: while the ledger has room for the whole batch, [pollSMSAPI]'s loop
    never cuts it.  The records it counts are those whose fingerprint is
    neither in the ledger nor on an earlier record of the batch; afterwards
    the ledger is the old ledger followed by their fingerprints in order,
    and the count the loop returns grew by their number.  What the loop
    adds to the trace is, for each of them in order, the calls of
    [sendOTPToTelegram] for that record: one call per configured chat in
    the order of the configuration for a record that is [sendable], and no
    call for one that is not. *)
Theorem batch_with_room_appends_new_hashes
  (config : Config) (env : Env) (messages : list Sms) (n : nat) (s : State) :
  List.length (sentMessageHashes s) + List.length messages <= MAX_STORED_HASHES ->
  exists n' s' groups,
    poll_messages config env messages n s = (Ok n', s')
    /\ sentMessageHashes s'
         = sentMessageHashes s
           ++ map hash (first_appearances messages (sentMessageHashes s))
    /\ sentMessageHashes s'
         = fold_left set_add (map hash messages) (sentMessageHashes s)
    /\ n' = n + List.length (first_appearances messages (sentMessageHashes s))
    /\ trace s' = trace s ++ List.concat groups
    /\ Forall2 (fun sms group =>
                  exists tr, group = dispatch_events config env sms tr)
               (first_appearances messages (sentMessageHashes s)) groups
    /\ map fst (sends_of (List.concat groups))
       = flat_map (fun sms => if sendable sms
                              then TELEGRAM_CHAT_IDS config else [])
                  (first_appearances messages (sentMessageHashes s)).
Proof.
  revert n s. induction messages as [|sms rest IH]; intros n s Hroom.
  - exists n, s, []. cbn [poll_messages map fold_left first_appearances List.concat].
    unfold ret. rewrite !app_nil_r, Nat.add_0_r.
    repeat split; try reflexivity. constructor.
  - cbn [List.length] in Hroom.
    cbn [poll_messages map fold_left first_appearances]. unfold bind.
    destruct (set_has (sentMessageHashes s) (hash sms)) eqn:Hhas.
    + rewrite (Poll.poll_message_seen config env sms n s Hhas).
      rewrite (set_add_old _ _ (proj1 (set_has_true _ _) Hhas)).
      apply IH. lia.
    + rewrite (Poll.poll_message_new config env sms n s Hhas).
      pose proof (proj1 (set_has_false _ _) Hhas) as Hnew.
      assert (Hadd : set_add (sentMessageHashes s) (hash sms)
                     = sentMessageHashes s ++ [hash sms]).
      { now apply set_add_new. }
      assert (Hins : ledger_insert (sentMessageHashes s) (hash sms)
                     = sentMessageHashes s ++ [hash sms]).
      { rewrite Ledger.ledger_insert_room; [exact Hadd|].
        rewrite Hadd, length_app. change (List.length [hash sms]) with 1. lia. }
      rewrite Hins, Hadd.
      set (s1 := set_sentMessageHashes (sentMessageHashes s ++ [hash sms])
                   (set_trace (trace s ++ dispatch_events config env sms (trace s)) s)).
      destruct (IH (S n) s1)
        as (n' & s' & groups & Hrun & Happ & Hset & Hn & Htr & Hgroups & Hchats).
      { unfold s1. WP.norm_state. rewrite length_app.
        change (List.length [hash sms]) with 1. lia. }
      unfold s1 in Happ, Hset, Hn, Htr, Hgroups, Hchats.
      WP.norm_state_in Happ. WP.norm_state_in Hset. WP.norm_state_in Hn.
      WP.norm_state_in Htr. WP.norm_state_in Hgroups. WP.norm_state_in Hchats.
      exists n', s', (dispatch_events config env sms (trace s) :: groups).
      split; [exact Hrun|].
      split; [rewrite Happ, <- app_assoc; reflexivity|].
      split; [exact Hset|].
      split; [cbn [List.length]; lia|].
      split; [rewrite Htr, <- app_assoc; reflexivity|].
      split; [constructor; [now exists (trace s) | exact Hgroups]|].
      cbn [List.concat flat_map]. rewrite Tick.sends_of_app, map_app, Hchats.
      now rewrite Poll.dispatch_events_chats.
Qed.

Lemma batch_with_room_appends_new_hashes_witness :
  let messages :=
    [sms_with_hash "c81e728d"; repeated_record;
     mkSms "eccbc87e" "2025-01-01 10:00:09" "15550003" "Bank" "c1"
           (CellOther true (Some "482913"));
     sms_with_hash "c4ca4238"; repeated_record] in
  let s := set_sentMessageHashes ["c4ca4238"] (initial_state FileAbsent 0) in
  exists n' s' groups,
    poll_messages example_config env_up messages 0 s = (Ok n', s')
    /\ sentMessageHashes s' = ["c4ca4238"; "c81e728d"; "d41d8cd9"; "eccbc87e"]
    /\ n' = 3
    /\ trace s' = trace s ++ List.concat groups
    /\ map fst (sends_of (List.concat groups))
       = config_js_chat_ids ++ config_js_chat_ids.
Proof.
  cbv zeta.
  destruct (batch_with_room_appends_new_hashes example_config env_up
              [sms_with_hash "c81e728d"; repeated_record;
               mkSms "eccbc87e" "2025-01-01 10:00:09" "15550003" "Bank" "c1"
                     (CellOther true (Some "482913"));
               sms_with_hash "c4ca4238"; repeated_record] 0
              (set_sentMessageHashes ["c4ca4238"] (initial_state FileAbsent 0)))
    as (n' & s' & groups & Hrun & Happ & _ & Hn & Htr & _ & Hchats).
  { vm_compute. lia. }
  exists n', s', groups.
  split; [exact Hrun|]. split; [exact Happ|]. split; [exact Hn|].
  split; [exact Htr | exact Hchats].
Defined.

End Batch.

(** ** The text of a forwarded message *)

Module Text.






End Text.
(** ** The numbers of config.js *)

Module ConfigFacts.
Import Numbers.

Lemma nearest_double_positive (n m : N) :
  n <> 0%N -> nearest_double n = Some m -> m <> 0%N.
Proof.
  intros Hn. unfold nearest_double.
  destruct (n <=? 2 ^ 53)%N eqn:E; [congruence|].
  apply N.leb_gt in E. rewrite two_53 in E. cbv zeta.
  set (e := (N.log2 n - 52)%N).
  set (q := N.shiftr n e).
  assert (Hq : (0 < q)%N).
  { unfold q. rewrite N.shiftr_div_pow2.
    apply N.div_str_pos. split; [apply N.neq_0_lt_0, N.pow_nonzero; lia|].
    transitivity (2 ^ N.log2 n)%N.
    - apply N.pow_le_mono_r; [lia | unfold e; lia].
    - apply N.log2_spec. lia. }
  match goal with
  | |- (if (N.shiftl ?x e <? _)%N then _ else _) = _ -> _ => set (q' := x)
  end.
  assert (Hq' : (0 < q')%N) by (unfold q'; destruct (_ || _)%bool; lia).
  destruct (N.shiftl q' e <? 2 ^ 1024)%N; [|discriminate].
  intros [= <-]. rewrite N.shiftl_mul_pow2.
  apply N.neq_mul_0. split; [lia | apply N.pow_nonzero; lia].
Qed.

(** The number for an integer other than zero is truthy. *)
Lemma Number_of_Z_truthy (z : Z) :
  z <> 0%Z -> Number_truthy (Number_of_Z z) = true.
Proof.
  intros Hz. unfold Number_of_Z.
  destruct (nearest_double (Z.abs_N z)) as [m|] eqn:E; [|reflexivity].
  apply nearest_double_positive in E; [|lia].
  destruct (z <? 0)%Z; destruct m; try congruence; reflexivity.
Qed.

Lemma number_or_truthy (n d : Number) :
  Number_truthy d = true -> Number_truthy (number_or n d) = true.
Proof. unfold number_or. intros Hd. now destruct (Number_truthy n) eqn:E. Qed.

Lemma digit_is_no_sign c :
  is_digit c = true ->
  (c =? plus_sign)%N = false /\ (c =? minus_sign)%N = false
  /\ (c =? small_x)%N = false /\ (c =? capital_x)%N = false.
Proof.
  unfold is_digit, plus_sign, minus_sign, small_x, capital_x.
  intros [H1 H2]%andb_prop. apply N.leb_le in H1, H2.
  repeat split; apply N.eqb_neq; lia.
Qed.

(** No [0x] at the head of a run of digits that [ends_number]. *)
Lemma no_hex_prefix (ds rest : jsstring) :
  ds <> [] -> forallb is_digit ds = true -> ends_number ds rest ->
  match ds ++ rest with
  | c0 :: c1 :: _ =>
      ((c0 =? zero_digit) && ((c1 =? small_x) || (c1 =? capital_x)))%N
  | _ => false
  end = false.
Proof.
  intros Hne Hds Hrest. destruct ds as [|d ds]; [congruence|].
  cbn [app forallb] in *. apply andb_prop in Hds as [Hd Hds].
  destruct ds as [|d2 ds]; cbn [app].
  - destruct rest as [|c rest]; [reflexivity|].
    destruct Hrest as (_ & Hx).
    destruct (d =? zero_digit)%N eqn:Ez; [|reflexivity].
    apply N.eqb_eq in Ez. subst d. destruct (Hx eq_refl) as [Hs Hc].
    apply N.eqb_neq in Hs, Hc. now rewrite Hs, Hc.
  - cbn [forallb] in Hds. apply andb_prop in Hds as [Hd2 _].
    destruct (digit_is_no_sign d2 Hd2) as (_ & _ & Hx & HX).
    rewrite Hx, HX. apply andb_false_r.
Qed.

Lemma digits_then_end (ds rest : jsstring) :
  forallb is_digit ds = true -> ends_number ds rest ->
  take_while is_digit (ds ++ rest) = ds.
Proof.
  intros Hds Hrest. rewrite (Captcha.take_while_app _ _ _ Hds).
  rewrite Captcha.take_while_stops, app_nil_r; [reflexivity|].
  destruct rest as [|c rest]; [exact I | exact (proj1 Hrest)].
Qed.

(** A run of decimal digits after white space is read in radix 10 up to
    its end. *)
Lemma parseInt_decimal ws ds rest :
  forallb is_space ws = true ->
  ds <> [] -> forallb is_digit ds = true ->
  ends_number ds rest ->
  parseInt (ws ++ ds ++ rest) = Number_of_Z (Z.of_N (decimal_value ds)).
Proof.
  intros Hws Hne Hds Hrest. unfold parseInt. cbv zeta.
  rewrite (Captcha.drop_while_app _ _ _ Hws).
  rewrite (Captcha.drop_while_id _ _ (Captcha.digits_stop_spaces ds rest Hne Hds)).
  pose proof (no_hex_prefix ds rest Hne Hds Hrest) as Hhex.
  pose proof (digits_then_end ds rest Hds Hrest) as Htake.
  destruct ds as [|d ds]; [congruence|]. cbn [app] in *.
  cbn [forallb] in Hds. apply andb_prop in Hds as [Hd _].
  destruct (digit_is_no_sign d Hd) as (Hp & Hm & _ & _).
  rewrite Hp, Hm. cbn [orb]. rewrite Hhex, Htake. reflexivity.
Qed.

Lemma parseInt_negative ws ds rest :
  forallb is_space ws = true ->
  ds <> [] -> forallb is_digit ds = true ->
  ends_number ds rest ->
  parseInt (ws ++ minus_sign :: ds ++ rest)
    = Number_of_Z (- Z.of_N (decimal_value ds)).
Proof.
  intros Hws Hne Hds Hrest. unfold parseInt. cbv zeta.
  rewrite (Captcha.drop_while_app _ _ _ Hws).
  cbn [drop_while]. change (is_space minus_sign) with false. cbv iota.
  rewrite N.eqb_refl, orb_true_r.
  pose proof (no_hex_prefix ds rest Hne Hds Hrest) as Hhex.
  pose proof (digits_then_end ds rest Hds Hrest) as Htake.
  destruct ds as [|d ds]; [congruence|]. cbn [app] in *.
  rewrite Hhex, Htake. reflexivity.
Qed.

Lemma parseInt_none ws rest :
  forallb is_space ws = true -> starts_no_number rest ->
  parseInt (ws ++ rest) = NaN.
Proof.
  intros Hws Hrest. unfold parseInt. cbv zeta.
  rewrite (Captcha.drop_while_app _ _ _ Hws).
  destruct rest as [|c rest]; [reflexivity|].
  destruct Hrest as (Hs & Hd & Hp & Hm).
  cbn [drop_while]. rewrite Hs.
  apply N.eqb_neq in Hp, Hm. rewrite Hp, Hm. cbn [orb].
  assert (Hz : (c =? zero_digit)%N = false).
  { apply N.eqb_neq. intros ->. discriminate Hd. }
  rewrite Hz. cbn [andb].
  destruct rest as [|c1 rest]; cbn [take_while]; now rewrite Hd.
Qed.

Lemma zeros_numeral_digits (k : nat) (a : N) :
  repeat zero_digit k ++ numeral a <> []
  /\ forallb is_digit (repeat zero_digit k ++ numeral a) = true.
Proof.
  split.
  - intros H. apply app_eq_nil in H as [_ H]. now apply numeral_not_empty in H.
  - now rewrite forallb_app, zeros_digits, numeral_digits.
Qed.

(** X19: the two numbers of config.js are never zero and never [NaN].  An
    unset variable, and a value that does not begin with a digit or a sign
    after optional white space, give the defaults 10000 and 100.  A value
    that begins with decimal digits, the numeral of [a] behind zeros if any,
    gives the number for [a], which is [a] itself up to [2^53], whatever
    follows the digits, except that an [x] after a single [0] starts a
    hexadecimal numeral: so a unit written after the number is ignored.  A
    zero gives the default; a minus sign in front gives a negative
    number. *)
Theorem configured_numbers_are_never_zero (v : EnvVar) :
  Number_truthy (POLL_INTERVAL v) = true
  /\ Number_truthy (MAX_PER_PAGE v) = true
  /\ (v = None ->
      POLL_INTERVAL v = Finite 10000 /\ MAX_PER_PAGE v = Finite 100)
  /\ (forall ws rest,
        v = Some (ws ++ rest) ->
        forallb is_space ws = true -> starts_no_number rest ->
        POLL_INTERVAL v = Finite 10000 /\ MAX_PER_PAGE v = Finite 100)
  /\ (forall ws k a rest,
        v = Some (ws ++ (repeat zero_digit k ++ numeral a) ++ rest) ->
        forallb is_space ws = true ->
        ends_number (repeat zero_digit k ++ numeral a) rest ->
        POLL_INTERVAL v
          = (if (a =? 0)%N then Finite 10000 else Number_of_Z (Z.of_N a))
        /\ MAX_PER_PAGE v
          = (if (a =? 0)%N then Finite 100 else Number_of_Z (Z.of_N a))
        /\ ((0 < a <= 2 ^ 53)%N ->
            POLL_INTERVAL v = Finite (Z.of_N a)
            /\ MAX_PER_PAGE v = Finite (Z.of_N a)))
  /\ (forall ws k a rest,
        v = Some (ws ++ minus_sign :: (repeat zero_digit k ++ numeral a) ++ rest) ->
        forallb is_space ws = true ->
        ends_number (repeat zero_digit k ++ numeral a) rest ->
        (0 < a <= 2 ^ 53)%N ->
        POLL_INTERVAL v = Finite (- Z.of_N a)
        /\ MAX_PER_PAGE v = Finite (- Z.of_N a)).
Proof.
  unfold POLL_INTERVAL, MAX_PER_PAGE.
  split; [now apply number_or_truthy|].
  split; [now apply number_or_truthy|].
  split; [intros ->; split; reflexivity|].
  split; [|split].
  - intros ws rest -> Hws Hrest. cbn [ToString].
    rewrite (parseInt_none ws rest Hws Hrest). split; reflexivity.
  - intros ws k a rest -> Hws Hrest. cbn [ToString].
    destruct (zeros_numeral_digits k a) as [Hne Hds].
    rewrite (parseInt_decimal ws _ rest Hws Hne Hds Hrest).
    rewrite decimal_value_zeros, decimal_value_numeral.
    assert (E : forall d,
               Number_truthy d = true ->
               number_or (Number_of_Z (Z.of_N a)) d
               = if (a =? 0)%N then d else Number_of_Z (Z.of_N a)).
    { intros d Hd. unfold number_or. destruct (a =? 0)%N eqn:Ea.
      - apply N.eqb_eq in Ea. now subst a.
      - apply N.eqb_neq in Ea. rewrite Number_of_Z_truthy; [reflexivity | lia]. }
    rewrite !E by reflexivity.
    split; [reflexivity|]. split; [reflexivity|].
    intros [Hpos Hle]. rewrite (proj2 (N.eqb_neq a 0)) by lia.
    rewrite (Number_of_N_small a Hle). split; reflexivity.
  - intros ws k a rest -> Hws Hrest [Hpos Hle]. cbn [ToString].
    destruct (zeros_numeral_digits k a) as [Hne Hds].
    rewrite (parseInt_negative ws _ rest Hws Hne Hds Hrest).
    rewrite decimal_value_zeros, decimal_value_numeral.
    assert (E : Number_of_Z (- Z.of_N a) = Finite (- Z.of_N a)).
    { unfold Number_of_Z.
      replace (Z.abs_N (- Z.of_N a)) with a by lia.
      rewrite (nearest_double_small a Hle).
      now rewrite (proj2 (Z.ltb_lt (- Z.of_N a) 0)) by lia. }
    rewrite E. unfold number_or.
    assert (T : Number_truthy (Finite (- Z.of_N a)) = true).
    { destruct a; [lia | reflexivity]. }
    rewrite T. split; reflexivity.
Qed.

Lemma configured_numbers_are_never_zero_witness :
  (POLL_INTERVAL None = Finite 10000 /\ MAX_PER_PAGE None = Finite 100)
  /\ POLL_INTERVAL (Some (code_units "ten seconds")) = Finite 10000
  /\ POLL_INTERVAL (Some (code_units " 30s")) = Finite 30
  /\ POLL_INTERVAL (Some (code_units "0")) = Finite 10000
  /\ MAX_PER_PAGE (Some (code_units "050 rows")) = Finite 50
  /\ POLL_INTERVAL (Some (code_units "-5")) = Finite (-5).
Proof.
  split; [|split; [|split; [|split; [|split]]]].
  - apply (proj1 (proj2 (proj2 (configured_numbers_are_never_zero None)))).
    reflexivity.
  - apply (proj1 (proj2 (proj2 (proj2
             (configured_numbers_are_never_zero
                (Some (code_units "ten seconds"))))))
             [] (code_units "ten seconds")); [reflexivity | reflexivity |].
    vm_compute. repeat split; discriminate.
  - assert (Hends : ends_number (repeat zero_digit 0 ++ numeral 30)
                                (code_units "s")).
    { vm_compute. split; [reflexivity | discriminate]. }
    exact (proj1 (proj1 (proj2 (proj2 (proj2 (proj2
             (configured_numbers_are_never_zero (Some (code_units " 30s")))))))
             (code_units " ") 0 30%N (code_units "s") eq_refl eq_refl Hends)).
  - exact (proj1 (proj1 (proj2 (proj2 (proj2 (proj2
             (configured_numbers_are_never_zero (Some (code_units "0")))))))
             [] 0 0%N [] eq_refl eq_refl I)).
  - assert (Hends : ends_number (repeat zero_digit 1 ++ numeral 50)
                                (code_units " rows")).
    { vm_compute. split; [reflexivity | discriminate]. }
    exact (proj1 (proj2 (proj1 (proj2 (proj2 (proj2 (proj2
             (configured_numbers_are_never_zero
                (Some (code_units "050 rows")))))))
             [] 1 50%N (code_units " rows") eq_refl eq_refl Hends))).
  - assert (Hsafe : (0 < 5 <= 2 ^ 53)%N).
    { split; [reflexivity | vm_compute; discriminate]. }
    exact (proj1 (proj2 (proj2 (proj2 (proj2 (proj2
             (configured_numbers_are_never_zero (Some (code_units "-5")))))))
             [] 0 5%N [] eq_refl eq_refl I Hsafe)).
Defined.

(** [parseInt] as config.js meets it, on values the statement above leaves
    out: a hexadecimal numeral, an explicit plus sign, a sign with no digit,
    a number too large for a double to hold exactly, and one beyond the
    largest double. *)
Lemma parseInt_examples :
  POLL_INTERVAL (Some (code_units "0x10")) = Finite 16
  /\ POLL_INTERVAL (Some (code_units "+15000")) = Finite 15000
  /\ POLL_INTERVAL (Some (code_units "-")) = Finite 10000
  /\ POLL_INTERVAL (Some (code_units "9007199254740993")) = Finite 9007199254740992
  /\ POLL_INTERVAL (Some (numeral (10 ^ 400))) = Infinite false
  /\ parseInt (code_units "12abc") = Finite 12
  /\ parseInt (code_units "abc") = NaN.
Proof. repeat split; vm_compute; reflexivity. Qed.

End ConfigFacts.

(** ** [startBot] *)

Module Startup.
Import MonadFacts WP Frame.

(** X20: [startBot] loads the snapshot, then starts the HTTP server and the
    Telegram client; when [server.listen] or [new TelegramBot] throws, so
    does [startBot], with nothing done but the load: no login, no notice,
    no poll.  Otherwise it does not throw: it logs in once; it sends the
    connection notice, to every configured chat and before anything else
    is sent, exactly when that login succeeded; and it runs the first poll
    whether the login succeeded or not, so that afterwards [pollCount] is 1
    and [isPolling] is down. *)
Theorem startup_notifies_after_login_and_always_polls
  (config : Config) (env : Env) (md5_hex : string -> string)
  (server_listen new_TelegramBot : Trace -> Res unit)
  (connectionMessage : string) (file : FileContent) (now : N) :
  let s0 := initial_state file now in
  let s1 := snd (loadSentMessages s0) in
  let (r', s') :=
    startBot config env md5_hex server_listen new_TelegramBot
             connectionMessage s0 in
  match server_listen (trace s1), new_TelegramBot (trace s1) with
  | Throw e, _ => r' = Throw e /\ s' = s1
  | Ok _, Throw e => r' = Throw e /\ s' = s1
  | Ok _, Ok _ =>
      let (r, s2) := initializeBrowser config env s1 in
      let notice :=
        match r with
        | Ok true => channel_calls connectionMessage (TELEGRAM_CHAT_IDS config)
        | _ => []
        end in
      let s3 := set_trace (trace s2 ++ notice) s2 in
      r' = Ok tt
      /\ s' = snd (pollSMSAPI config env md5_hex s3)
      /\ pollCount s' = 1 /\ isPolling s' = false
      /\ exists later, sends_of (trace s') = sends_of notice ++ later
  end.
Proof.
  cbv zeta.
  set (s0 := initial_state file now).
  set (s1 := snd (loadSentMessages s0)).
  assert (H1 : loadSentMessages s0 = (Ok tt, s1)).
  { unfold s1. rewrite Tick.loadSentMessages_run. reflexivity. }
  assert (K1 : isPolling s1 = false /\ pollCount s1 = 0
               /\ sends_of (trace s1) = []).
  { unfold s1. rewrite Tick.loadSentMessages_run. cbn [snd].
    destruct file; repeat split. }
  destruct K1 as (F1 & P1 & S1).
  unfold startBot, bind at 1. rewrite H1. unfold bind at 1.
  destruct (server_listen (trace s1)) as [[]|e]; [|now split].
  unfold bind at 1.
  destruct (new_TelegramBot (trace s1)) as [[]|e]; [|now split].
  pose proof (initializeBrowser_nothrow config env s1) as [b Hb].
  pose proof (initializeBrowser_frame config env s1) as (_ & F2 & P2 & _ & init & T2 & Q2).
  unfold bind at 1.
  destruct (initializeBrowser config env s1) as [r s2] eqn:Hinit.
  cbn [fst snd] in *. subst r.
  set (notice := if b then channel_calls connectionMessage (TELEGRAM_CHAT_IDS config)
                 else []).
  set (s3 := set_trace (trace s2 ++ notice) s2).
  assert (Hrun : bind (if b
                       then bind (sendToAllChannels config env connectionMessage)
                                 (fun _ => ret tt)
                       else ret tt)
                      (fun _ => pollSMSAPI config env md5_hex) s2
                 = pollSMSAPI config env md5_hex s3).
  { unfold bind at 1. unfold s3, notice. destruct b.
    - unfold bind at 1, sendToAllChannels.
      destruct (Channels.sendToAllChannels_from_run config env connectionMessage
                  (TELEGRAM_CHAT_IDS config) [] s2) as (out & -> & _).
      reflexivity.
    - unfold ret. rewrite app_nil_r, Poll.set_trace_same. reflexivity. }
  assert (F3 : isPolling s3 = false) by (unfold s3; norm_state; congruence).
  assert (P3 : pollCount s3 = 0) by (unfold s3; norm_state; congruence).
  rewrite Hrun.
  rewrite (Tick.pollSMSAPI_idle config env md5_hex s3 F3).
  split; [reflexivity|]. split; [reflexivity|].
  rewrite (Tick.poll_enter_idle s3 F3).
  destruct (Counters.poll_body_counters config env md5_hex
              (set_pollCount (S (pollCount s3)) (set_isPolling true s3)))
    as (_ & Pb & _).
  norm_state_in Pb. norm_state.
  split; [rewrite Pb, P3; reflexivity|]. split; [reflexivity|].
  destruct (Tick.run_op_writes_within_cap config env md5_hex OpPoll s3)
    as (new & Tnew & _).
  cbn [run_op] in Tnew.
  rewrite (Tick.pollSMSAPI_idle config env md5_hex s3 F3) in Tnew.
  rewrite (Tick.poll_enter_idle s3 F3) in Tnew. cbn [snd] in Tnew.
  norm_state_in Tnew. rewrite Tnew.
  exists (sends_of new). unfold s3 at 1. norm_state.
  rewrite T2, !Tick.sends_of_app, S1.
  destruct (Tick.quiet_events_silent init) as [Hsil _].
  { rewrite forallb_forall in *. intros ev Hev.
    apply Tick.session_event_is_quiet. now apply Q2. }
  rewrite Hsil. reflexivity.
Qed.

(** [startBot] with a port that [listen] refuses, and with one it takes:
    the first throws before anything is called outside; the second sends
    the notice to the three chats of config.js and then the records of the
    first poll. *)
Lemma startBot_examples :
  startBot example_config env_up example_digest
           (fun _ => Throw "options.port should be >= 0 and < 65536")
           (fun _ => Ok tt) "connected" (initial_state FileAbsent 0)
  = (Throw "options.port should be >= 0 and < 65536", initial_state FileAbsent 0)
  /\ (let (r, s') :=
        startBot example_config env_up example_digest
                 (fun _ => Ok tt) (fun _ => Ok tt) "connected"
                 (initial_state FileAbsent 0) in
      r = Ok tt
      /\ firstn 3 (sends_of (trace s'))
         = map (fun chatId => (chatId, "connected")) config_js_chat_ids
      /\ pollCount s' = 1).
Proof. split; [reflexivity|]. vm_compute. repeat split. Qed.

End Startup.

(** ** [shutdown] *)

Module Exit.
Import MonadFacts WP Frame.

Lemma shutdown_run (config : Config) (env : Env)
  (bot_stopPolling : Trace -> Res unit) (bot_set : bool)
  (shutdownMessage : string) (s : State) :
  let snapshot := slice_last MAX_STORED_HASHES (sentMessageHashes s) in
  let notice :=
    if bot_set then channel_calls shutdownMessage (TELEGRAM_CHAT_IDS config)
    else [] in
  let t1 := trace s ++ EvWriteFile snapshot :: notice in
  let stop := if bot_set then bot_stopPolling t1 else Ok tt in
  let (r, s') := shutdown config env bot_stopPolling bot_set shutdownMessage s in
  match stop with
  | Throw e => r = Throw e /\ trace s' = t1
  | Ok _ =>
      match browser s with
      | None => r = Ok 0 /\ trace s' = t1
      | Some _ =>
          trace s' = t1 ++ [EvClose]
          /\ r = match browser_close env (t1 ++ [EvClose]) with
                 | Ok _ => Ok 0
                 | Throw e => Throw e
                 end
      end
  end.
Proof.
  cbv zeta. unfold shutdown.
  unfold bind at 1. rewrite Tick.saveSentMessages_run. cbv zeta.
  set (snapshot := slice_last MAX_STORED_HASHES (sentMessageHashes s)).
  set (s1 := match fs_writeFileSync env (trace s ++ [EvWriteFile snapshot]) with
             | Ok _ => set_disk (FileJson snapshot)
                         (set_trace (trace s ++ [EvWriteFile snapshot]) s)
             | Throw _ => set_trace (trace s ++ [EvWriteFile snapshot]) s
             end).
  assert (T1 : trace s1 = trace s ++ [EvWriteFile snapshot]).
  { unfold s1. now destruct (fs_writeFileSync env _). }
  assert (B1 : browser s1 = browser s).
  { unfold s1. now destruct (fs_writeFileSync env _). }
  assert (Hclose : forall s2 : State,
             browser s2 = browser s ->
             let (r, s') :=
               (s0 <- get ;;
                match browser s0 with
                | Some _ => extern EvClose (browser_close env)
                | None => ret tt
                end ;;
                ret 0)%js s2 in
             match browser s with
             | None => r = Ok 0 /\ trace s' = trace s2
             | Some _ =>
                 trace s' = trace s2 ++ [EvClose]
                 /\ r = match browser_close env (trace s2 ++ [EvClose]) with
                        | Ok _ => Ok 0
                        | Throw e => Throw e
                        end
             end).
  { intros s2 B2. unfold bind at 1, get. rewrite B2.
    destruct (browser s) as [b|].
    - unfold bind, extern, ret. cbv zeta.
      destruct (browser_close env (trace s2 ++ [EvClose])); split; reflexivity.
    - unfold bind, ret. split; reflexivity. }
  destruct bot_set.
  - unfold bind at 1. unfold bind at 1. unfold try_catch, bind at 1, sendToAllChannels.
    destruct (Channels.sendToAllChannels_from_run config env shutdownMessage
                (TELEGRAM_CHAT_IDS config) [] s1) as (out & -> & _).
    unfold ret at 1. norm_state. rewrite T1, <- app_assoc. cbn [app].
    set (t1 := trace s ++ EvWriteFile snapshot
                 :: channel_calls shutdownMessage (TELEGRAM_CHAT_IDS config)).
    destruct (bot_stopPolling t1) as [[]|e].
    + specialize (Hclose (set_trace t1 s1) B1). norm_state_in Hclose.
      exact Hclose.
    + split; reflexivity.
  - unfold bind at 1. unfold ret at 1.
    specialize (Hclose s1 B1). rewrite T1 in Hclose. exact Hclose.
Qed.

(** X21: [shutdown] writes the snapshot first and, when the bot exists,
    then sends the notice to every configured chat, whatever else happens.
    It reaches [process.exit(0)] only if [bot.stopPolling] and
    [browser.close] both succeed: when [stopPolling] throws, the browser is
    not closed and the process is not ended; when [browser.close] throws,
    the process is not ended either. *)
Theorem shutdown_exits_only_if_every_stop_succeeds
  (config : Config) (env : Env)
  (bot_stopPolling : Trace -> Res unit) (bot_set : bool)
  (shutdownMessage : string) (s : State) :
  let snapshot := slice_last MAX_STORED_HASHES (sentMessageHashes s) in
  let notice :=
    if bot_set then channel_calls shutdownMessage (TELEGRAM_CHAT_IDS config)
    else [] in
  let t1 := trace s ++ EvWriteFile snapshot :: notice in
  let (r, s') := shutdown config env bot_stopPolling bot_set shutdownMessage s in
  (exists rest, trace s' = t1 ++ rest /\ (rest = [] \/ rest = [EvClose]))
  /\ (r = Ok 0 \/ exists e, r = Throw e)
  /\ (forall e,
        bot_set = true -> bot_stopPolling t1 = Throw e ->
        r = Throw e /\ trace s' = t1)
  /\ (forall b e,
        (bot_set = false \/ bot_stopPolling t1 = Ok tt) ->
        browser s = Some b ->
        browser_close env (t1 ++ [EvClose]) = Throw e ->
        r = Throw e /\ trace s' = t1 ++ [EvClose])
  /\ (r = Ok 0 ->
      (bot_set = false \/ bot_stopPolling t1 = Ok tt)
      /\ (browser s = None \/ browser_close env (t1 ++ [EvClose]) = Ok tt)).
Proof.
  pose proof (shutdown_run config env bot_stopPolling bot_set shutdownMessage s) as H.
  cbv zeta in *.
  destruct (shutdown config env bot_stopPolling bot_set shutdownMessage s) as [r s'].
  destruct bot_set; cbv beta iota in *;
    match type of H with
    | context [bot_stopPolling ?t] => set (t1 := t) in *
    | _ => set (t1 := trace s ++ [EvWriteFile (slice_last MAX_STORED_HASHES
                                                         (sentMessageHashes s))]) in *
    end.
  - destruct (bot_stopPolling t1) as [[]|e0] eqn:Hstop.
    + destruct (browser s) as [b0|] eqn:Hb.
      * cbv beta iota in H; destruct H as [Ht Hr].
        destruct (browser_close env (t1 ++ [EvClose])) as [[]|e1] eqn:Hc; subst r.
        -- split; [exists [EvClose]; auto|]. split; [now left|].
           split; [intros e _ He; discriminate He|].
           split; [intros b e _ _ He; discriminate He|].
           intros _. split; [now right | now right].
        -- split; [exists [EvClose]; auto|]. split; [right; now exists e1|].
           split; [intros e _ He; discriminate He|].
           split; [intros b e _ _ He; injection He as <-; now split|].
           intros Hr. discriminate Hr.
      * cbv beta iota in H; destruct H as [Hr Ht]. subst r.
        split; [exists []; rewrite app_nil_r; auto|]. split; [now left|].
        split; [intros e _ He; discriminate He|].
        split; [intros b e _ Hb'; discriminate Hb'|].
        intros _. split; [now right | now left].
    + cbv beta iota in H; destruct H as [Hr Ht]. subst r.
      split; [exists []; rewrite app_nil_r; auto|]. split; [right; now exists e0|].
      split; [intros e _ He; injection He as <-; now split|].
      split; [intros b e [Hf|Hf] _ _; discriminate Hf|].
      intros Hr. discriminate Hr.
  - destruct (browser s) as [b0|] eqn:Hb.
    + cbv beta iota in H; destruct H as [Ht Hr].
      destruct (browser_close env (t1 ++ [EvClose])) as [[]|e1] eqn:Hc; subst r.
      * split; [exists [EvClose]; auto|]. split; [now left|].
        split; [intros e Hf; discriminate Hf|].
        split; [intros b e _ _ He; discriminate He|].
        intros _. split; [now left | now right].
      * split; [exists [EvClose]; auto|]. split; [right; now exists e1|].
        split; [intros e Hf; discriminate Hf|].
        split; [intros b e _ _ He; injection He as <-; now split|].
        intros Hr. discriminate Hr.
    + cbv beta iota in H; destruct H as [Hr Ht]. subst r.
      split; [exists []; rewrite app_nil_r; auto|]. split; [now left|].
      split; [intros e Hf; discriminate Hf|].
      split; [intros b e _ Hb'; discriminate Hb'|].
      intros _. split; [now left | now left].
Qed.

Lemma shutdown_exits_only_if_every_stop_succeeds_witness :
  (let (r, s') :=
     shutdown example_config env_up (fun _ => Throw "ETELEGRAM: 502 Bad Gateway")
              true "Bot shutting down" active_state in
   r = Throw "ETELEGRAM: 502 Bad Gateway"
   /\ trace s' = trace active_state
                 ++ EvWriteFile (slice_last MAX_STORED_HASHES
                                            (sentMessageHashes active_state))
                 :: channel_calls "Bot shutting down" config_js_chat_ids)
  /\
  (let (r, s') :=
     shutdown example_config (with_failing_close env_up) (fun _ => Ok tt)
              true "Bot shutting down" active_state in
   r = Throw "Protocol error: Connection closed"
   /\ trace s' = (trace active_state
                  ++ EvWriteFile (slice_last MAX_STORED_HASHES
                                             (sentMessageHashes active_state))
                  :: channel_calls "Bot shutting down" config_js_chat_ids)
                 ++ [EvClose])
  /\
  (let (r, s') :=
     shutdown example_config env_up (fun _ => Ok tt)
              true "Bot shutting down" active_state in
   r = Ok 0 ->
   (true = false \/ Ok tt = Ok tt)
   /\ (browser active_state = None
       \/ browser_close env_up
            ((trace active_state
              ++ EvWriteFile (slice_last MAX_STORED_HASHES
                                         (sentMessageHashes active_state))
              :: channel_calls "Bot shutting down" config_js_chat_ids)
             ++ [EvClose]) = Ok tt)).
Proof.
  split; [|split].
  - pose proof (shutdown_exits_only_if_every_stop_succeeds
                  example_config env_up (fun _ => Throw "ETELEGRAM: 502 Bad Gateway")
                  true "Bot shutting down" active_state) as H.
    cbv zeta in H.
    destruct (shutdown example_config env_up _ true "Bot shutting down" active_state)
      as [r s'].
    destruct H as (_ & _ & H & _).
    apply (H "ETELEGRAM: 502 Bad Gateway"); reflexivity.
  - pose proof (shutdown_exits_only_if_every_stop_succeeds
                  example_config (with_failing_close env_up) (fun _ => Ok tt)
                  true "Bot shutting down" active_state) as H.
    cbv zeta in H.
    destruct (shutdown example_config (with_failing_close env_up) _ true
                       "Bot shutting down" active_state) as [r s'].
    destruct H as (_ & _ & _ & H & _).
    apply (H 1 "Protocol error: Connection closed");
      [right; reflexivity | reflexivity | reflexivity].
  - pose proof (shutdown_exits_only_if_every_stop_succeeds
                  example_config env_up (fun _ => Ok tt)
                  true "Bot shutting down" active_state) as H.
    cbv zeta in H.
    destruct (shutdown example_config env_up _ true "Bot shutting down" active_state)
      as [r s'].
    destruct H as (_ & _ & _ & _ & H). exact H.
Defined.

End Exit.
